(** * gltf-go: the asset-building pipeline, embedded and verified

    A shallow embedding of the glTF writer (the schema types, the typed
    buffer packer, the material deduplicator, the mesh consolidator, the
    document assembler and the two container serializers), followed by the
    properties of the pipeline.

    Conventions.
    - Go's [int] is 64 bits wide; every [int] of this program is a slice
      length, an index into a slice, or a small multiple of one, so it is
      embedded as an unbounded [Z].  The fixed-width types the program
      converts to ([uint32], [int32], [uint8]) wrap around explicitly.
    - A byte is a [Z] in [0, 256); a byte slice and a [bytes.Buffer] are
      [list Z].
    - [float32] and [float64] are IEEE 754 binary32 and binary64, embedded
      as [spec_float] with the precision and exponent range of each format
      (round to nearest, ties to even).  [spec_float] has a single NaN.
    - The package-level variable [vertexColors] is an explicit argument.
    - What the program obtains from other packages and does not compute
      itself (JSON text rendering, PNG compression, base64) is a section
      variable. *)

From Stdlib Require Import ZArith List String Ascii Lia Bool.
From Stdlib Require Import Floats.SpecFloat.
From stdpp Require Import base list gmap strings.

Local Open Scope Z_scope.
Set Warnings "-register-all".

(** ** Fixed-width integers and bytes *)

Definition uint32 (z : Z) : Z := z mod 2 ^ 32.

Definition int32 (z : Z) : Z := (z + 2 ^ 31) mod 2 ^ 32 - 2 ^ 31.

(** [len(s)] of a slice. *)
Definition len {A : Type} (l : list A) : Z := Z.of_nat (length l).

(** [binary.Write(buf, binary.LittleEndian, v)] for a 32-bit [v]: the four
    bytes of [v] (two's complement for [int32]), least significant first. *)
Definition putUint32 (v : Z) : list Z :=
  [ v mod 256; (v / 2 ^ 8) mod 256; (v / 2 ^ 16) mod 256; (v / 2 ^ 24) mod 256 ].

Definition putInt32 (v : Z) : list Z := putUint32 (uint32 v).

(** The bytes of a Go string constant (ASCII here). *)
Definition bytes_of_string (s : string) : list Z :=
  map (fun a => Z.of_N (N_of_ascii a)) (list_ascii_of_string s).

(** [strings.Repeat(" ", n)] as bytes, and a run of null bytes. *)
Definition spaces (n : Z) : list Z := repeat 32 (Z.to_nat n).
Definition nulls (n : Z) : list Z := repeat 0 (Z.to_nat n).

(** ** Floating point *)

Definition is_nan (x : spec_float) : bool :=
  match x with S754_nan => true | _ => false end.

Definition is_inf (sign : bool) (x : spec_float) : bool :=
  match x with S754_infinity s => Bool.eqb s sign | _ => false end.

Definition signbit (x : spec_float) : bool :=
  match x with
  | S754_zero s | S754_infinity s | S754_finite s _ _ => s
  | S754_nan => false
  end.

(** The integer part of a finite float (truncation towards zero). *)
Definition float_trunc (x : spec_float) : option Z :=
  match x with
  | S754_zero _ => Some 0
  | S754_finite s m e => Some (cond_Zopp s (Z.shiftl (Zpos m) e))
  | _ => None
  end.

Module F32.
Definition prec : Z := 24.
Definition emax : Z := 128.
Definition valid (x : spec_float) : Prop := valid_binary prec emax x = true.
Definition of_Z (z : Z) : spec_float := binary_normalize prec emax z 0 false.
Definition add := SFadd prec emax.
Definition sub := SFsub prec emax.
Definition mul := SFmul prec emax.
Definition div := SFdiv prec emax.
Definition eqb := SFeqb.
Definition ltb := SFltb.
Definition leb := SFleb.
(** Conversion of a float of another format: rounding. *)
Definition round (x : spec_float) : spec_float :=
  match x with
  | S754_finite s m e => binary_round prec emax s m e
  | _ => x
  end.
(** A constant [n / d] of the source, correctly rounded. *)
Definition of_ratio (n d : Z) : spec_float := div (of_Z n) (of_Z d).
(** The IEEE 754 bit pattern ([math.Float32bits]); NaN is the quiet NaN. *)
Definition bits (x : spec_float) : Z :=
  match x with
  | S754_zero s => if s then 2 ^ 31 else 0
  | S754_infinity s => (if s then 2 ^ 31 else 0) + 255 * 2 ^ 23
  | S754_nan => 255 * 2 ^ 23 + 2 ^ 22
  | S754_finite s m e =>
      (if s then 2 ^ 31 else 0) +
      (if Zpos m <? 2 ^ 23 then Zpos m
       else (e + 150) * 2 ^ 23 + (Zpos m - 2 ^ 23))
  end.
End F32.

Module F64.
Definition prec : Z := 53.
Definition emax : Z := 1024.
Definition valid (x : spec_float) : Prop := valid_binary prec emax x = true.
Definition of_Z (z : Z) : spec_float := binary_normalize prec emax z 0 false.
Definition add := SFadd prec emax.
Definition sub := SFsub prec emax.
Definition mul := SFmul prec emax.
Definition div := SFdiv prec emax.
Definition eqb := SFeqb.
Definition ltb := SFltb.
Definition leb := SFleb.
Definition round (x : spec_float) : spec_float :=
  match x with
  | S754_finite s m e => binary_round prec emax s m e
  | _ => x
  end.
(** A decimal constant [n / d] of the source, correctly rounded. *)
Definition of_ratio (n d : Z) : spec_float := div (of_Z n) (of_Z d).
End F64.

(** The conversions [float64(x)] of a [float32] (exact) and [float32(x)] of
    a [float64] (rounding). *)
Definition float64_of_float32 (x : spec_float) : spec_float := F64.round x.
Definition float32_of_float64 (x : spec_float) : spec_float := F32.round x.

(** Go's [math.Max] and [math.Min] on [float64], with their special cases:
    an infinity of the right sign wins over NaN, NaN wins over the rest,
    and [+0] is larger than [-0]. *)
Definition math_Max (x y : spec_float) : spec_float :=
  if is_inf false x || is_inf false y then S754_infinity false
  else if is_nan x || is_nan y then S754_nan
  else if F64.eqb x (S754_zero false) && F64.eqb x y
       then (if signbit x then y else x)
  else if F64.ltb y x then x else y.

Definition math_Min (x y : spec_float) : spec_float :=
  if is_inf true x || is_inf true y then S754_infinity true
  else if is_nan x || is_nan y then S754_nan
  else if F64.eqb x (S754_zero false) && F64.eqb x y
       then (if signbit x then x else y)
  else if F64.ltb x y then x else y.


(** ** JSON values

    The value tree that [encoding/json] builds from a Go value, before it
    is rendered as text.  Struct fields come in declaration order under the
    key of their tag; a field tagged ["-"] is left out; a field tagged
    [omitempty] is left out when it is false, 0, a nil interface, or an
    empty string, slice or map; the keys of a map are sorted. *)

Inductive json :=
| JNull
| JBool (b : bool)
| JInt (z : Z)
| JFloat32 (x : spec_float)
| JFloat64 (x : spec_float)
| JString (s : string)
| JArray (items : list json)
| JObject (fields : list (string * json)).

Definition kv (k : string) (v : json) : list (string * json) := [(k, v)].

Definition kv_omitempty (k : string) (empty : bool) (v : json) : list (string * json) :=
  if empty then [] else [(k, v)].

Definition kv_int (k : string) (z : Z) := kv_omitempty k (z =? 0) (JInt z).
Definition kv_bool (k : string) (b : bool) := kv_omitempty k (negb b) (JBool b).
Definition kv_string (k : string) (s : string) := kv_omitempty k (String.eqb s "") (JString s).
Definition kv_float64 (k : string) (x : spec_float) :=
  kv_omitempty k (F64.eqb x (S754_zero false)) (JFloat64 x).
Definition kv_slice (k : string) (l : list json) :=
  kv_omitempty k (match l with [] => true | _ => false end) (JArray l).

(** The entries of a map in the order of their keys. *)
Fixpoint insert_sorted {A : Type} (e : string * A) (l : list (string * A)) : list (string * A) :=
  match l with
  | [] => [e]
  | e' :: l' => if String.leb (fst e) (fst e') then e :: l else e' :: insert_sorted e l'
  end.

Definition sorted_entries {A : Type} (m : gmap string A) : list (string * A) :=
  foldr insert_sorted [] (map_to_list m).

Definition json_map (m : gmap string Z) : json :=
  JObject (map (fun e => (fst e, JInt (snd e))) (sorted_entries m)).

(** [json.Marshal] fails on a NaN or an infinity. *)
Definition float_supported (x : spec_float) : bool :=
  match x with
  | S754_nan | S754_infinity _ => false
  | _ => true
  end.

Fixpoint json_supported (j : json) : bool :=
  match j with
  | JFloat32 x | JFloat64 x => float_supported x
  | JArray items => forallb json_supported items
  | JObject fields => forallb (fun e => json_supported (snd e)) fields
  | _ => true
  end.

(** The keys of all objects of a JSON value. *)
Fixpoint json_keys (j : json) : list string :=
  match j with
  | JArray items => flat_map json_keys items
  | JObject fields => flat_map (fun e => fst e :: json_keys (snd e)) fields
  | _ => []
  end.

(** ** The glTF schema types

    Field names carry the name of their struct.  An [interface{}] field
    holds one of the dynamic values this program stores in such fields. *)

Record Asset_ (I : Type) := {
  Asset_Copyright : string;
  Asset_Extensions : I;
  Asset_Extras : I;
  Asset_Generator : string;
  Asset_MinVersion : string;
  Asset_Version : string;
}.
Arguments Asset_Copyright {I}.
Arguments Asset_Extensions {I}.
Arguments Asset_Extras {I}.
Arguments Asset_Generator {I}.
Arguments Asset_MinVersion {I}.
Arguments Asset_Version {I}.

Inductive any :=
| any_nil
| any_int (z : Z)
| any_string (s : string)
| any_map (m : gmap string Z)
| any_Asset (a : Asset_ any).

Definition Asset := Asset_ any.

Definition is_nil (a : any) : bool :=
  match a with any_nil => true | _ => false end.

Fixpoint json_any (a : any) : json :=
  match a with
  | any_nil => JNull
  | any_int z => JInt z
  | any_string s => JString s
  | any_map m => json_map m
  | any_Asset x =>
      JObject (kv_string "copyright" (Asset_Copyright x)
        ++ kv_omitempty "extensions" (is_nil (Asset_Extensions x)) (json_any (Asset_Extensions x))
        ++ kv_omitempty "extras" (is_nil (Asset_Extras x)) (json_any (Asset_Extras x))
        ++ kv_string "generator" (Asset_Generator x)
        ++ kv_string "minVersion" (Asset_MinVersion x)
        ++ kv_string "version" (Asset_Version x))
  end.

Definition kv_any (k : string) (a : any) := kv_omitempty k (is_nil a) (json_any a).

Record Accessor := {
  Accessor_BufferView : Z;
  Accessor_ByteOffset : Z;
  Accessor_ComponentType : any;
  Accessor_Count : Z;
  Accessor_Type : any;
  Accessor_Extensions : any;
  Accessor_Extras : any;
  Accessor_Max : list spec_float;
  Accessor_Min : list spec_float;
  Accessor_Name : any;
  Accessor_Normalized : bool;
  Accessor_Sparse : any;
}.

Record BufferView := {
  BufferView_Buffer : Z;
  BufferView_ByteLength : Z;
  BufferView_ByteOffset : Z;
  BufferView_ByteStride : Z;
  BufferView_Extensions : any;
  BufferView_Extras : any;
  BufferView_Name : any;
  BufferView_Target : any;
}.

Record GltfTexture := { GltfTexture_Source : any }.

Record GltfImage := { GltfImage_URI : string }.

Record GltfBuffer := {
  GltfBuffer_ByteLength : Z;
  GltfBuffer_Bytes : list Z;
  GltfBuffer_Extensions : any;
  GltfBuffer_Extras : any;
  GltfBuffer_Name : any;
  GltfBuffer_URI : string;
}.

Record MaterialPbrMetallicRoughness := {
  Pbr_BaseColorFactor : list spec_float;
  Pbr_BaseColorTexture : any;
  Pbr_Extensions : any;
  Pbr_Extras : any;
  Pbr_MetallicFactor : spec_float;
  Pbr_MetallicRoughnessTexture : any;
  Pbr_RoughnessFactor : spec_float;
}.

Record GltfMaterial := {
  GltfMaterial_AlphaCutoff : spec_float;
  GltfMaterial_AlphaMode : any;
  GltfMaterial_DoubleSided : bool;
  GltfMaterial_EmissiveFactor : list spec_float;
  GltfMaterial_EmissiveTexture : any;
  GltfMaterial_Extensions : any;
  GltfMaterial_Extras : any;
  GltfMaterial_Name : any;
  GltfMaterial_NormalTexture : any;
  GltfMaterial_OcclusionTexture : any;
  GltfMaterial_PbrMetallicRoughness : MaterialPbrMetallicRoughness;
}.

Record MeshPrimitive := {
  MeshPrimitive_Attributes : gmap string Z;
  MeshPrimitive_Indices : Z;
  MeshPrimitive_Material : Z;
  MeshPrimitive_Mode : Z;
}.

Record Mesh := {
  Mesh_Extensions : any;
  Mesh_Extras : any;
  Mesh_Name : string;
  Mesh_Primitives : list MeshPrimitive;
  Mesh_Weights : list spec_float;
}.

Record meshInfoAssociation := {
  MeshIndicesAccessorIndex : Z;
  MeshVerticesAccessorIndex : Z;
  MeshNormalsAccessorIndex : Z;
  MeshMaterialIndex : Z;
  MeshUVAccessorIndex : Z;
  MeshVertexColorAccessorIndex : Z;
}.

Record Node := {
  Node_Camera : any;
  Node_Children : list Z;
  Node_Extensions : any;
  Node_Extras : any;
  Node_Matrix : list spec_float;
  Node_Mesh : any;
  Node_Name : string;
  Node_Rotation : list spec_float;
  Node_Scale : list spec_float;
  Node_Skin : any;
  Node_Translation : list spec_float;
  Node_Weights : list spec_float;
}.

Record Scene := {
  Scene_Extensions : any;
  Scene_Extras : any;
  Scene_Name : any;
  Scene_Nodes : list Z;
}.

Record GlTF := {
  GlTF_Accessors : list Accessor;
  GlTF_Asset : any;
  GlTF_Buffers : list GltfBuffer;
  GlTF_BufferViews : list BufferView;
  GlTF_Extensions : any;
  GlTF_ExtensionsRequired : list string;
  GlTF_ExtensionsUsed : list string;
  GlTF_Images : list GltfImage;
  GlTF_Materials : list GltfMaterial;
  GlTF_Meshes : list Mesh;
  GlTF_Nodes : list Node;
  GlTF_Scene : Z;
  GlTF_Scenes : list Scene;
  GlTF_Textures : list GltfTexture;
}.

(** ** JSON encoding of the schema types (from the field tags) *)

Definition json_Accessor (a : Accessor) : json :=
  JObject (kv "bufferView" (JInt (Accessor_BufferView a))
    ++ kv "byteOffset" (JInt (Accessor_ByteOffset a))
    ++ kv_any "componentType" (Accessor_ComponentType a)
    ++ kv "count" (JInt (Accessor_Count a))
    ++ kv_any "type" (Accessor_Type a)
    ++ kv_any "extensions" (Accessor_Extensions a)
    ++ kv_any "extras" (Accessor_Extras a)
    ++ kv_slice "max" (map JFloat32 (Accessor_Max a))
    ++ kv_slice "min" (map JFloat32 (Accessor_Min a))
    ++ kv_any "name" (Accessor_Name a)
    ++ kv_bool "normalized" (Accessor_Normalized a)
    ++ kv_any "sparse" (Accessor_Sparse a)).

Definition json_BufferView (b : BufferView) : json :=
  JObject (kv "buffer" (JInt (BufferView_Buffer b))
    ++ kv "byteLength" (JInt (BufferView_ByteLength b))
    ++ kv "byteOffset" (JInt (BufferView_ByteOffset b))
    ++ kv_int "byteStride" (BufferView_ByteStride b)
    ++ kv_any "extensions" (BufferView_Extensions b)
    ++ kv_any "extras" (BufferView_Extras b)
    ++ kv_any "name" (BufferView_Name b)
    ++ kv_any "target" (BufferView_Target b)).

Definition json_GltfTexture (t : GltfTexture) : json :=
  JObject (kv_any "source" (GltfTexture_Source t)).

Definition json_GltfImage (i : GltfImage) : json :=
  JObject (kv_string "uri" (GltfImage_URI i)).

Definition json_GltfBuffer (b : GltfBuffer) : json :=
  JObject (kv "byteLength" (JInt (GltfBuffer_ByteLength b))
    ++ kv_any "extensions" (GltfBuffer_Extensions b)
    ++ kv_any "extras" (GltfBuffer_Extras b)
    ++ kv_any "name" (GltfBuffer_Name b)
    ++ kv_string "uri" (GltfBuffer_URI b)).

Definition json_MaterialPbrMetallicRoughness (p : MaterialPbrMetallicRoughness) : json :=
  JObject (kv_any "baseColorTexture" (Pbr_BaseColorTexture p)
    ++ kv_any "extensions" (Pbr_Extensions p)
    ++ kv_any "extras" (Pbr_Extras p)
    ++ kv "metallicFactor" (JFloat64 (Pbr_MetallicFactor p))
    ++ kv_any "metallicRoughnessTexture" (Pbr_MetallicRoughnessTexture p)
    ++ kv_float64 "roughnessFactor" (Pbr_RoughnessFactor p)).

Definition json_GltfMaterial (m : GltfMaterial) : json :=
  JObject (kv_float64 "alphaCutoff" (GltfMaterial_AlphaCutoff m)
    ++ kv_any "alphaMode" (GltfMaterial_AlphaMode m)
    ++ kv_bool "doubleSided" (GltfMaterial_DoubleSided m)
    ++ kv_slice "emissiveFactor" (map JFloat64 (GltfMaterial_EmissiveFactor m))
    ++ kv_any "emissiveTexture" (GltfMaterial_EmissiveTexture m)
    ++ kv_any "extensions" (GltfMaterial_Extensions m)
    ++ kv_any "extras" (GltfMaterial_Extras m)
    ++ kv_any "name" (GltfMaterial_Name m)
    ++ kv_any "normalTexture" (GltfMaterial_NormalTexture m)
    ++ kv_any "occlusionTexture" (GltfMaterial_OcclusionTexture m)
    ++ kv "pbrMetallicRoughness"
         (json_MaterialPbrMetallicRoughness (GltfMaterial_PbrMetallicRoughness m))).

Definition json_MeshPrimitive (p : MeshPrimitive) : json :=
  JObject (kv_omitempty "attributes"
             (match map_to_list (MeshPrimitive_Attributes p) with [] => true | _ => false end)
             (json_map (MeshPrimitive_Attributes p))
    ++ kv "indices" (JInt (MeshPrimitive_Indices p))
    ++ kv "material" (JInt (MeshPrimitive_Material p))
    ++ kv_int "mode" (MeshPrimitive_Mode p)).

Definition json_Mesh (m : Mesh) : json :=
  JObject (kv_any "extensions" (Mesh_Extensions m)
    ++ kv_any "extras" (Mesh_Extras m)
    ++ kv_string "name" (Mesh_Name m)
    ++ kv_slice "primitives" (map json_MeshPrimitive (Mesh_Primitives m))
    ++ kv_slice "weights" (map JFloat64 (Mesh_Weights m))).

Definition json_Node (n : Node) : json :=
  JObject (kv_any "camera" (Node_Camera n)
    ++ kv_slice "children" (map JInt (Node_Children n))
    ++ kv_any "extensions" (Node_Extensions n)
    ++ kv_any "extras" (Node_Extras n)
    ++ kv_slice "matrix" (map JFloat64 (Node_Matrix n))
    ++ kv_any "mesh" (Node_Mesh n)
    ++ kv_string "name" (Node_Name n)
    ++ kv_slice "rotation" (map JFloat64 (Node_Rotation n))
    ++ kv_slice "scale" (map JFloat64 (Node_Scale n))
    ++ kv_any "skin" (Node_Skin n)
    ++ kv_slice "translation" (map JFloat64 (Node_Translation n))
    ++ kv_slice "weights" (map JFloat64 (Node_Weights n))).

Definition json_Scene (s : Scene) : json :=
  JObject (kv_any "extensions" (Scene_Extensions s)
    ++ kv_any "extras" (Scene_Extras s)
    ++ kv_any "name" (Scene_Name s)
    ++ kv_slice "nodes" (map JInt (Scene_Nodes s))).

Definition json_GlTF (d : GlTF) : json :=
  JObject (kv_slice "accessors" (map json_Accessor (GlTF_Accessors d))
    ++ kv_any "asset" (GlTF_Asset d)
    ++ kv_slice "buffers" (map json_GltfBuffer (GlTF_Buffers d))
    ++ kv_slice "bufferViews" (map json_BufferView (GlTF_BufferViews d))
    ++ kv_any "extensions" (GlTF_Extensions d)
    ++ kv_slice "extensionsRequired" (map JString (GlTF_ExtensionsRequired d))
    ++ kv_slice "extensionsUsed" (map JString (GlTF_ExtensionsUsed d))
    ++ kv_slice "images" (map json_GltfImage (GlTF_Images d))
    ++ kv_slice "materials" (map json_GltfMaterial (GlTF_Materials d))
    ++ kv_slice "meshes" (map json_Mesh (GlTF_Meshes d))
    ++ kv_slice "nodes" (map json_Node (GlTF_Nodes d))
    ++ kv "scene" (JInt (GlTF_Scene d))
    ++ kv_slice "scenes" (map json_Scene (GlTF_Scenes d))
    ++ kv_slice "textures" (map json_GltfTexture (GlTF_Textures d))).

(** ** The geometry model *)

Record Vector4 := { R : spec_float; G : spec_float; B : spec_float; A : spec_float }.

Record Vector3 := { X : spec_float; Y : spec_float; Z_ : spec_float }.

Record Vector2 := { U : spec_float; V : spec_float }.

Record Vertex := {
  Color : Vector4;
  Position : Vector3;
  Normal : Vector3;
  UV : Vector2;
}.

(** [TriangleIndices [3]int32]. *)
Record Triangle := { TriangleIndices : Z * Z * Z }.

Definition TriangleIndices0 (t : Triangle) : Z := fst (fst (TriangleIndices t)).
Definition TriangleIndices1 (t : Triangle) : Z := snd (fst (TriangleIndices t)).
Definition TriangleIndices2 (t : Triangle) : Z := snd (TriangleIndices t).

Definition float3 : Type := spec_float * spec_float * spec_float.

Record Material := {
  AmbientColor : float3;
  DiffuseColor : float3;
  SpecularColor : float3;
  SpecularPower : spec_float;
  EmissiveColor : float3;
  Opacity : spec_float;
}.

Definition DiffuseColor0 (m : Material) : spec_float := fst (fst (DiffuseColor m)).
Definition DiffuseColor1 (m : Material) : spec_float := snd (fst (DiffuseColor m)).
Definition DiffuseColor2 (m : Material) : spec_float := snd (DiffuseColor m).

Record Geometry := {
  Vertices : list Vertex;
  Faces : list Triangle;
  Material_ : Material;
}.

Record Model := { Meshes : list Geometry }.

(** ** [image.RGBA]

    [image.NewRGBA(image.Rect(0, 0, w, h))]: [4 * w * h] zero bytes, four
    per pixel, rows of [Stride = 4 * w] bytes. *)

Record RGBA := {
  Pix : list Z;
  Stride : Z;
  Rect_Max : Z * Z;
}.

Definition NewRGBA (w h : Z) : RGBA :=
  {| Pix := repeat 0 (Z.to_nat (4 * w * h)); Stride := 4 * w; Rect_Max := (w, h) |}.

Definition In_Rect (img : RGBA) (x y : Z) : bool :=
  (0 <=? x) && (x <? fst (Rect_Max img)) && (0 <=? y) && (y <? snd (Rect_Max img)).

Definition PixOffset (img : RGBA) (x y : Z) : Z := y * Stride img + x * 4.

(** [color.RGBA{r, g, b, a}]. *)
Definition color_RGBA : Type := Z * Z * Z * Z.

(** [Set] of [image.RGBA]: nothing outside the rectangle; inside it the
    four bytes of the pixel are stored as they are (the color is already in
    the image's color model). *)
Definition RGBA_Set (img : RGBA) (x y : Z) (c : color_RGBA) : RGBA :=
  if In_Rect img x y then
    let i := Z.to_nat (PixOffset img x y) in
    let '(r, g, b, a) := c in
    {| Pix := <[S (S (S i)) := a]> (<[S (S i) := b]> (<[S i := g]> (<[i := r]> (Pix img))));
       Stride := Stride img;
       Rect_Max := Rect_Max img |}
  else img.


(** ** Field assignments (Go assigns one field of a struct value in place) *)

Definition set_AlphaMode (m : GltfMaterial) (v : any) : GltfMaterial :=
  {| GltfMaterial_AlphaCutoff := GltfMaterial_AlphaCutoff m;
     GltfMaterial_AlphaMode := v;
     GltfMaterial_DoubleSided := GltfMaterial_DoubleSided m;
     GltfMaterial_EmissiveFactor := GltfMaterial_EmissiveFactor m;
     GltfMaterial_EmissiveTexture := GltfMaterial_EmissiveTexture m;
     GltfMaterial_Extensions := GltfMaterial_Extensions m;
     GltfMaterial_Extras := GltfMaterial_Extras m;
     GltfMaterial_Name := GltfMaterial_Name m;
     GltfMaterial_NormalTexture := GltfMaterial_NormalTexture m;
     GltfMaterial_OcclusionTexture := GltfMaterial_OcclusionTexture m;
     GltfMaterial_PbrMetallicRoughness := GltfMaterial_PbrMetallicRoughness m |}.

Definition set_PbrMetallicRoughness (m : GltfMaterial) (p : MaterialPbrMetallicRoughness)
  : GltfMaterial :=
  {| GltfMaterial_AlphaCutoff := GltfMaterial_AlphaCutoff m;
     GltfMaterial_AlphaMode := GltfMaterial_AlphaMode m;
     GltfMaterial_DoubleSided := GltfMaterial_DoubleSided m;
     GltfMaterial_EmissiveFactor := GltfMaterial_EmissiveFactor m;
     GltfMaterial_EmissiveTexture := GltfMaterial_EmissiveTexture m;
     GltfMaterial_Extensions := GltfMaterial_Extensions m;
     GltfMaterial_Extras := GltfMaterial_Extras m;
     GltfMaterial_Name := GltfMaterial_Name m;
     GltfMaterial_NormalTexture := GltfMaterial_NormalTexture m;
     GltfMaterial_OcclusionTexture := GltfMaterial_OcclusionTexture m;
     GltfMaterial_PbrMetallicRoughness := p |}.

(** [m.PbrMetallicRoughness.BaseColorTexture = v] *)
Definition set_BaseColorTexture (m : GltfMaterial) (v : any) : GltfMaterial :=
  let p := GltfMaterial_PbrMetallicRoughness m in
  set_PbrMetallicRoughness m
    {| Pbr_BaseColorFactor := Pbr_BaseColorFactor p;
       Pbr_BaseColorTexture := v;
       Pbr_Extensions := Pbr_Extensions p;
       Pbr_Extras := Pbr_Extras p;
       Pbr_MetallicFactor := Pbr_MetallicFactor p;
       Pbr_MetallicRoughnessTexture := Pbr_MetallicRoughnessTexture p;
       Pbr_RoughnessFactor := Pbr_RoughnessFactor p |}.

(** [m.PbrMetallicRoughness.BaseColorFactor = v] *)
Definition set_BaseColorFactor (m : GltfMaterial) (v : list spec_float) : GltfMaterial :=
  let p := GltfMaterial_PbrMetallicRoughness m in
  set_PbrMetallicRoughness m
    {| Pbr_BaseColorFactor := v;
       Pbr_BaseColorTexture := Pbr_BaseColorTexture p;
       Pbr_Extensions := Pbr_Extensions p;
       Pbr_Extras := Pbr_Extras p;
       Pbr_MetallicFactor := Pbr_MetallicFactor p;
       Pbr_MetallicRoughnessTexture := Pbr_MetallicRoughnessTexture p;
       Pbr_RoughnessFactor := Pbr_RoughnessFactor p |}.

Definition set_URI (b : GltfBuffer) (uri : string) : GltfBuffer :=
  {| GltfBuffer_ByteLength := GltfBuffer_ByteLength b;
     GltfBuffer_Bytes := GltfBuffer_Bytes b;
     GltfBuffer_Extensions := GltfBuffer_Extensions b;
     GltfBuffer_Extras := GltfBuffer_Extras b;
     GltfBuffer_Name := GltfBuffer_Name b;
     GltfBuffer_URI := uri |}.

Definition set_Mesh_Name (m : Mesh) (name : string) : Mesh :=
  {| Mesh_Extensions := Mesh_Extensions m;
     Mesh_Extras := Mesh_Extras m;
     Mesh_Name := name;
     Mesh_Primitives := Mesh_Primitives m;
     Mesh_Weights := Mesh_Weights m |}.

Definition set_Node_Name (n : Node) (name : string) : Node :=
  {| Node_Camera := Node_Camera n;
     Node_Children := Node_Children n;
     Node_Extensions := Node_Extensions n;
     Node_Extras := Node_Extras n;
     Node_Matrix := Node_Matrix n;
     Node_Mesh := Node_Mesh n;
     Node_Name := name;
     Node_Rotation := Node_Rotation n;
     Node_Scale := Node_Scale n;
     Node_Skin := Node_Skin n;
     Node_Translation := Node_Translation n;
     Node_Weights := Node_Weights n |}.

Definition set_UV (v : Vertex) (uv : Vector2) : Vertex :=
  {| Color := Color v; Position := Position v; Normal := Normal v; UV := uv |}.

Definition set_Color (v : Vertex) (c : Vector4) : Vertex :=
  {| Color := c; Position := Position v; Normal := Normal v; UV := UV v |}.

Definition set_Buffers (d : GlTF) (bs : list GltfBuffer) : GlTF :=
  {| GlTF_Accessors := GlTF_Accessors d;
     GlTF_Asset := GlTF_Asset d;
     GlTF_Buffers := bs;
     GlTF_BufferViews := GlTF_BufferViews d;
     GlTF_Extensions := GlTF_Extensions d;
     GlTF_ExtensionsRequired := GlTF_ExtensionsRequired d;
     GlTF_ExtensionsUsed := GlTF_ExtensionsUsed d;
     GlTF_Images := GlTF_Images d;
     GlTF_Materials := GlTF_Materials d;
     GlTF_Meshes := GlTF_Meshes d;
     GlTF_Nodes := GlTF_Nodes d;
     GlTF_Scene := GlTF_Scene d;
     GlTF_Scenes := GlTF_Scenes d;
     GlTF_Textures := GlTF_Textures d |}.

Definition set_Meshes_Nodes (d : GlTF) (ms : list Mesh) (ns : list Node) : GlTF :=
  {| GlTF_Accessors := GlTF_Accessors d;
     GlTF_Asset := GlTF_Asset d;
     GlTF_Buffers := GlTF_Buffers d;
     GlTF_BufferViews := GlTF_BufferViews d;
     GlTF_Extensions := GlTF_Extensions d;
     GlTF_ExtensionsRequired := GlTF_ExtensionsRequired d;
     GlTF_ExtensionsUsed := GlTF_ExtensionsUsed d;
     GlTF_Images := GlTF_Images d;
     GlTF_Materials := GlTF_Materials d;
     GlTF_Meshes := ms;
     GlTF_Nodes := ns;
     GlTF_Scene := GlTF_Scene d;
     GlTF_Scenes := GlTF_Scenes d;
     GlTF_Textures := GlTF_Textures d |}.

(** ** The pipeline (part_001) *)

(** [mapRange]: left to right, [*] and [/] before [+]. *)
Definition mapRange (x inMin inMax outMin outMax : spec_float) : spec_float :=
  F64.add (F64.div (F64.mul (F64.sub x inMin) (F64.sub outMax outMin)) (F64.sub inMax inMin))
          outMin.

(** The call [mapRange(x, 0.0, 1.0, 0.04, 0.85)] of the consolidator. *)
Definition remap (x : spec_float) : spec_float :=
  mapRange x (S754_zero false) (F64.of_Z 1) (F64.of_ratio 4 100) (F64.of_ratio 85 100).

Definition putFloat32 (x : spec_float) : list Z := putUint32 (F32.bits x).

(** [float32(math.Max(float64(a), float64(b)))] and its [Min] twin. *)
Definition max32 (a b : spec_float) : spec_float :=
  float32_of_float64 (math_Max (float64_of_float32 a) (float64_of_float32 b)).

Definition min32 (a b : spec_float) : spec_float :=
  float32_of_float64 (math_Min (float64_of_float32 a) (float64_of_float32 b)).

Definition seed_high : spec_float := F32.of_Z (-100).
Definition seed_low : spec_float := F32.of_Z 100.

(** The loop body and the loop of [addVector2ArrayToBuffer]; the state is
    the buffer with the lowest and the highest components seen. *)
Definition addVector2_body (st : list Z * (Vector2 * Vector2)) (v : Vector2)
  : list Z * (Vector2 * Vector2) :=
  let '(outBuf, (lowest, highest)) := st in
  let outBuf := outBuf ++ putFloat32 (U v) ++ putFloat32 (V v) in
  let highest := {| U := max32 (U highest) (U v); V := max32 (V highest) (V v) |} in
  let lowest := {| U := min32 (U lowest) (U v); V := min32 (V lowest) (V v) |} in
  (outBuf, (lowest, highest)).

Definition addVector2ArrayToBuffer (outBuf : list Z) (data : list Vector2)
  : list Z * (Vector2 * Vector2) :=
  fold_left addVector2_body data
    (outBuf, ({| U := seed_low; V := seed_low |}, {| U := seed_high; V := seed_high |})).

Definition addVector3_body (st : list Z * (Vector3 * Vector3)) (v : Vector3)
  : list Z * (Vector3 * Vector3) :=
  let '(outBuf, (lowest, highest)) := st in
  let outBuf := outBuf ++ putFloat32 (X v) ++ putFloat32 (Y v) ++ putFloat32 (Z_ v) in
  let highest := {| X := max32 (X highest) (X v); Y := max32 (Y highest) (Y v);
                    Z_ := max32 (Z_ highest) (Z_ v) |} in
  let lowest := {| X := min32 (X lowest) (X v); Y := min32 (Y lowest) (Y v);
                   Z_ := min32 (Z_ lowest) (Z_ v) |} in
  (outBuf, (lowest, highest)).

Definition addVector3ArrayToBuffer (outBuf : list Z) (data : list Vector3)
  : list Z * (Vector3 * Vector3) :=
  fold_left addVector3_body data
    (outBuf, ({| X := seed_low; Y := seed_low; Z_ := seed_low |},
              {| X := seed_high; Y := seed_high; Z_ := seed_high |})).

Definition addVector4_body (st : list Z * (Vector4 * Vector4)) (v : Vector4)
  : list Z * (Vector4 * Vector4) :=
  let '(outBuf, (lowest, highest)) := st in
  let outBuf := outBuf ++ putFloat32 (R v) ++ putFloat32 (G v) ++ putFloat32 (B v)
                       ++ putFloat32 (A v) in
  let highest := {| R := max32 (R highest) (R v); G := max32 (G highest) (G v);
                    B := max32 (B highest) (B v); A := max32 (A highest) (A v) |} in
  let lowest := {| R := min32 (R lowest) (R v); G := min32 (G lowest) (G v);
                   B := min32 (B lowest) (B v); A := min32 (A lowest) (A v) |} in
  (outBuf, (lowest, highest)).

Definition addVector4ArrayToBuffer (outBuf : list Z) (data : list Vector4)
  : list Z * (Vector4 * Vector4) :=
  fold_left addVector4_body data
    (outBuf, ({| R := seed_low; G := seed_low; B := seed_low; A := seed_low |},
              {| R := seed_high; G := seed_high; B := seed_high; A := seed_high |})).

(** [areMaterialsEqual]: [None] is the run-time panic of an index out of
    range, when a base color factor has fewer than four components. *)
Definition areMaterialsEqual (a b : GltfMaterial) : option bool :=
  let pa := GltfMaterial_PbrMetallicRoughness a in
  let pb := GltfMaterial_PbrMetallicRoughness b in
  let fa := Pbr_BaseColorFactor pa in
  let fb := Pbr_BaseColorFactor pb in
  match fa !! 0%nat, fb !! 0%nat, fa !! 1%nat, fb !! 1%nat,
        fa !! 2%nat, fb !! 2%nat, fa !! 3%nat, fb !! 3%nat with
  | Some a0, Some b0, Some a1, Some b1, Some a2, Some b2, Some a3, Some b3 =>
      let sameR := F64.eqb a0 b0 in
      let sameG := F64.eqb a1 b1 in
      let sameB := F64.eqb a2 b2 in
      let sameA := F64.eqb a3 b3 in
      let sameMe := F64.eqb (Pbr_MetallicFactor pa) (Pbr_MetallicFactor pb) in
      let sameRo := F64.eqb (Pbr_RoughnessFactor pa) (Pbr_RoughnessFactor pb) in
      Some (sameR && sameG && sameB && sameA && sameMe && sameRo)
  | _, _, _, _, _, _, _, _ => None
  end.

(** The scan of [addMaterial] from index [i] on: [Some (Some j)] when the
    entry at [j] is the first equal one, [Some None] when there is none. *)
Fixpoint addMaterial_scan (material : GltfMaterial) (i : Z) (rest : list GltfMaterial)
  : option (option Z) :=
  match rest with
  | [] => Some None
  | m :: rest' =>
      match areMaterialsEqual m material with
      | None => None
      | Some true => Some (Some i)
      | Some false => addMaterial_scan material (i + 1) rest'
      end
  end.

Definition addMaterial (material : GltfMaterial) (gltfMaterials : list GltfMaterial)
  : option (Z * list GltfMaterial) :=
  match addMaterial_scan material 0 gltfMaterials with
  | None => None
  | Some (Some i) => Some (i, gltfMaterials)
  | Some None =>
      let newMaterials := gltfMaterials ++ [material] in
      Some (len newMaterials - 1, newMaterials)
  end.

Definition gltfMaterial (material : Material) : GltfMaterial :=
  let outMaterial :=
    {| GltfMaterial_AlphaCutoff := S754_zero false;
       GltfMaterial_AlphaMode := any_nil;
       GltfMaterial_DoubleSided := true;
       GltfMaterial_EmissiveFactor := [];
       GltfMaterial_EmissiveTexture := any_nil;
       GltfMaterial_Extensions := any_nil;
       GltfMaterial_Extras := any_nil;
       GltfMaterial_Name := any_nil;
       GltfMaterial_NormalTexture := any_nil;
       GltfMaterial_OcclusionTexture := any_nil;
       GltfMaterial_PbrMetallicRoughness :=
         {| Pbr_BaseColorFactor :=
              [ float64_of_float32 (DiffuseColor0 material);
                float64_of_float32 (DiffuseColor1 material);
                float64_of_float32 (DiffuseColor2 material);
                float64_of_float32 (Opacity material) ];
            Pbr_BaseColorTexture := any_nil;
            Pbr_Extensions := any_nil;
            Pbr_Extras := any_nil;
            Pbr_MetallicFactor := S754_zero false;
            Pbr_MetallicRoughnessTexture := any_nil;
            Pbr_RoughnessFactor :=
              F64.sub (F64.of_Z 1)
                      (F64.div (float64_of_float32 (SpecularPower material)) (F64.of_Z 128)) |}
    |} in
  if F32.ltb (Opacity material) (F32.of_Z 1)
  then set_AlphaMode outMaterial (any_string "BLEND")
  else outMaterial.

Definition getVertices (mesh : Geometry) : list Vector3 :=
  fold_left (fun results m => results ++ [Position m]) (Vertices mesh) [].

Definition getNormals (mesh : Geometry) : list Vector3 :=
  fold_left (fun results m => results ++ [Normal m]) (Vertices mesh) [].

Definition getUVCoords (mesh : Geometry) : list Vector2 :=
  fold_left (fun results m => results ++ [UV m]) (Vertices mesh) [].

Definition getVertexColors (mesh : Geometry) : list Vector4 :=
  fold_left (fun results m => results ++ [Color m]) (Vertices mesh) [].

(** The state the packer works on: the buffer [outBuf] and the two slices
    the accessor functions append to through their pointers. *)
Record Packer := {
  outBuf : list Z;
  gltfBufferViews : list BufferView;
  gltfAccessors : list Accessor;
}.

Section Pipeline.

(** What a conversion of a float to [uint8] or [uint32] gives when the
    integer type cannot represent the value (left to the implementation
    by the language). *)
Variable uint8_unrepresentable : spec_float -> Z.
Variable uint32_unrepresentable : spec_float -> Z.

(** The text [encoding/json] renders a value tree as: compact
    ([json.Marshal]) and indented by four spaces ([json.MarshalIndent]). *)
Variable json_text : json -> list Z.
Variable json_text_indent : json -> list Z.

(** [png.Encode] and [base64.StdEncoding.EncodeToString]. *)
Variable png_Encode : RGBA -> list Z.
Variable base64_EncodeToString : list Z -> string.

Definition uint8_of_float (x : spec_float) : Z :=
  match float_trunc x with
  | Some t => if (0 <=? t) && (t <=? 255) then t else uint8_unrepresentable x mod 2 ^ 8
  | None => uint8_unrepresentable x mod 2 ^ 8
  end.

Definition uint32_of_float (x : spec_float) : Z :=
  match float_trunc x with
  | Some t => if (0 <=? t) && (t <? 2 ^ 32) then t else uint32 (uint32_unrepresentable x)
  | None => uint32 (uint32_unrepresentable x)
  end.

(** [json.Marshal]: the error of an unsupported value is dropped by the
    callers, which go on with the nil slice. *)
Definition json_Marshal (d : GlTF) : list Z :=
  let j := json_GlTF d in
  if json_supported j then json_text j else [].

Definition json_MarshalIndent (d : GlTF) : list Z :=
  let j := json_GlTF d in
  if json_supported j then json_text_indent j else [].

(** [uint32(math.Max(float64(max), float64(i)))] and its [Min] twin. *)
Definition maxIndex (max i : Z) : Z :=
  uint32_of_float (math_Max (F64.of_Z max) (F64.of_Z i)).

Definition minIndex (min i : Z) : Z :=
  uint32_of_float (math_Min (F64.of_Z min) (F64.of_Z i)).

Definition addTriangle_body (st : list Z * (Z * Z)) (i : Triangle) : list Z * (Z * Z) :=
  let '(outBuf, (min, max)) := st in
  let outBuf := outBuf ++ putInt32 (TriangleIndices0 i) ++ putInt32 (TriangleIndices1 i)
                       ++ putInt32 (TriangleIndices2 i) in
  let max := maxIndex max (TriangleIndices0 i) in
  let max := maxIndex max (TriangleIndices1 i) in
  let max := maxIndex max (TriangleIndices2 i) in
  let min := minIndex min (TriangleIndices0 i) in
  let min := minIndex min (TriangleIndices1 i) in
  let min := minIndex min (TriangleIndices2 i) in
  (outBuf, (min, max)).

Definition addTriangleArrayToBuffer (outBuf : list Z) (indices : list Triangle)
  : list Z * (Z * Z) :=
  fold_left addTriangle_body indices (outBuf, (100, 0)).

Definition getAccessorIndexFromVector2 (st : Packer) (vectors : list Vector2) : Z * Packer :=
  let byteOffset := len (outBuf st) in
  let '(outBuf', (min, max)) := addVector2ArrayToBuffer (outBuf st) vectors in
  let byteLength := len outBuf' - byteOffset in
  let verticesBufferView :=
    {| BufferView_Buffer := 0;
       BufferView_ByteLength := byteLength;
       BufferView_ByteOffset := byteOffset;
       BufferView_ByteStride := 8;
       BufferView_Extensions := any_nil;
       BufferView_Extras := any_nil;
       BufferView_Name := any_nil;
       BufferView_Target := any_int 34962 |} in
  let gltfBufferViews' := gltfBufferViews st ++ [verticesBufferView] in
  let verticesAccessor :=
    {| Accessor_BufferView := len gltfBufferViews' - 1;
       Accessor_ByteOffset := 0;
       Accessor_ComponentType := any_int 5126;
       Accessor_Count := len vectors;
       Accessor_Type := any_string "VEC2";
       Accessor_Extensions := any_nil;
       Accessor_Extras := any_nil;
       Accessor_Max := [U max; V max];
       Accessor_Min := [U min; V min];
       Accessor_Name := any_nil;
       Accessor_Normalized := false;
       Accessor_Sparse := any_nil |} in
  let gltfAccessors' := gltfAccessors st ++ [verticesAccessor] in
  (len gltfAccessors' - 1,
   {| outBuf := outBuf'; gltfBufferViews := gltfBufferViews';
      gltfAccessors := gltfAccessors' |}).

Definition getAccessorIndexFromVector3 (st : Packer) (vectors : list Vector3) : Z * Packer :=
  let byteOffset := len (outBuf st) in
  let '(outBuf', (min, max)) := addVector3ArrayToBuffer (outBuf st) vectors in
  let byteLength := len outBuf' - byteOffset in
  let verticesBufferView :=
    {| BufferView_Buffer := 0;
       BufferView_ByteLength := byteLength;
       BufferView_ByteOffset := byteOffset;
       BufferView_ByteStride := 12;
       BufferView_Extensions := any_nil;
       BufferView_Extras := any_nil;
       BufferView_Name := any_nil;
       BufferView_Target := any_int 34962 |} in
  let gltfBufferViews' := gltfBufferViews st ++ [verticesBufferView] in
  let verticesAccessor :=
    {| Accessor_BufferView := len gltfBufferViews' - 1;
       Accessor_ByteOffset := 0;
       Accessor_ComponentType := any_int 5126;
       Accessor_Count := len vectors;
       Accessor_Type := any_string "VEC3";
       Accessor_Extensions := any_nil;
       Accessor_Extras := any_nil;
       Accessor_Max := [X max; Y max; Z_ max];
       Accessor_Min := [X min; Y min; Z_ min];
       Accessor_Name := any_nil;
       Accessor_Normalized := false;
       Accessor_Sparse := any_nil |} in
  let gltfAccessors' := gltfAccessors st ++ [verticesAccessor] in
  (len gltfAccessors' - 1,
   {| outBuf := outBuf'; gltfBufferViews := gltfBufferViews';
      gltfAccessors := gltfAccessors' |}).

Definition getAccessorIndexFromVector4 (st : Packer) (vectors : list Vector4) : Z * Packer :=
  let byteOffset := len (outBuf st) in
  let '(outBuf', (min, max)) := addVector4ArrayToBuffer (outBuf st) vectors in
  let byteLength := len outBuf' - byteOffset in
  let verticesBufferView :=
    {| BufferView_Buffer := 0;
       BufferView_ByteLength := byteLength;
       BufferView_ByteOffset := byteOffset;
       BufferView_ByteStride := 16;
       BufferView_Extensions := any_nil;
       BufferView_Extras := any_nil;
       BufferView_Name := any_nil;
       BufferView_Target := any_int 34962 |} in
  let gltfBufferViews' := gltfBufferViews st ++ [verticesBufferView] in
  let verticesAccessor :=
    {| Accessor_BufferView := len gltfBufferViews' - 1;
       Accessor_ByteOffset := 0;
       Accessor_ComponentType := any_int 5126;
       Accessor_Count := len vectors;
       Accessor_Type := any_string "VEC4";
       Accessor_Extensions := any_nil;
       Accessor_Extras := any_nil;
       Accessor_Max := [R max; G max; B max; A max];
       Accessor_Min := [R min; G min; B min; A min];
       Accessor_Name := any_nil;
       Accessor_Normalized := false;
       Accessor_Sparse := any_nil |} in
  let gltfAccessors' := gltfAccessors st ++ [verticesAccessor] in
  (len gltfAccessors' - 1,
   {| outBuf := outBuf'; gltfBufferViews := gltfBufferViews';
      gltfAccessors := gltfAccessors' |}).

Definition getAccessorIndexFromIndices (st : Packer) (indices : list Triangle) : Z * Packer :=
  let byteOffset := len (outBuf st) in
  let '(outBuf', (min, max)) := addTriangleArrayToBuffer (outBuf st) indices in
  let byteLength := len outBuf' - byteOffset in
  let indicesBufferView :=
    {| BufferView_Buffer := 0;
       BufferView_ByteLength := byteLength;
       BufferView_ByteOffset := byteOffset;
       BufferView_ByteStride := 0;
       BufferView_Extensions := any_nil;
       BufferView_Extras := any_nil;
       BufferView_Name := any_nil;
       BufferView_Target := any_int 34963 |} in
  let gltfBufferViews' := gltfBufferViews st ++ [indicesBufferView] in
  let indicesAccessor :=
    {| Accessor_BufferView := len gltfBufferViews' - 1;
       Accessor_ByteOffset := 0;
       Accessor_ComponentType := any_int 5125;
       Accessor_Count := len indices * 3;
       Accessor_Type := any_string "SCALAR";
       Accessor_Extensions := any_nil;
       Accessor_Extras := any_nil;
       Accessor_Max := [F32.of_Z max];
       Accessor_Min := [F32.of_Z min];
       Accessor_Name := any_nil;
       Accessor_Normalized := false;
       Accessor_Sparse := any_nil |} in
  let gltfAccessors' := gltfAccessors st ++ [indicesAccessor] in
  (len gltfAccessors' - 1,
   {| outBuf := outBuf'; gltfBufferViews := gltfBufferViews';
      gltfAccessors := gltfAccessors' |}).

(** *** The mesh consolidator *)

(** The faces of one mesh appended with their indices moved by
    [vertexOffset] ([int32] addition). *)
Definition appendFaces (vertexOffset : Z) (finalFaces faces : list Triangle) : list Triangle :=
  fold_left
    (fun finalFaces triangle =>
       let f := {| TriangleIndices :=
                     (int32 (TriangleIndices0 triangle + vertexOffset),
                      int32 (TriangleIndices1 triangle + vertexOffset),
                      int32 (TriangleIndices2 triangle + vertexOffset)) |} in
       finalFaces ++ [f])
    faces finalFaces.

(** The pixel of a mesh in the atlas: [color.RGBA{r, g, b, a}]. *)
Definition atlasColor (mesh : Geometry) : color_RGBA :=
  let dR := remap (float64_of_float32 (DiffuseColor0 (Material_ mesh))) in
  let dG := remap (float64_of_float32 (DiffuseColor1 (Material_ mesh))) in
  let dB := remap (float64_of_float32 (DiffuseColor2 (Material_ mesh))) in
  let r := uint8_of_float (F64.mul dR (F64.of_Z 255)) in
  let g := uint8_of_float (F64.mul dG (F64.of_Z 255)) in
  let b := uint8_of_float (F64.mul dB (F64.of_Z 255)) in
  let a := uint8_of_float (F32.mul (Opacity (Material_ mesh)) (F32.of_Z 255)) in
  (r, g, b, a).

(** [(float32(x) / 32.0) + (0.5 / 32.0)] *)
Definition atlasCoord (x : Z) : spec_float :=
  F32.add (F32.div (F32.of_Z x) (F32.of_Z 32)) (F32.of_ratio 1 64).

(** One round of the loop of the texture atlas case, for the mesh of
    index [i]. *)
Definition atlas_body (i : Z) (mesh : Geometry)
    (st : RGBA * list Vertex * list Triangle) : RGBA * list Vertex * list Triangle :=
  let '(img, finalVertices, finalFaces) := st in
  let vertexOffset := int32 (len finalVertices) in
  let x := Z.rem i 32 in
  let y := Z.quot i 32 in
  let img := RGBA_Set img x y (atlasColor mesh) in
  let finalVertices' :=
    fold_left
      (fun finalVertices vertex =>
         finalVertices ++ [set_UV vertex {| U := atlasCoord x; V := atlasCoord y |}])
      (Vertices mesh) finalVertices in
  (img, finalVertices', appendFaces vertexOffset finalFaces (Faces mesh)).

Fixpoint atlas_loop (i : Z) (meshes : list Geometry)
    (st : RGBA * list Vertex * list Triangle) : RGBA * list Vertex * list Triangle :=
  match meshes with
  | [] => st
  | mesh :: rest => atlas_loop (i + 1) rest (atlas_body i mesh st)
  end.

Definition remapColor (c : Vector4) : Vector4 :=
  {| R := float32_of_float64 (remap (float64_of_float32 (R c)));
     G := float32_of_float64 (remap (float64_of_float32 (G c)));
     B := float32_of_float64 (remap (float64_of_float32 (B c)));
     A := A c |}.

(** One round of the loop of the vertex color case. *)
Definition vertexColor_body (st : list Vertex * list Triangle) (mesh : Geometry)
  : list Vertex * list Triangle :=
  let '(finalVertices, finalFaces) := st in
  let vertexOffset := int32 (len finalVertices) in
  let finalVertices' :=
    fold_left
      (fun finalVertices vertex =>
         finalVertices ++ [set_Color vertex (remapColor (Color vertex))])
      (Vertices mesh) finalVertices in
  (finalVertices', appendFaces vertexOffset finalFaces (Faces mesh)).

Definition one3 : float3 := (F32.of_Z 1, F32.of_Z 1, F32.of_Z 1).

Definition optimizeModel (vertexColors : bool) (meshes : Model) : Model * list Z :=
  let '(finalVertices, finalFaces, imageData) :=
    if negb vertexColors then
      let '(img, finalVertices, finalFaces) :=
        atlas_loop 0 (Meshes meshes) (NewRGBA 32 32, [], []) in
      (finalVertices, finalFaces, png_Encode img)
    else
      let '(finalVertices, finalFaces) :=
        fold_left vertexColor_body (Meshes meshes) ([], []) in
      (finalVertices, finalFaces, [])
  in
  ({| Meshes :=
        [ {| Vertices := finalVertices;
             Faces := finalFaces;
             Material_ :=
               {| AmbientColor := one3;
                  DiffuseColor := one3;
                  SpecularColor := one3;
                  SpecularPower := F32.of_Z 128;
                  EmissiveColor := one3;
                  Opacity := F32.of_Z 1 |} |} ] |},
   imageData).

(** *** The document assembler *)

Definition Loop : Type :=
  Packer * list GltfMaterial * list meshInfoAssociation * list string.

(** One round of the first loop of [ToGltfDoc]; the last component of
    the state is what the round printed. *)
Definition ToGltfDoc_body (vertexColors : bool) (st : Loop) (mesh : Geometry) : option Loop :=
  let '(pk, gltfMaterials, associations, stdout) := st in
  let thisMaterial := gltfMaterial (Material_ mesh) in
  let '(meshIndicesAccessorIndex, pk) := getAccessorIndexFromIndices pk (Faces mesh) in
  let '(meshVertexAccessorIndex, pk) := getAccessorIndexFromVector3 pk (getVertices mesh) in
  let '(meshNormalAccessorIndex, pk) := getAccessorIndexFromVector3 pk (getNormals mesh) in
  let '(uvAccessorIndex, vertexColorAccessorIndex, pk, thisMaterial) :=
    if negb vertexColors then
      let '(uvAccessorIndex, pk) := getAccessorIndexFromVector2 pk (getUVCoords mesh) in
      let baseColorTexture : gmap string Z := <["index" := 0]> ∅ in
      (uvAccessorIndex, -1, pk, set_BaseColorTexture thisMaterial (any_map baseColorTexture))
    else
      let '(vertexColorAccessorIndex, pk) :=
        getAccessorIndexFromVector4 pk (getVertexColors mesh) in
      (-1, vertexColorAccessorIndex, pk, set_BaseColorTexture thisMaterial any_nil)
  in
  let thisMaterial :=
    set_BaseColorFactor thisMaterial [F64.of_Z 1; F64.of_Z 1; F64.of_Z 1; F64.of_Z 1] in
  match addMaterial thisMaterial gltfMaterials with
  | None => None
  | Some (materialIndex, newGltfMaterials) =>
      let accessorAssociation :=
        {| MeshIndicesAccessorIndex := meshIndicesAccessorIndex;
           MeshVerticesAccessorIndex := meshVertexAccessorIndex;
           MeshNormalsAccessorIndex := meshNormalAccessorIndex;
           MeshMaterialIndex := materialIndex;
           MeshUVAccessorIndex := if negb vertexColors then uvAccessorIndex else 0;
           MeshVertexColorAccessorIndex :=
             if negb vertexColors then 0 else vertexColorAccessorIndex |} in
      let stdout :=
        if negb (Z.rem (len (outBuf pk)) 4 =? 0)
        then stdout ++ [" this should't happen. "%string]
        else stdout in
      Some (pk, newGltfMaterials, associations ++ [accessorAssociation], stdout)
  end.

Fixpoint ToGltfDoc_loop (vertexColors : bool) (meshes : list Geometry) (st : Loop)
  : option Loop :=
  match meshes with
  | [] => Some st
  | mesh :: rest =>
      match ToGltfDoc_body vertexColors st mesh with
      | None => None
      | Some st' => ToGltfDoc_loop vertexColors rest st'
      end
  end.

(** One round of the second loop of [ToGltfDoc]. *)
Definition meshPrimitive_of (vertexColors : bool) (assoc : meshInfoAssociation)
  : MeshPrimitive :=
  let meshPrimitiveAttributes : gmap string Z :=
    <["NORMAL" := MeshNormalsAccessorIndex assoc]>
      (<["POSITION" := MeshVerticesAccessorIndex assoc]> ∅) in
  let meshPrimitiveAttributes :=
    if negb vertexColors
    then <["TEXCOORD_0" := MeshUVAccessorIndex assoc]> meshPrimitiveAttributes
    else <["COLOR_0" := MeshVertexColorAccessorIndex assoc]> meshPrimitiveAttributes in
  {| MeshPrimitive_Attributes := meshPrimitiveAttributes;
     MeshPrimitive_Indices := MeshIndicesAccessorIndex assoc;
     MeshPrimitive_Material := MeshMaterialIndex assoc;
     MeshPrimitive_Mode := 0 |}.

Definition Loop0 : Loop :=
  ({| outBuf := []; gltfBufferViews := []; gltfAccessors := [] |}, [], [], []).

(** [ToGltfDoc] with what it printed; [None] is a run-time panic. *)
Definition ToGltfDoc_run (vertexColors : bool) (model : Model) (atlas : list Z)
  : option (GlTF * list string) :=
  match ToGltfDoc_loop vertexColors (Meshes model) Loop0 with
  | None => None
  | Some (pk, gltfMaterials, associations, stdout) =>
      let meshPrimitives :=
        fold_left (fun meshPrimitives assoc =>
                     meshPrimitives ++ [meshPrimitive_of vertexColors assoc])
                  associations [] in
      let gltfMeshes :=
        [ {| Mesh_Extensions := any_nil; Mesh_Extras := any_nil; Mesh_Name := "";
             Mesh_Primitives := meshPrimitives; Mesh_Weights := [] |} ] in
      let gltfNodes :=
        [ {| Node_Camera := any_nil; Node_Children := []; Node_Extensions := any_nil;
             Node_Extras := any_nil; Node_Matrix := [];
             Node_Mesh := any_int (len gltfMeshes - 1);
             Node_Name := ""; Node_Rotation := []; Node_Scale := []; Node_Skin := any_nil;
             Node_Translation := []; Node_Weights := [] |} ] in
      let nodeList := [len gltfNodes - 1] in
      let scene :=
        {| Scene_Extensions := any_nil; Scene_Extras := any_nil; Scene_Name := any_nil;
           Scene_Nodes := nodeList |} in
      let gltfScenes := [scene] in
      let rootSceneIndex := len gltfScenes - 1 in
      let gltfBuffer :=
        {| GltfBuffer_ByteLength := len (outBuf pk);
           GltfBuffer_Bytes := outBuf pk;
           GltfBuffer_Extensions := any_nil;
           GltfBuffer_Extras := any_nil;
           GltfBuffer_Name := any_nil;
           GltfBuffer_URI := "" |} in
      let gltfDoc :=
        {| GlTF_Accessors := gltfAccessors pk;
           GlTF_Asset :=
             any_Asset
               {| Asset_Copyright := ""; Asset_Extensions := any_nil;
                  Asset_Extras := any_nil;
                  Asset_Generator := "gltf-go, https://github.com/naikrovek/gltf-go/";
                  Asset_MinVersion := ""; Asset_Version := "2.0" |};
           GlTF_Buffers := [gltfBuffer];
           GlTF_BufferViews := gltfBufferViews pk;
           GlTF_Extensions := any_nil;
           GlTF_ExtensionsRequired := [];
           GlTF_ExtensionsUsed := [];
           GlTF_Images :=
             if negb vertexColors
             then [ {| GltfImage_URI :=
                         String.append "data:image/png;base64,"
                                       (base64_EncodeToString atlas) |} ]
             else [];
           GlTF_Materials := gltfMaterials;
           GlTF_Meshes := gltfMeshes;
           GlTF_Nodes := gltfNodes;
           GlTF_Scene := rootSceneIndex;
           GlTF_Scenes := gltfScenes;
           GlTF_Textures :=
             if negb vertexColors then [ {| GltfTexture_Source := any_int 0 |} ] else [] |}
      in
      Some (gltfDoc, stdout)
  end.

Definition ToGltfDoc (vertexColors : bool) (model : Model) (atlas : list Z) : option GlTF :=
  fst <$> ToGltfDoc_run vertexColors model atlas.

(** *** The container serializers *)

(** The ASCII chunk type of the binary chunk, ["BIN\x00"]. *)
Definition BIN0 : list Z := bytes_of_string "BIN" ++ [0].

(** [(4 - (size & 3)) & 3] on [uint32]. *)
Definition paddingNeeded (size : Z) : Z := Z.land (uint32 (4 - Z.land size 3)) 3.

(** The sizes [SerializeBinaryGlTF] computes, all [uint32], before it
    writes anything. *)
Record glbSizes := {
  outJSONSize : Z;
  outJSONPaddingNeeded : Z;
  outBufSize : Z;
  outBufNullsNeeded : Z;
  glbSize : Z;
}.

Definition glbSizes_of (outJSON outBuf : list Z) : glbSizes :=
  let outJSONSize := uint32 (len outJSON) in
  let outJSONPaddingNeeded := paddingNeeded outJSONSize in
  let outJSONSize := uint32 (outJSONSize + outJSONPaddingNeeded) in
  let outBufSize := uint32 (len outBuf) in
  let outBufNullsNeeded := paddingNeeded outBufSize in
  let outBufSize := uint32 (outBufSize + outBufNullsNeeded) in
  let glbSize := 0 in
  let glbSize := uint32 (glbSize + 4) in
  let glbSize := uint32 (glbSize + 4) in
  let glbSize := uint32 (glbSize + 4) in
  let glbSize := uint32 (glbSize + 4) in
  let glbSize := uint32 (glbSize + 4) in
  let glbSize := uint32 (glbSize + outJSONSize) in
  let glbSize := uint32 (glbSize + 4) in
  let glbSize := uint32 (glbSize + 4) in
  let glbSize := uint32 (glbSize + outBufSize) in
  {| outJSONSize := outJSONSize;
     outJSONPaddingNeeded := outJSONPaddingNeeded;
     outBufSize := outBufSize;
     outBufNullsNeeded := outBufNullsNeeded;
     glbSize := glbSize |}.

(** What [SerializeBinaryGlTF] writes, in order. *)
Definition glbBytes (sz : glbSizes) (outJSON outBuf : list Z) : list Z :=
  bytes_of_string "glTF"
    ++ putUint32 2
    ++ putUint32 (glbSize sz)
    ++ putUint32 (outJSONSize sz)
    ++ bytes_of_string "JSON"
    ++ outJSON
    ++ spaces (outJSONPaddingNeeded sz)
    ++ putUint32 (outBufSize sz)
    ++ BIN0
    ++ outBuf
    ++ nulls (outBufNullsNeeded sz).

(** [SerializeBinaryGlTF]; [None] is the panic of [Buffers[0]] on a
    document without a buffer. *)
Definition SerializeBinaryGlTF (gltfDoc : GlTF) : option (list Z) :=
  match GlTF_Buffers gltfDoc !! 0%nat with
  | None => None
  | Some buffer0 =>
      let outBuf := GltfBuffer_Bytes buffer0 in
      let outJSON := json_Marshal gltfDoc in
      Some (glbBytes (glbSizes_of outJSON outBuf) outJSON outBuf)
  end.

(** The document [SerializeEmbeddedGlTF] renders: the first buffer gets the
    data URI of its bytes; [None] is the panic of [Buffers[0]]. *)
Definition withDataURI (gltfDoc : GlTF) : option GlTF :=
  match GlTF_Buffers gltfDoc with
  | [] => None
  | buffer0 :: buffers =>
      let uri := String.append "data:application/gltf-buffer;base64,"
                               (base64_EncodeToString (GltfBuffer_Bytes buffer0)) in
      Some (set_Buffers gltfDoc (set_URI buffer0 uri :: buffers))
  end.

(** [SerializeEmbeddedGlTF]: a failure to render is only printed. *)
Definition SerializeEmbeddedGlTF (gltfDoc : GlTF) : option (list Z) :=
  json_MarshalIndent <$> withDataURI gltfDoc.

(** The document [writeGltf] serializes: that of [ToGltfDoc] with the
    file name as the name of its first mesh and of its first node. *)
Definition namedDoc (gltfDoc : GlTF) (filename : string) : option GlTF :=
  match GlTF_Meshes gltfDoc, GlTF_Nodes gltfDoc with
  | m :: ms, n :: ns =>
      Some (set_Meshes_Nodes gltfDoc (set_Mesh_Name m filename :: ms)
                             (set_Node_Name n filename :: ns))
  | _, _ => None
  end.

(** [writeGltf] up to the file system: the name and the contents of the
    file it writes. *)
Definition writeGltf (vertexColors : bool) (model : Model) (atlas : list Z)
    (filename : string) (embeddedGltf : bool) : option (string * list Z) :=
  gltfDoc ← ToGltfDoc vertexColors model atlas;
  gltfDoc ← namedDoc gltfDoc filename;
  if embeddedGltf then
    gltfFileContents ← SerializeEmbeddedGlTF gltfDoc;
    Some (String.append filename ".gltf", gltfFileContents)
  else
    gltfFileContents ← SerializeBinaryGlTF gltfDoc;
    Some (String.append filename ".glb", gltfFileContents).

End Pipeline.

(** ** Vocabulary of the statements *)

(** The bytes one element of each kind is packed as. *)
Definition bytesOfVector2 (v : Vector2) : list Z := putFloat32 (U v) ++ putFloat32 (V v).

Definition bytesOfVector3 (v : Vector3) : list Z :=
  putFloat32 (X v) ++ putFloat32 (Y v) ++ putFloat32 (Z_ v).

Definition bytesOfVector4 (v : Vector4) : list Z :=
  putFloat32 (R v) ++ putFloat32 (G v) ++ putFloat32 (B v) ++ putFloat32 (A v).

Definition bytesOfTriangle (t : Triangle) : list Z :=
  putInt32 (TriangleIndices0 t) ++ putInt32 (TriangleIndices1 t)
    ++ putInt32 (TriangleIndices2 t).

(** One append of the packer, from [st] to [st'] with the result
    [accessorIndex]: [written] went to the end of the buffer, one buffer
    view describing that region was added, and one accessor referring to
    that view; [accessorIndex] is the index of the accessor. *)
Definition appends_one (st st' : Packer) (accessorIndex : Z) (written : list Z)
    (stride componentType count : Z) (type : string) : Prop :=
  exists bv acc,
    outBuf st' = outBuf st ++ written /\
    gltfBufferViews st' = gltfBufferViews st ++ [bv] /\
    gltfAccessors st' = gltfAccessors st ++ [acc] /\
    BufferView_Buffer bv = 0 /\
    BufferView_ByteOffset bv = len (outBuf st) /\
    BufferView_ByteLength bv = len written /\
    BufferView_ByteStride bv = stride /\
    Accessor_BufferView acc = len (gltfBufferViews st) /\
    gltfBufferViews st' !! Z.to_nat (Accessor_BufferView acc) = Some bv /\
    Accessor_ByteOffset acc = 0 /\
    Accessor_ComponentType acc = any_int componentType /\
    Accessor_Count acc = count /\
    Accessor_Type acc = any_string type /\
    accessorIndex = len (gltfAccessors st) /\
    gltfAccessors st' !! Z.to_nat accessorIndex = Some acc.

(** [ones4]: the base color factor the assembler gives every material. *)
Definition ones4 : list spec_float := [F64.of_Z 1; F64.of_Z 1; F64.of_Z 1; F64.of_Z 1].

(** The material of a mesh as the assembler hands it to [addMaterial]. *)
Definition assembledMaterial (vertexColors : bool) (mesh : Geometry) : GltfMaterial :=
  set_BaseColorFactor
    (set_BaseColorTexture (gltfMaterial (Material_ mesh))
       (if negb vertexColors then any_map (<["index" := 0]> ∅) else any_nil))
    ones4.

(** The packer after the four streams of one mesh. *)
Definition packMesh (u32 : spec_float -> Z) (vertexColors : bool) (pk : Packer)
    (mesh : Geometry) : Packer :=
  let pk1 := snd (getAccessorIndexFromIndices u32 pk (Faces mesh)) in
  let pk2 := snd (getAccessorIndexFromVector3 pk1 (getVertices mesh)) in
  let pk3 := snd (getAccessorIndexFromVector3 pk2 (getNormals mesh)) in
  if negb vertexColors
  then snd (getAccessorIndexFromVector2 pk3 (getUVCoords mesh))
  else snd (getAccessorIndexFromVector4 pk3 (getVertexColors mesh)).

(** The association the assembler records for a mesh packed from [pk]. *)
Definition associationOf (u32 : spec_float -> Z) (vertexColors : bool) (pk : Packer)
    (mesh : Geometry) (materialIndex : Z) : meshInfoAssociation :=
  let r1 := getAccessorIndexFromIndices u32 pk (Faces mesh) in
  let r2 := getAccessorIndexFromVector3 (snd r1) (getVertices mesh) in
  let r3 := getAccessorIndexFromVector3 (snd r2) (getNormals mesh) in
  {| MeshIndicesAccessorIndex := fst r1;
     MeshVerticesAccessorIndex := fst r2;
     MeshNormalsAccessorIndex := fst r3;
     MeshMaterialIndex := materialIndex;
     MeshUVAccessorIndex :=
       if negb vertexColors
       then fst (getAccessorIndexFromVector2 (snd r3) (getUVCoords mesh)) else 0;
     MeshVertexColorAccessorIndex :=
       if negb vertexColors
       then 0 else fst (getAccessorIndexFromVector4 (snd r3) (getVertexColors mesh)) |}.

(** The buffer ends on a multiple of 4 and every buffer view starts on
    one. *)
Definition aligned4 (pk : Packer) : Prop :=
  len (outBuf pk) mod 4 = 0 /\
  Forall (fun bv => BufferView_ByteOffset bv mod 4 = 0) (gltfBufferViews pk).

(** [binary.LittleEndian.Uint32] of the four bytes at [off]. *)
Definition uint32At (data : list Z) (off : Z) : Z :=
  let byteAt := fun k : Z => default 0 (data !! Z.to_nat (off + k)) in
  byteAt 0 + byteAt 1 * 2 ^ 8 + byteAt 2 * 2 ^ 16 + byteAt 3 * 2 ^ 24.

Definition pbr (m : GltfMaterial) : MaterialPbrMetallicRoughness :=
  GltfMaterial_PbrMetallicRoughness m.

(** A base color factor of four components at least: the equality test
    does not panic. *)
Definition fourFactors (m : GltfMaterial) : Prop :=
  (4 <= length (Pbr_BaseColorFactor (pbr m)))%nat.

Definition loop_aligned (st : Loop) : Prop :=
  let '(pk, mats, assocs, out) := st in
  aligned4 pk /\ Forall fourFactors mats /\ out = [].

(** The JSON chunk and the binary chunk of the container of a document:
    the payload with the least padding (spaces, null bytes) that makes its
    length a multiple of 4. *)
Definition paddedJSON (outJSON : list Z) : list Z :=
  outJSON ++ spaces ((- len outJSON) mod 4).

Definition paddedBIN (outBuf : list Z) : list Z :=
  outBuf ++ nulls ((- len outBuf) mod 4).

(** A document with a buffer of three bytes and nothing else. *)
Definition smallDoc : GlTF :=
  {| GlTF_Accessors := [];
     GlTF_Asset := any_nil;
     GlTF_Buffers :=
       [ {| GltfBuffer_ByteLength := 3; GltfBuffer_Bytes := [1; 2; 3];
            GltfBuffer_Extensions := any_nil; GltfBuffer_Extras := any_nil;
            GltfBuffer_Name := any_nil; GltfBuffer_URI := "" |} ];
     GlTF_BufferViews := [];
     GlTF_Extensions := any_nil;
     GlTF_ExtensionsRequired := [];
     GlTF_ExtensionsUsed := [];
     GlTF_Images := [];
     GlTF_Materials := [];
     GlTF_Meshes := [];
     GlTF_Nodes := [];
     GlTF_Scene := 0;
     GlTF_Scenes := [];
     GlTF_Textures := [] |}.

(** A material of zeros, but for the given specular power and opacity. *)
Definition plainMaterial (specularPower opacity : spec_float) : Material :=
  let z := S754_zero false in
  {| AmbientColor := (z, z, z); DiffuseColor := (z, z, z); SpecularColor := (z, z, z);
     SpecularPower := specularPower; EmissiveColor := (z, z, z); Opacity := opacity |}.

(** A mesh without vertices whose 357913942 faces take [2 ^ 32 + 8] bytes
    of index data. *)
Definition hugeFaces : Geometry :=
  {| Vertices := [];
     Faces := repeat {| TriangleIndices := (0, 0, 0) |} (Z.to_nat 357913942);
     Material_ := plainMaterial (S754_zero false) (F32.of_Z 1) |}.

(** The value of the first field of key [k] of a JSON object. *)
Definition json_field (k : string) (j : json) : option json :=
  match j with
  | JObject fields => snd <$> List.find (fun e => String.eqb (fst e) k) fields
  | _ => None
  end.

(** A triangle with its indices moved by [vertexOffset] in [int32]. *)
Definition shiftTriangle (vertexOffset : Z) (t : Triangle) : Triangle :=
  {| TriangleIndices :=
       (int32 (TriangleIndices0 t + vertexOffset),
        int32 (TriangleIndices1 t + vertexOffset),
        int32 (TriangleIndices2 t + vertexOffset)) |}.

(** The faces of the consolidated mesh when [count] vertices precede the
    first mesh: each mesh contributes its faces, moved by the running
    vertex count as an [int32]. *)
Fixpoint consolidatedFaces (count : Z) (meshes : list Geometry) : list Triangle :=
  match meshes with
  | [] => []
  | mesh :: rest =>
      map (shiftTriangle (int32 count)) (Faces mesh)
        ++ consolidatedFaces (count + len (Vertices mesh)) rest
  end.

(** The same with the running vertex count added in the integers. *)
Definition addToTriangle (count : Z) (t : Triangle) : Triangle :=
  {| TriangleIndices :=
       (TriangleIndices0 t + count, TriangleIndices1 t + count, TriangleIndices2 t + count) |}.

Fixpoint exactFaces (count : Z) (meshes : list Geometry) : list Triangle :=
  match meshes with
  | [] => []
  | mesh :: rest =>
      map (addToTriangle count) (Faces mesh) ++ exactFaces (count + len (Vertices mesh)) rest
  end.

Definition in_int32 (z : Z) : Prop := - 2 ^ 31 <= z < 2 ^ 31.

(** No index of a face leaves [int32] when the running vertex count is
    added to it. *)
Fixpoint noOverflow (count : Z) (meshes : list Geometry) : Prop :=
  match meshes with
  | [] => True
  | mesh :: rest =>
      in_int32 count /\
      Forall (fun t => in_int32 (TriangleIndices0 t + count) /\
                       in_int32 (TriangleIndices1 t + count) /\
                       in_int32 (TriangleIndices2 t + count)) (Faces mesh) /\
      noOverflow (count + len (Vertices mesh)) rest
  end.

Definition totalVertices (meshes : list Geometry) : Z :=
  fold_right (fun mesh n => len (Vertices mesh) + n) 0 meshes.

Definition totalFaces (meshes : list Geometry) : Z :=
  fold_right (fun mesh n => len (Faces mesh) + n) 0 meshes.

(** The texture coordinates of the center of the pixel of the mesh of
    index [i]. *)
Definition atlasUV (i : Z) : Vector2 :=
  {| U := atlasCoord (Z.rem i 32); V := atlasCoord (Z.quot i 32) |}.

(** The vertices of the consolidated mesh in the texture atlas case, from
    the mesh of index [i] on, and in the vertex color case. *)
Fixpoint atlasVertices (i : Z) (meshes : list Geometry) : list Vertex :=
  match meshes with
  | [] => []
  | mesh :: rest =>
      map (fun vertex => set_UV vertex (atlasUV i)) (Vertices mesh)
        ++ atlasVertices (i + 1) rest
  end.

Definition remappedVertices (meshes : list Geometry) : list Vertex :=
  flat_map (fun mesh => map (fun vertex => set_Color vertex (remapColor (Color vertex)))
                            (Vertices mesh)) meshes.

(** The atlas after the pixels of the meshes from index [i] on. *)
Fixpoint atlasImage (u8 : spec_float -> Z) (i : Z) (meshes : list Geometry) (img : RGBA)
  : RGBA :=
  match meshes with
  | [] => img
  | mesh :: rest =>
      atlasImage u8 (i + 1) rest (RGBA_Set img (Z.rem i 32) (Z.quot i 32) (atlasColor u8 mesh))
  end.

(** The material [optimizeModel] gives the consolidated mesh. *)
Definition flatMaterial : Material :=
  {| AmbientColor := one3; DiffuseColor := one3; SpecularColor := one3;
     SpecularPower := F32.of_Z 128; EmissiveColor := one3; Opacity := F32.of_Z 1 |}.

(** A mesh of [2 ^ 31] vertices without faces, and a mesh of one vertex
    with the face (0, 0, 0). *)
Definition zeroVertex : Vertex :=
  let z := S754_zero false in
  {| Color := {| R := z; G := z; B := z; A := z |};
     Position := {| X := z; Y := z; Z_ := z |};
     Normal := {| X := z; Y := z; Z_ := z |};
     UV := {| U := z; V := z |} |}.

Definition hugeVertices : Geometry :=
  {| Vertices := repeat zeroVertex (Z.to_nat 2147483648);
     Faces := [];
     Material_ := plainMaterial (S754_zero false) (F32.of_Z 1) |}.

Definition oneTriangle : Geometry :=
  {| Vertices := [zeroVertex];
     Faces := [ {| TriangleIndices := (0, 0, 0) |} ];
     Material_ := plainMaterial (S754_zero false) (F32.of_Z 1) |}.

(** Every index of every face of the mesh is an index into its vertices. *)
Definition inRange (mesh : Geometry) : Prop :=
  Forall (fun t => 0 <= TriangleIndices0 t < len (Vertices mesh) /\
                   0 <= TriangleIndices1 t < len (Vertices mesh) /\
                   0 <= TriangleIndices2 t < len (Vertices mesh)) (Faces mesh).

(** The triangle of the example program, and a second mesh of one vertex
    and one face. *)
Definition exampleMesh : Geometry :=
  {| Vertices := [zeroVertex; zeroVertex; zeroVertex];
     Faces := [ {| TriangleIndices := (0, 1, 2) |} ];
     Material_ := plainMaterial (S754_zero false) (F32.of_Z 1) |}.

(** The atlas of the consolidator: 32 by 32 pixels of four bytes. *)
Definition atlas32 (img : RGBA) : Prop :=
  Stride img = 128 /\ Rect_Max img = (32, 32) /\ length (Pix img) = 4096%nat.

Definition is_byte (z : Z) : Prop := 0 <= z < 256.


(** No object of the JSON value has the key "baseColorFactor". *)
Definition nokey (j : json) : Prop := ~ In "baseColorFactor"%string (json_keys j).

Definition nokey_fields (fields : list (string * json)) : Prop := nokey (JObject fields).

(** The accessors and buffer views of the packer have no such key in
    their JSON. *)
Definition nokey_Packer (pk : Packer) : Prop :=
  Forall (fun a => nokey (json_Accessor a)) (gltfAccessors pk) /\
  Forall (fun b => nokey (json_BufferView b)) (gltfBufferViews pk).

(** The state of the first loop of the assembler holds materials the
    assembler made, and the packer has no such key. *)
Definition loop_assembled (vertexColors : bool) (st : Loop) : Prop :=
  let '(pk, mats, assocs, out) := st in
  nokey_Packer pk /\
  Forall (fun m => exists mesh, m = assembledMaterial vertexColors mesh) mats.

Definition is_zero (x : spec_float) : bool :=
  match x with S754_zero _ => true | _ => false end.

(** The roughness factor the assembler derives from a specular power. *)
Definition roughnessOf (specularPower : spec_float) : spec_float :=
  F64.sub (F64.of_Z 1) (F64.div (float64_of_float32 specularPower) (F64.of_Z 128)).

Definition roughness (m : GltfMaterial) : spec_float := Pbr_RoughnessFactor (pbr m).

(** The assembler's materials: base color factor (1, 1, 1, 1) and
    metallic factor 0. *)
Definition uniform (m : GltfMaterial) : Prop :=
  Pbr_BaseColorFactor (pbr m) = ones4 /\ Pbr_MetallicFactor (pbr m) = S754_zero false.

Definition meshRoughness (mesh : Geometry) : spec_float :=
  roughnessOf (SpecularPower (Material_ mesh)).

(** The state of the deduplication after the meshes [done]: the entries of
    [mats] are pairwise different; the entry of every mesh has the
    roughness of the mesh (or both are NaN); and two meshes have the same
    entry exactly when their roughness factors are equal. *)
Definition dedup_state (done : list Geometry) (mats : list GltfMaterial)
    (assocs : list meshInfoAssociation) : Prop :=
  length assocs = length done /\
  Forall uniform mats /\
  (forall (i j : nat) (mi mj : GltfMaterial),
      i <> j -> mats !! i = Some mi -> mats !! j = Some mj ->
      F64.eqb (roughness mi) (roughness mj) = false) /\
  (forall (k : nat) (mesh : Geometry) (a : meshInfoAssociation),
      done !! k = Some mesh -> assocs !! k = Some a ->
      exists (n : nat) (m : GltfMaterial),
        MeshMaterialIndex a = Z.of_nat n /\ mats !! n = Some m /\
        (F64.eqb (roughness m) (meshRoughness mesh) = true \/
         (is_nan (meshRoughness mesh) = true /\ is_nan (roughness m) = true))) /\
  (forall (i j : nat) (mi mj : Geometry) (ai aj : meshInfoAssociation),
      (i < j)%nat -> done !! i = Some mi -> done !! j = Some mj ->
      assocs !! i = Some ai -> assocs !! j = Some aj ->
      (MeshMaterialIndex ai = MeshMaterialIndex aj
       <-> F64.eqb (meshRoughness mi) (meshRoughness mj) = true)).

(** The component [i] of the base color factor of a material. *)
Definition factor (m : GltfMaterial) (i : nat) : spec_float :=
  default (S754_zero false) (Pbr_BaseColorFactor (pbr m) !! i).

(** The material indices of the primitives of a document. *)
Definition materialIndices (gltfDoc : GlTF) : list Z :=
  flat_map (fun m => map MeshPrimitive_Material (Mesh_Primitives m)) (GlTF_Meshes gltfDoc).

(** A mesh without geometry of the given specular power. *)
Definition bareMesh (specularPower : spec_float) : Geometry :=
  {| Vertices := []; Faces := [];
     Material_ := plainMaterial specularPower (F32.of_Z 1) |}.

(** [2 ^ (-60)] as a [float32]. *)
Definition tinyPower : spec_float := S754_finite false 8388608 (-83).

(** The shift that brings the mantissa of a [float32] to the 53 bits of a
    [float64]. *)
Definition shift64 (m : positive) : positive := Z.to_pos (53 - Zpos (digits2_pos m)).

(** The order of the finite floats of one sign: by exponent, then by
    mantissa. *)
Definition lexcmp (e1 : Z) (m1 : positive) (e2 : Z) (m2 : positive) : comparison :=
  match Z.compare e1 e2 with
  | Lt => Lt
  | Gt => Gt
  | Eq => Pos.compare_cont Eq m1 m2
  end.

(** A [float32] of the format that is not a NaN. *)
Definition ordinary32 (x : spec_float) : Prop := F32.valid x /\ is_nan x = false.

(** [x] lies between [lo] and [hi]. *)
Definition within (lo hi x : spec_float) : Prop :=
  F32.leb lo x = true /\ F32.leb x hi = true.

(** Vectors without a NaN, and vectors between two vectors, component by
    component. *)
Definition ordinary2 (v : Vector2) : Prop := ordinary32 (U v) /\ ordinary32 (V v).

Definition ordinary3 (v : Vector3) : Prop :=
  ordinary32 (X v) /\ ordinary32 (Y v) /\ ordinary32 (Z_ v).

Definition ordinary4 (v : Vector4) : Prop :=
  ordinary32 (R v) /\ ordinary32 (G v) /\ ordinary32 (B v) /\ ordinary32 (A v).

Definition within2 (lo hi u : Vector2) : Prop :=
  within (U lo) (U hi) (U u) /\ within (V lo) (V hi) (V u).

Definition within3 (lo hi u : Vector3) : Prop :=
  within (X lo) (X hi) (X u) /\ within (Y lo) (Y hi) (Y u) /\ within (Z_ lo) (Z_ hi) (Z_ u).

Definition within4 (lo hi u : Vector4) : Prop :=
  within (R lo) (R hi) (R u) /\ within (G lo) (G hi) (G u) /\
  within (B lo) (B hi) (B u) /\ within (A lo) (A hi) (A u).

Definition emptyPacker : Packer :=
  {| outBuf := []; gltfBufferViews := []; gltfAccessors := [] |}.

(** The vector (x, 0, 0). *)
Definition alongX (x : spec_float) : Vector3 :=
  {| X := x; Y := S754_zero false; Z_ := S754_zero false |}.

(** The buffer view the packer makes for [byteLength] bytes at
    [byteOffset] of buffer 0. *)
Definition viewAt (byteOffset byteLength byteStride target : Z) : BufferView :=
  {| BufferView_Buffer := 0;
     BufferView_ByteLength := byteLength;
     BufferView_ByteOffset := byteOffset;
     BufferView_ByteStride := byteStride;
     BufferView_Extensions := any_nil;
     BufferView_Extras := any_nil;
     BufferView_Name := any_nil;
     BufferView_Target := any_int target |}.

(** The bytes of one mesh in the buffer: its index triples, its
    positions, its normals, and its texture coordinates or its vertex
    colors. *)
Definition meshBytes (vertexColors : bool) (mesh : Geometry) : list Z :=
  flat_map bytesOfTriangle (Faces mesh)
    ++ flat_map bytesOfVector3 (map Position (Vertices mesh))
    ++ flat_map bytesOfVector3 (map Normal (Vertices mesh))
    ++ (if negb vertexColors
        then flat_map bytesOfVector2 (map UV (Vertices mesh))
        else flat_map bytesOfVector4 (map Color (Vertices mesh))).

(** Their number: 12 bytes a face and 32 or 40 bytes a vertex. *)
Definition meshSize (vertexColors : bool) (mesh : Geometry) : Z :=
  12 * len (Faces mesh) + (if negb vertexColors then 32 else 40) * len (Vertices mesh).

(** The four buffer views of a mesh whose bytes start at [off], and the
    buffer views of meshes that follow one another from [off] on. *)
Definition meshViews (vertexColors : bool) (off : Z) (mesh : Geometry) : list BufferView :=
  let f := 12 * len (Faces mesh) in
  let v := len (Vertices mesh) in
  [ viewAt off f 0 34963;
    viewAt (off + f) (12 * v) 12 34962;
    viewAt (off + f + 12 * v) (12 * v) 12 34962;
    if negb vertexColors
    then viewAt (off + f + 24 * v) (8 * v) 8 34962
    else viewAt (off + f + 24 * v) (16 * v) 16 34962 ].

Fixpoint viewsOf (vertexColors : bool) (off : Z) (meshes : list Geometry) : list BufferView :=
  match meshes with
  | [] => []
  | mesh :: rest =>
      meshViews vertexColors off mesh
        ++ viewsOf vertexColors (off + meshSize vertexColors mesh) rest
  end.

(** What an accessor declares. *)
Definition accessor_is (acc : Accessor) (bufferView componentType count : Z) (type : string)
  : Prop :=
  Accessor_BufferView acc = bufferView /\ Accessor_ByteOffset acc = 0 /\
  Accessor_ComponentType acc = any_int componentType /\ Accessor_Count acc = count /\
  Accessor_Type acc = any_string type.

(** The four accessors of a mesh, the first of which refers to the buffer
    view [view0]: indices, positions, normals, and texture coordinates or
    vertex colors. *)
Definition meshAccessors_are (vertexColors : bool) (view0 : Z) (mesh : Geometry)
    (a0 a1 a2 a3 : Accessor) : Prop :=
  accessor_is a0 view0 5125 (len (Faces mesh) * 3) "SCALAR" /\
  accessor_is a1 (view0 + 1) 5126 (len (Vertices mesh)) "VEC3" /\
  accessor_is a2 (view0 + 2) 5126 (len (Vertices mesh)) "VEC3" /\
  accessor_is a3 (view0 + 3) 5126 (len (Vertices mesh))
              (if negb vertexColors then "VEC2" else "VEC4").

(** The association of a mesh whose first accessor is [accessor0]. *)
Definition associationAt (vertexColors : bool) (accessor0 materialIndex : Z)
  : meshInfoAssociation :=
  {| MeshIndicesAccessorIndex := accessor0;
     MeshVerticesAccessorIndex := accessor0 + 1;
     MeshNormalsAccessorIndex := accessor0 + 2;
     MeshMaterialIndex := materialIndex;
     MeshUVAccessorIndex := if negb vertexColors then accessor0 + 3 else 0;
     MeshVertexColorAccessorIndex := if negb vertexColors then 0 else accessor0 + 3 |}.

(** The state of the first loop of the assembler after the meshes [done]:
    the buffer holds their bytes, the buffer views are theirs, and the
    accessors [4 * k] to [4 * k + 3] and the association [k] belong to
    the mesh [k]. *)
Definition assembled (vertexColors : bool) (done : list Geometry) (pk : Packer)
    (assocs : list meshInfoAssociation) : Prop :=
  outBuf pk = flat_map (meshBytes vertexColors) done /\
  gltfBufferViews pk = viewsOf vertexColors 0 done /\
  length (gltfAccessors pk) = (4 * length done)%nat /\
  length assocs = length done /\
  (forall (k : nat) (mesh : Geometry),
      done !! k = Some mesh ->
      exists a0 a1 a2 a3 materialIndex,
        gltfAccessors pk !! (4 * k)%nat = Some a0 /\
        gltfAccessors pk !! (4 * k + 1)%nat = Some a1 /\
        gltfAccessors pk !! (4 * k + 2)%nat = Some a2 /\
        gltfAccessors pk !! (4 * k + 3)%nat = Some a3 /\
        meshAccessors_are vertexColors (4 * Z.of_nat k) mesh a0 a1 a2 a3 /\
        assocs !! k = Some (associationAt vertexColors (4 * Z.of_nat k) materialIndex)).

(** A buffer view of buffer 0 that lies within its [byteLength] bytes. *)
Definition within_buffer (byteLength : Z) (bv : BufferView) : Prop :=
  BufferView_Buffer bv = 0 /\ 0 <= BufferView_ByteOffset bv /\ 0 <= BufferView_ByteLength bv /\
  BufferView_ByteOffset bv + BufferView_ByteLength bv <= byteLength.

(** The material list and the associations of the assembler: every
    material index is an index into the list, and every entry of the list
    is the material of some association. *)
Definition materials_used (mats : list GltfMaterial) (assocs : list meshInfoAssociation)
  : Prop :=
  (length mats <= length assocs)%nat /\
  Forall (fun a => 0 <= MeshMaterialIndex a < len mats) assocs /\
  (forall i : nat, (i < length mats)%nat ->
     exists a, In a assocs /\ MeshMaterialIndex a = Z.of_nat i).

(** The data URI [SerializeEmbeddedGlTF] gives the first buffer. *)
Definition dataURI (b64 : list Z -> string) (bytes : list Z) : string :=
  String.append "data:application/gltf-buffer;base64," (b64 bytes).

(** The indices of a list of triangles, in the order they are packed. *)
Definition indexList (indices : list Triangle) : list Z :=
  flat_map (fun t => [TriangleIndices0 t; TriangleIndices1 t; TriangleIndices2 t]) indices.

(** An index that is not negative, as an [int32]. *)
Definition index_ok (i : Z) : Prop := 0 <= i < 2 ^ 31.


(** The JSON of the material of the consolidated mesh. *)
Definition flatMaterialJSON (vertexColors : bool) : json :=
  JObject
    [ ("doubleSided"%string, JBool true);
      ("pbrMetallicRoughness"%string,
       JObject ((if negb vertexColors
                 then [("baseColorTexture"%string, JObject [("index"%string, JInt 0)])]
                 else [])
                ++ [("metallicFactor"%string, JFloat64 (S754_zero false))])) ].


(** A float an upper bound cannot leave (a NaN or the infinity above), and
    one a lower bound cannot leave. *)
Definition stuck_high (x : spec_float) : bool := is_nan x || is_inf false x.
Definition stuck_low (x : spec_float) : bool := is_nan x || is_inf true x.

(** An accessor one of whose bounds [json.Marshal] does not support. *)
Definition unsupported_bounds (acc : Accessor) : Prop :=
  Exists (fun x => float_supported x = false) (Accessor_Max acc ++ Accessor_Min acc).

(** A mesh with a vertex whose position has a component that is a NaN or
    an infinity. *)
Definition position_not_finite (mesh : Geometry) : Prop :=
  exists v, In v (Vertices mesh) /\
    (float_supported (X (Position v)) = false \/
     float_supported (Y (Position v)) = false \/
     float_supported (Z_ (Position v)) = false).

(** A mesh of one vertex whose position has a NaN. *)
Definition nanMesh : Geometry :=
  {| Vertices :=
       [ {| Color := Color zeroVertex;
            Position := {| X := S754_nan; Y := S754_zero false; Z_ := S754_zero false |};
            Normal := Normal zeroVertex;
            UV := UV zeroVertex |} ];
     Faces := [];
     Material_ := plainMaterial (S754_zero false) (F32.of_Z 1) |}.

(** The JSON of the primitive of an association. *)
Definition primitiveJSON (vertexColors : bool) (assoc : meshInfoAssociation) : json :=
  JObject
    [ ("attributes"%string,
       JObject
         (if vertexColors
          then [ ("COLOR_0"%string, JInt (MeshVertexColorAccessorIndex assoc));
                 ("NORMAL"%string, JInt (MeshNormalsAccessorIndex assoc));
                 ("POSITION"%string, JInt (MeshVerticesAccessorIndex assoc)) ]
          else [ ("NORMAL"%string, JInt (MeshNormalsAccessorIndex assoc));
                 ("POSITION"%string, JInt (MeshVerticesAccessorIndex assoc));
                 ("TEXCOORD_0"%string, JInt (MeshUVAccessorIndex assoc)) ]));
      ("indices"%string, JInt (MeshIndicesAccessorIndex assoc));
      ("material"%string, JInt (MeshMaterialIndex assoc)) ].

(** The materials are the assembler's materials of meshes among [done]. *)
Definition materials_of (vertexColors : bool) (done : list Geometry)
    (mats : list GltfMaterial) : Prop :=
  Forall (fun m => exists mesh, In mesh done /\ m = assembledMaterial vertexColors mesh) mats.

(** ** Lists, lengths and bytes *)

Lemma len_app {A : Type} (l1 l2 : list A) : len (l1 ++ l2) = len l1 + len l2.
Proof. unfold len. rewrite length_app. lia. Qed.

Lemma len_nonneg {A : Type} (l : list A) : 0 <= len l.
Proof. unfold len. lia. Qed.

Lemma len_nil {A : Type} : len (@nil A) = 0.
Proof. reflexivity. Qed.

Lemma len_cons {A : Type} (x : A) (l : list A) : len (x :: l) = 1 + len l.
Proof. unfold len. simpl length. lia. Qed.

Lemma len_map {A B : Type} (f : A -> B) (l : list A) : len (map f l) = len l.
Proof. unfold len. now rewrite length_map. Qed.

Lemma len_putUint32 (v : Z) : len (putUint32 v) = 4.
Proof. reflexivity. Qed.

Lemma len_putFloat32 (x : spec_float) : len (putFloat32 x) = 4.
Proof. reflexivity. Qed.

Lemma len_putInt32 (v : Z) : len (putInt32 v) = 4.
Proof. reflexivity. Qed.

Lemma len_flat_map_const {A B : Type} (f : A -> list B) (k : Z) (l : list A) :
  (forall x, len (f x) = k) -> len (flat_map f l) = k * len l.
Proof.
  intros Hk. induction l as [|x l IH].
  - unfold len. simpl. lia.
  - simpl flat_map. rewrite len_app, len_cons, IH, Hk. lia.
Qed.

Lemma lookup_snoc_len {A : Type} (l : list A) (x : A) :
  (l ++ [x]) !! Z.to_nat (len l) = Some x.
Proof.
  unfold len. rewrite Nat2Z.id.
  rewrite lookup_app_r by lia. now rewrite Nat.sub_diag.
Qed.

Lemma lookup_snoc_last {A : Type} (l : list A) (x : A) :
  (l ++ [x]) !! Z.to_nat (len (l ++ [x]) - 1) = Some x.
Proof.
  rewrite len_app, len_cons, len_nil.
  replace (len l + (1 + 0) - 1) with (len l) by lia. apply lookup_snoc_len.
Qed.

(** A loop that appends one element per round is a [map]. *)
Lemma fold_left_snoc {A B : Type} (f : A -> B) (l : list A) (acc : list B) :
  fold_left (fun acc x => acc ++ [f x]) l acc = acc ++ map f l.
Proof.
  revert acc. induction l as [|x l IH]; intros acc; simpl.
  - now rewrite app_nil_r.
  - rewrite IH. now rewrite <- app_assoc.
Qed.

(** ** The typed buffer packer: what is written *)

Lemma addVector2ArrayToBuffer_written (buf : list Z) (data : list Vector2) :
  fst (addVector2ArrayToBuffer buf data) = buf ++ flat_map bytesOfVector2 data.
Proof.
  unfold addVector2ArrayToBuffer.
  generalize ({| U := seed_low; V := seed_low |}, {| U := seed_high; V := seed_high |}).
  revert buf. induction data as [|v data IH]; intros buf lh.
  - simpl. now rewrite app_nil_r.
  - destruct lh as [lo hi]. simpl fold_left. rewrite IH. simpl flat_map.
    unfold bytesOfVector2. now rewrite <- !app_assoc.
Qed.

Lemma addVector3ArrayToBuffer_written (buf : list Z) (data : list Vector3) :
  fst (addVector3ArrayToBuffer buf data) = buf ++ flat_map bytesOfVector3 data.
Proof.
  unfold addVector3ArrayToBuffer.
  generalize ({| X := seed_low; Y := seed_low; Z_ := seed_low |},
              {| X := seed_high; Y := seed_high; Z_ := seed_high |}).
  revert buf. induction data as [|v data IH]; intros buf lh.
  - simpl. now rewrite app_nil_r.
  - destruct lh as [lo hi]. simpl fold_left. rewrite IH. simpl flat_map.
    unfold bytesOfVector3. now rewrite <- !app_assoc.
Qed.

Lemma addVector4ArrayToBuffer_written (buf : list Z) (data : list Vector4) :
  fst (addVector4ArrayToBuffer buf data) = buf ++ flat_map bytesOfVector4 data.
Proof.
  unfold addVector4ArrayToBuffer.
  generalize ({| R := seed_low; G := seed_low; B := seed_low; A := seed_low |},
              {| R := seed_high; G := seed_high; B := seed_high; A := seed_high |}).
  revert buf. induction data as [|v data IH]; intros buf lh.
  - simpl. now rewrite app_nil_r.
  - destruct lh as [lo hi]. simpl fold_left. rewrite IH. simpl flat_map.
    unfold bytesOfVector4. now rewrite <- !app_assoc.
Qed.

Lemma addTriangleArrayToBuffer_written (u32 : spec_float -> Z) (buf : list Z)
    (indices : list Triangle) :
  fst (addTriangleArrayToBuffer u32 buf indices) = buf ++ flat_map bytesOfTriangle indices.
Proof.
  unfold addTriangleArrayToBuffer.
  generalize (100, 0).
  revert buf. induction indices as [|t indices IH]; intros buf mm.
  - simpl. now rewrite app_nil_r.
  - destruct mm as [mn mx]. simpl fold_left. rewrite IH. simpl flat_map.
    unfold bytesOfTriangle. now rewrite <- !app_assoc.
Qed.

Lemma len_bytesOfVector2 v : len (bytesOfVector2 v) = 8.
Proof. reflexivity. Qed.
Lemma len_bytesOfVector3 v : len (bytesOfVector3 v) = 12.
Proof. reflexivity. Qed.
Lemma len_bytesOfVector4 v : len (bytesOfVector4 v) = 16.
Proof. reflexivity. Qed.
Lemma len_bytesOfTriangle t : len (bytesOfTriangle t) = 12.
Proof. reflexivity. Qed.

Ltac packer_append written_lemma :=
  match goal with
  | |- context [?add ?buf ?data] =>
      match type of (add buf data) with
      | (list Z * _)%type =>
          let H := fresh "Hw" in
          pose proof (written_lemma buf data) as H;
          destruct (add buf data) as [buf' [mn mx]]; simpl in H; subst buf'
      end
  end;
  simpl; eexists; eexists;
  repeat split; simpl; try reflexivity;
  try (rewrite !len_app, ?len_cons, ?len_nil; lia);
  try apply lookup_snoc_last.

Lemma getAccessorIndexFromVector2_appends (st : Packer) (vectors : list Vector2) :
  appends_one st (snd (getAccessorIndexFromVector2 st vectors))
              (fst (getAccessorIndexFromVector2 st vectors))
              (flat_map bytesOfVector2 vectors) 8 5126 (len vectors) "VEC2".
Proof.
  unfold appends_one, getAccessorIndexFromVector2.
  packer_append addVector2ArrayToBuffer_written.
Qed.

Lemma getAccessorIndexFromVector3_appends (st : Packer) (vectors : list Vector3) :
  appends_one st (snd (getAccessorIndexFromVector3 st vectors))
              (fst (getAccessorIndexFromVector3 st vectors))
              (flat_map bytesOfVector3 vectors) 12 5126 (len vectors) "VEC3".
Proof.
  unfold appends_one, getAccessorIndexFromVector3.
  packer_append addVector3ArrayToBuffer_written.
Qed.

Lemma getAccessorIndexFromVector4_appends (st : Packer) (vectors : list Vector4) :
  appends_one st (snd (getAccessorIndexFromVector4 st vectors))
              (fst (getAccessorIndexFromVector4 st vectors))
              (flat_map bytesOfVector4 vectors) 16 5126 (len vectors) "VEC4".
Proof.
  unfold appends_one, getAccessorIndexFromVector4.
  packer_append addVector4ArrayToBuffer_written.
Qed.

Lemma getAccessorIndexFromIndices_appends (u32 : spec_float -> Z) (st : Packer)
    (indices : list Triangle) :
  appends_one st (snd (getAccessorIndexFromIndices u32 st indices))
              (fst (getAccessorIndexFromIndices u32 st indices))
              (flat_map bytesOfTriangle indices) 0 5125 (len indices * 3) "SCALAR".
Proof.
  unfold appends_one, getAccessorIndexFromIndices.
  packer_append (addTriangleArrayToBuffer_written u32).
Qed.

(** C4. Every append of the typed buffer packer adds exactly one buffer
    view (byte offset: the length of the buffer before the write; byte
    length: the bytes written; byte stride 8, 12 or 16 for vectors of 2, 3
    or 4 components and none for index triples) and exactly one accessor
    that refers to that view (component type 5126 for vectors and 5125 for
    indices, the number of elements as count, three per triangle for
    indices, and the type VEC2, VEC3, VEC4 or SCALAR); the index returned
    is the index of the new accessor. *)
Theorem C4_packer_appends_one_view_and_one_accessor :
  forall (uint32_unrepresentable : spec_float -> Z) (st : Packer),
    (forall vectors : list Vector2,
        appends_one st (snd (getAccessorIndexFromVector2 st vectors))
                    (fst (getAccessorIndexFromVector2 st vectors))
                    (flat_map bytesOfVector2 vectors) 8 5126 (len vectors) "VEC2"
        /\ len (flat_map bytesOfVector2 vectors) = 8 * len vectors) /\
    (forall vectors : list Vector3,
        appends_one st (snd (getAccessorIndexFromVector3 st vectors))
                    (fst (getAccessorIndexFromVector3 st vectors))
                    (flat_map bytesOfVector3 vectors) 12 5126 (len vectors) "VEC3"
        /\ len (flat_map bytesOfVector3 vectors) = 12 * len vectors) /\
    (forall vectors : list Vector4,
        appends_one st (snd (getAccessorIndexFromVector4 st vectors))
                    (fst (getAccessorIndexFromVector4 st vectors))
                    (flat_map bytesOfVector4 vectors) 16 5126 (len vectors) "VEC4"
        /\ len (flat_map bytesOfVector4 vectors) = 16 * len vectors) /\
    (forall indices : list Triangle,
        appends_one st (snd (getAccessorIndexFromIndices uint32_unrepresentable st indices))
                    (fst (getAccessorIndexFromIndices uint32_unrepresentable st indices))
                    (flat_map bytesOfTriangle indices) 0 5125 (len indices * 3) "SCALAR"
        /\ len (flat_map bytesOfTriangle indices) = 12 * len indices).
Proof.
  intros u32 st. repeat split.
  - apply getAccessorIndexFromVector2_appends.
  - apply len_flat_map_const, len_bytesOfVector2.
  - apply getAccessorIndexFromVector3_appends.
  - apply len_flat_map_const, len_bytesOfVector3.
  - apply getAccessorIndexFromVector4_appends.
  - apply len_flat_map_const, len_bytesOfVector4.
  - apply getAccessorIndexFromIndices_appends.
  - apply len_flat_map_const, len_bytesOfTriangle.
Qed.

(** ** Alignment of the packed buffer *)

Lemma appends_one_aligned4 (st st' : Packer) (i : Z) (written : list Z)
    (stride ctype count : Z) (type : string) :
  appends_one st st' i written stride ctype count type ->
  len written mod 4 = 0 -> aligned4 st -> aligned4 st'.
Proof.
  intros (bv & acc & Hbuf & Hbv & _ & _ & Hoff & _) Hw [Hlen Hviews].
  split.
  - rewrite Hbuf, len_app. rewrite Z.add_mod, Hlen, Hw by lia. reflexivity.
  - rewrite Hbv. apply Forall_app. split; [exact Hviews|].
    constructor; [|constructor]. now rewrite Hoff.
Qed.

Lemma mul4_mod (k n : Z) : k mod 4 = 0 -> (k * n) mod 4 = 0.
Proof.
  intros Hk. rewrite Z.mul_mod, Hk by lia. reflexivity.
Qed.

Lemma getAccessorIndexFromVector2_aligned4 st vectors :
  aligned4 st -> aligned4 (snd (getAccessorIndexFromVector2 st vectors)).
Proof.
  apply (appends_one_aligned4 _ _ _ _ _ _ _ _ (getAccessorIndexFromVector2_appends st vectors)).
  rewrite (len_flat_map_const _ 8) by apply len_bytesOfVector2. now apply mul4_mod.
Qed.

Lemma getAccessorIndexFromVector3_aligned4 st vectors :
  aligned4 st -> aligned4 (snd (getAccessorIndexFromVector3 st vectors)).
Proof.
  apply (appends_one_aligned4 _ _ _ _ _ _ _ _ (getAccessorIndexFromVector3_appends st vectors)).
  rewrite (len_flat_map_const _ 12) by apply len_bytesOfVector3. now apply mul4_mod.
Qed.

Lemma getAccessorIndexFromVector4_aligned4 st vectors :
  aligned4 st -> aligned4 (snd (getAccessorIndexFromVector4 st vectors)).
Proof.
  apply (appends_one_aligned4 _ _ _ _ _ _ _ _ (getAccessorIndexFromVector4_appends st vectors)).
  rewrite (len_flat_map_const _ 16) by apply len_bytesOfVector4. now apply mul4_mod.
Qed.

Lemma getAccessorIndexFromIndices_aligned4 u32 st indices :
  aligned4 st -> aligned4 (snd (getAccessorIndexFromIndices u32 st indices)).
Proof.
  apply (appends_one_aligned4 _ _ _ _ _ _ _ _
           (getAccessorIndexFromIndices_appends u32 st indices)).
  rewrite (len_flat_map_const _ 12) by apply len_bytesOfTriangle. now apply mul4_mod.
Qed.

Lemma packMesh_aligned4 u32 vc pk mesh : aligned4 pk -> aligned4 (packMesh u32 vc pk mesh).
Proof.
  intros H. unfold packMesh.
  destruct (negb vc).
  - now apply getAccessorIndexFromVector2_aligned4, getAccessorIndexFromVector3_aligned4,
      getAccessorIndexFromVector3_aligned4, getAccessorIndexFromIndices_aligned4.
  - now apply getAccessorIndexFromVector4_aligned4, getAccessorIndexFromVector3_aligned4,
      getAccessorIndexFromVector3_aligned4, getAccessorIndexFromIndices_aligned4.
Qed.

(** ** The material deduplicator *)

Lemma areMaterialsEqual_total (a b : GltfMaterial) :
  fourFactors a -> fourFactors b -> exists r, areMaterialsEqual a b = Some r.
Proof.
  unfold fourFactors, areMaterialsEqual, pbr. intros Ha Hb.
  destruct (Pbr_BaseColorFactor (GltfMaterial_PbrMetallicRoughness a))
    as [|a0 [|a1 [|a2 [|a3 la]]]]; simpl in Ha; try lia.
  destruct (Pbr_BaseColorFactor (GltfMaterial_PbrMetallicRoughness b))
    as [|b0 [|b1 [|b2 [|b3 lb]]]]; simpl in Hb; try lia.
  simpl. eauto.
Qed.

(** The scan finds the first equal entry, or none when there is none. *)
Lemma addMaterial_scan_spec (material : GltfMaterial) (l : list GltfMaterial) (i : Z) :
  fourFactors material -> Forall fourFactors l ->
  (exists (k : nat) (m : GltfMaterial),
      l !! k = Some m /\ areMaterialsEqual m material = Some true /\
      (forall (j : nat) (m' : GltfMaterial),
          (j < k)%nat -> l !! j = Some m' -> areMaterialsEqual m' material = Some false) /\
      addMaterial_scan material i l = Some (Some (i + Z.of_nat k)))
  \/ ((forall (j : nat) (m' : GltfMaterial),
          l !! j = Some m' -> areMaterialsEqual m' material = Some false) /\
      addMaterial_scan material i l = Some None).
Proof.
  intros Hm Hl. revert i. induction Hl as [|m l Hm0 Hl IH]; intros i.
  - right. split; [|reflexivity]. intros j m' Hj. now rewrite lookup_nil in Hj.
  - destruct (areMaterialsEqual_total m material Hm0 Hm) as [[|] Heq].
    + left. exists 0%nat, m. repeat split; try assumption.
      * intros j m' Hj. lia.
      * simpl. rewrite Heq. f_equal. f_equal. lia.
    + destruct (IH (i + 1)) as [(k & m1 & Hk & Hk1 & Hfirst & Hscan) | [Hnone Hscan]].
      * left. exists (S k), m1. repeat split; try assumption.
        -- intros [|j] m' Hj Hlk; simpl in Hlk.
           ++ now inversion Hlk; subst.
           ++ apply (Hfirst j); [lia|assumption].
        -- simpl. rewrite Heq, Hscan. f_equal. f_equal. lia.
      * right. split.
        -- intros [|j] m' Hlk; simpl in Hlk.
           ++ now inversion Hlk; subst.
           ++ now apply (Hnone j).
        -- simpl. now rewrite Heq, Hscan.
Qed.

(** [addMaterial] returns: the index of the first equal entry with the
    list as it was, or the list with the material appended and its index. *)
Lemma addMaterial_spec (material : GltfMaterial) (l : list GltfMaterial) :
  fourFactors material -> Forall fourFactors l ->
  (exists (k : nat) (m : GltfMaterial),
      l !! k = Some m /\ areMaterialsEqual m material = Some true /\
      (forall (j : nat) (m' : GltfMaterial),
          (j < k)%nat -> l !! j = Some m' -> areMaterialsEqual m' material = Some false) /\
      addMaterial material l = Some (Z.of_nat k, l))
  \/ ((forall (j : nat) (m' : GltfMaterial),
          l !! j = Some m' -> areMaterialsEqual m' material = Some false) /\
      addMaterial material l = Some (len l, l ++ [material])).
Proof.
  intros Hm Hl.
  destruct (addMaterial_scan_spec material l 0 Hm Hl)
    as [(k & m & Hk & Heq & Hfirst & Hscan) | [Hnone Hscan]].
  - left. exists k, m. repeat split; try assumption.
    unfold addMaterial. now rewrite Hscan.
  - right. split; [assumption|]. unfold addMaterial. rewrite Hscan.
    f_equal. f_equal. rewrite len_app, len_cons, len_nil. lia.
Qed.

Lemma fourFactors_assembledMaterial vc mesh : fourFactors (assembledMaterial vc mesh).
Proof.
  unfold fourFactors, assembledMaterial, pbr. simpl. lia.
Qed.

(** ** The document assembler: the first loop *)

Lemma ToGltfDoc_body_unfold u32 vc pk mats assocs out mesh :
  ToGltfDoc_body u32 vc (pk, mats, assocs, out) mesh =
  match addMaterial (assembledMaterial vc mesh) mats with
  | None => None
  | Some (materialIndex, newGltfMaterials) =>
      Some (packMesh u32 vc pk mesh, newGltfMaterials,
            assocs ++ [associationOf u32 vc pk mesh materialIndex],
            if negb (Z.rem (len (outBuf (packMesh u32 vc pk mesh))) 4 =? 0)
            then out ++ [" this should't happen. "%string] else out)
  end.
Proof.
  unfold ToGltfDoc_body, packMesh, associationOf, assembledMaterial.
  destruct (getAccessorIndexFromIndices u32 pk (Faces mesh)) as [i1 pk1]. simpl.
  destruct (getAccessorIndexFromVector3 pk1 (getVertices mesh)) as [i2 pk2]. simpl.
  destruct (getAccessorIndexFromVector3 pk2 (getNormals mesh)) as [i3 pk3]. simpl.
  destruct vc; simpl.
  - destruct (getAccessorIndexFromVector4 pk3 (getVertexColors mesh)) as [i4 pk4]. simpl.
    reflexivity.
  - destruct (getAccessorIndexFromVector2 pk3 (getUVCoords mesh)) as [i4 pk4]. simpl.
    reflexivity.
Qed.

(** An invariant of the rounds holds after the loop, which returns. *)
Lemma ToGltfDoc_loop_invariant u32 vc (P : Loop -> Prop) :
  (forall st mesh, P st -> exists st', ToGltfDoc_body u32 vc st mesh = Some st' /\ P st') ->
  forall meshes st, P st ->
    exists st', ToGltfDoc_loop u32 vc meshes st = Some st' /\ P st'.
Proof.
  intros Hstep meshes. induction meshes as [|mesh meshes IH]; intros st Hst.
  - exists st. now split.
  - destruct (Hstep st mesh Hst) as (st1 & Hbody & Hst1).
    destruct (IH st1 Hst1) as (st' & Hloop & Hst').
    exists st'. split; [|assumption]. simpl. now rewrite Hbody.
Qed.

Lemma ToGltfDoc_body_aligned u32 vc st mesh :
  loop_aligned st ->
  exists st', ToGltfDoc_body u32 vc st mesh = Some st' /\ loop_aligned st'.
Proof.
  destruct st as [[[pk mats] assocs] out]. intros (Hal & Hmats & ->).
  rewrite ToGltfDoc_body_unfold.
  pose proof (packMesh_aligned4 u32 vc pk mesh Hal) as Hal'.
  assert (Hrem : (Z.rem (len (outBuf (packMesh u32 vc pk mesh))) 4 =? 0) = true).
  { apply Z.eqb_eq. rewrite Z.rem_mod_nonneg; [apply Hal' | apply len_nonneg | lia]. }
  rewrite Hrem. simpl negb. cbv iota.
  destruct (addMaterial_spec (assembledMaterial vc mesh) mats
              (fourFactors_assembledMaterial vc mesh) Hmats)
    as [(k & m & _ & _ & _ & Hadd) | [_ Hadd]]; rewrite Hadd.
  - eexists. split; [reflexivity|]. repeat split; try assumption; apply Hal'.
  - eexists. split; [reflexivity|]. repeat split; try apply Hal'.
    apply Forall_app. split; [assumption|].
    constructor; [apply fourFactors_assembledMaterial | constructor].
Qed.

Lemma loop_aligned_Loop0 : loop_aligned Loop0.
Proof.
  simpl. repeat split; constructor.
Qed.

(** ** Padding to a multiple of 4 *)

Lemma land3_mod4 (z : Z) : Z.land z 3 = z mod 4.
Proof. exact (Z.land_ones z 2 ltac:(lia)). Qed.

Lemma uint32_mod4 (z : Z) : uint32 z mod 4 = z mod 4.
Proof.
  unfold uint32. symmetry.
  rewrite (Z.div_mod z (2 ^ 32)) at 1 by lia.
  replace (2 ^ 32 * (z / 2 ^ 32)) with (z / 2 ^ 32 * 2 ^ 30 * 4) by lia.
  rewrite Z.add_comm. apply Z.mod_add. lia.
Qed.

Lemma uint32_range (z : Z) : 0 <= uint32 z < 2 ^ 32.
Proof. unfold uint32. apply Z.mod_pos_bound. lia. Qed.

Lemma uint32_small (z : Z) : 0 <= z < 2 ^ 32 -> uint32 z = z.
Proof. intros H. unfold uint32. now apply Z.mod_small. Qed.

(** The padding is what is missing to the next multiple of 4. *)
Lemma paddingNeeded_uint32 (n : Z) :
  0 <= paddingNeeded (uint32 n) < 4 /\ (n + paddingNeeded (uint32 n)) mod 4 = 0.
Proof.
  unfold paddingNeeded. rewrite !land3_mod4, !uint32_mod4.
  pose proof (Z.mod_pos_bound n 4 ltac:(lia)) as Hn.
  pose proof (Z.mod_pos_bound (4 - n mod 4) 4 ltac:(lia)) as Hp.
  split; [exact Hp|].
  rewrite Z.add_mod by lia. rewrite Z.mod_mod by lia.
  assert (n mod 4 = 0 \/ n mod 4 = 1 \/ n mod 4 = 2 \/ n mod 4 = 3) as Hc by lia.
  destruct Hc as [-> | [-> | [-> | ->]]]; reflexivity.
Qed.

Lemma len_spaces (n : Z) : 0 <= n -> len (spaces n) = n.
Proof. intros H. unfold len, spaces. rewrite repeat_length. lia. Qed.

Lemma len_nulls (n : Z) : 0 <= n -> len (nulls n) = n.
Proof. intros H. unfold len, nulls. rewrite repeat_length. lia. Qed.

(** Both chunk lengths that are written, and both padded payloads, are
    multiples of 4. *)
Lemma glbSizes_of_mod4 (outJSON outBuf : list Z) :
  let sz := glbSizes_of outJSON outBuf in
  outJSONSize sz mod 4 = 0 /\ outBufSize sz mod 4 = 0 /\
  len (outJSON ++ spaces (outJSONPaddingNeeded sz)) mod 4 = 0 /\
  len (outBuf ++ nulls (outBufNullsNeeded sz)) mod 4 = 0.
Proof.
  simpl.
  destruct (paddingNeeded_uint32 (len outJSON)) as [Hj1 Hj2].
  destruct (paddingNeeded_uint32 (len outBuf)) as [Hb1 Hb2].
  repeat split.
  - rewrite uint32_mod4, Z.add_mod, uint32_mod4, <- Z.add_mod by lia. exact Hj2.
  - rewrite uint32_mod4, Z.add_mod, uint32_mod4, <- Z.add_mod by lia. exact Hb2.
  - rewrite len_app, len_spaces by lia. exact Hj2.
  - rewrite len_app, len_nulls by lia. exact Hb2.
Qed.

(** ** The assembled document *)

(** [ToGltfDoc] returns, prints nothing, and its document has the parts of
    the final state of the loop. *)
Lemma ToGltfDoc_run_aligned u32 b64 vc model atlas :
  exists doc pk mats assocs,
    ToGltfDoc_loop u32 vc (Meshes model) Loop0 = Some (pk, mats, assocs, []) /\
    ToGltfDoc_run u32 b64 vc model atlas = Some (doc, []) /\
    aligned4 pk /\ Forall fourFactors mats /\
    GlTF_BufferViews doc = gltfBufferViews pk /\
    GlTF_Accessors doc = gltfAccessors pk /\
    GlTF_Materials doc = mats /\
    exists buffer0, GlTF_Buffers doc = [buffer0] /\ GltfBuffer_Bytes buffer0 = outBuf pk.
Proof.
  destruct (ToGltfDoc_loop_invariant u32 vc loop_aligned
              (ToGltfDoc_body_aligned u32 vc) (Meshes model) Loop0 loop_aligned_Loop0)
    as ([[[pk mats] assocs] out] & Hloop & Hal & Hmats & ->).
  unfold ToGltfDoc_run. rewrite Hloop.
  eexists. exists pk, mats, assocs. split; [reflexivity|]. split; [reflexivity|].
  repeat split; try assumption; try apply Hal.
  eexists. split; reflexivity.
Qed.

(** C8. In every assembled document the byte offset of every buffer view
    (so of those of positions, normals, texture coordinates and vertex
    colors) is a multiple of 4; every append of the packer adds a multiple
    of 4 bytes, so the buffer ends on a multiple of 4 after each (the check
    of the assembler never prints); and both chunk lengths written into the
    binary container, as both padded payloads, are multiples of 4. *)
Theorem C8_alignment_of_views_buffer_and_chunks :
  forall (uint32_unrepresentable : spec_float -> Z) (json_text : json -> list Z)
         (base64_EncodeToString : list Z -> string)
         (vertexColors : bool) (model : Model) (atlas : list Z) (st : Packer),
    (forall v, len (outBuf (snd (getAccessorIndexFromVector2 st v))) mod 4
               = len (outBuf st) mod 4) /\
    (forall v, len (outBuf (snd (getAccessorIndexFromVector3 st v))) mod 4
               = len (outBuf st) mod 4) /\
    (forall v, len (outBuf (snd (getAccessorIndexFromVector4 st v))) mod 4
               = len (outBuf st) mod 4) /\
    (forall t, len (outBuf (snd (getAccessorIndexFromIndices uint32_unrepresentable st t)))
                 mod 4 = len (outBuf st) mod 4) /\
    match ToGltfDoc_run uint32_unrepresentable base64_EncodeToString vertexColors model atlas
    with
    | None => False
    | Some (gltfDoc, stdout) =>
        stdout = [] /\
        Forall (fun bv => BufferView_ByteOffset bv mod 4 = 0) (GlTF_BufferViews gltfDoc) /\
        exists buffer0,
          GlTF_Buffers gltfDoc = [buffer0] /\
          len (GltfBuffer_Bytes buffer0) mod 4 = 0 /\
          let outJSON := json_Marshal json_text gltfDoc in
          let sz := glbSizes_of outJSON (GltfBuffer_Bytes buffer0) in
          SerializeBinaryGlTF json_text gltfDoc
            = Some (glbBytes sz outJSON (GltfBuffer_Bytes buffer0)) /\
          outJSONSize sz mod 4 = 0 /\ outBufSize sz mod 4 = 0 /\
          len (outJSON ++ spaces (outJSONPaddingNeeded sz)) mod 4 = 0 /\
          len (GltfBuffer_Bytes buffer0 ++ nulls (outBufNullsNeeded sz)) mod 4 = 0
    end.
Proof.
  intros u32 jt b64 vc model atlas st.
  assert (Hadd : forall (w : list Z) (k n : Z), len w = k * n -> k mod 4 = 0 ->
                   len (outBuf st ++ w) mod 4 = len (outBuf st) mod 4).
  { intros w k n Hw Hk. rewrite len_app, Hw, Z.add_mod, (mul4_mod k n Hk) by lia.
    rewrite Z.add_0_r. apply Z.mod_mod. lia. }
  split; [|split; [|split; [|split]]].
  - intros v. destruct (getAccessorIndexFromVector2_appends st v) as (bv & acc & -> & _).
    apply (Hadd _ 8 (len v)); [apply len_flat_map_const, len_bytesOfVector2 | reflexivity].
  - intros v. destruct (getAccessorIndexFromVector3_appends st v) as (bv & acc & -> & _).
    apply (Hadd _ 12 (len v)); [apply len_flat_map_const, len_bytesOfVector3 | reflexivity].
  - intros v. destruct (getAccessorIndexFromVector4_appends st v) as (bv & acc & -> & _).
    apply (Hadd _ 16 (len v)); [apply len_flat_map_const, len_bytesOfVector4 | reflexivity].
  - intros t. destruct (getAccessorIndexFromIndices_appends u32 st t) as (bv & acc & -> & _).
    apply (Hadd _ 12 (len t)); [apply len_flat_map_const, len_bytesOfTriangle | reflexivity].
  - destruct (ToGltfDoc_run_aligned u32 b64 vc model atlas)
      as (doc & pk & mats & assocs & _ & -> & [Hlen Hviews] & _ & Hbv & _ & _ & b0 & Hb & Hbytes).
    split; [reflexivity|]. split; [now rewrite Hbv|].
    exists b0. split; [assumption|]. split; [now rewrite Hbytes|].
    split.
    + unfold SerializeBinaryGlTF. rewrite Hb. reflexivity.
    + apply glbSizes_of_mod4.
Qed.

(** ** The binary container *)

Lemma paddingNeeded_least (n : Z) : paddingNeeded (uint32 n) = (- n) mod 4.
Proof.
  destruct (paddingNeeded_uint32 n) as [Hr Hz].
  pose proof (Z.mod_pos_bound (- n) 4 ltac:(lia)) as Hb.
  assert (Hs : (n + (- n) mod 4) mod 4 = 0).
  { rewrite Z.add_mod_idemp_r by lia. now replace (n + - n) with 0 by lia. }
  apply Z.mod_divide in Hz; [|lia]. apply Z.mod_divide in Hs; [|lia].
  destruct Hz as [a Ha]. destruct Hs as [b Hb']. lia.
Qed.

Lemma getUint32_putUint32 (v : Z) :
  0 <= v < 2 ^ 32 ->
  v mod 256 + (v / 2 ^ 8) mod 256 * 2 ^ 8 + (v / 2 ^ 16) mod 256 * 2 ^ 16
    + (v / 2 ^ 24) mod 256 * 2 ^ 24 = v.
Proof.
  intros Hv. change (2 ^ 8) with 256. change (2 ^ 16) with 65536.
  change (2 ^ 24) with 16777216. change (2 ^ 32) with 4294967296 in Hv.
  Z.div_mod_to_equations. lia.
Qed.

(** Reading back a 32-bit value where it was written. *)
Lemma uint32At_putUint32 (pre rest : list Z) (v : Z) :
  0 <= v < 2 ^ 32 -> uint32At (pre ++ putUint32 v ++ rest) (len pre) = v.
Proof.
  intros Hv. unfold uint32At, len.
  assert (Hk : forall k : Z, 0 <= k < 4 ->
            (pre ++ putUint32 v ++ rest) !! Z.to_nat (Z.of_nat (length pre) + k)
            = putUint32 v !! Z.to_nat k).
  { intros k Hk. replace (Z.to_nat (Z.of_nat (length pre) + k))
      with (length pre + Z.to_nat k)%nat by lia.
    rewrite lookup_app_r by lia.
    replace (length pre + Z.to_nat k - length pre)%nat with (Z.to_nat k) by lia.
    apply lookup_app_l. simpl. lia. }
  rewrite (Hk 0), (Hk 1), (Hk 2), (Hk 3) by lia.
  simpl. now apply getUint32_putUint32.
Qed.

Lemma len_bytes_of_string_glTF : len (bytes_of_string "glTF") = 4.
Proof. reflexivity. Qed.

Lemma len_bytes_of_string_JSON : len (bytes_of_string "JSON") = 4.
Proof. reflexivity. Qed.

Lemma len_BIN0 : len BIN0 = 4.
Proof. reflexivity. Qed.

(** The number of bytes written. *)
Lemma len_glbBytes (sz : glbSizes) (outJSON outBuf : list Z) :
  0 <= outJSONPaddingNeeded sz -> 0 <= outBufNullsNeeded sz ->
  len (glbBytes sz outJSON outBuf)
  = 28 + (len outJSON + outJSONPaddingNeeded sz) + (len outBuf + outBufNullsNeeded sz).
Proof.
  intros Hj Hb. unfold glbBytes.
  rewrite !len_app, !len_putUint32, len_bytes_of_string_glTF, len_bytes_of_string_JSON,
    len_BIN0, len_spaces, len_nulls by assumption.
  lia.
Qed.

Lemma uint32_add_l (a b : Z) : uint32 (uint32 a + b) = uint32 (a + b).
Proof. unfold uint32. apply Z.add_mod_idemp_l. lia. Qed.

Lemma len_paddedJSON (outJSON : list Z) :
  len (paddedJSON outJSON) = len outJSON + (- len outJSON) mod 4.
Proof.
  unfold paddedJSON. rewrite len_app, len_spaces; [reflexivity|].
  apply Z.mod_pos_bound. lia.
Qed.

Lemma len_paddedBIN (outBuf : list Z) :
  len (paddedBIN outBuf) = len outBuf + (- len outBuf) mod 4.
Proof.
  unfold paddedBIN. rewrite len_app, len_nulls; [reflexivity|].
  apply Z.mod_pos_bound. lia.
Qed.

(** The sizes that are computed when nothing wraps around. *)
Lemma glbSizes_of_exact (outJSON outBuf : list Z) :
  28 + len (paddedJSON outJSON) + len (paddedBIN outBuf) < 2 ^ 32 ->
  let sz := glbSizes_of outJSON outBuf in
  outJSONPaddingNeeded sz = (- len outJSON) mod 4 /\
  outBufNullsNeeded sz = (- len outBuf) mod 4 /\
  outJSONSize sz = len (paddedJSON outJSON) /\
  outBufSize sz = len (paddedBIN outBuf) /\
  glbSize sz = 28 + len (paddedJSON outJSON) + len (paddedBIN outBuf).
Proof.
  rewrite len_paddedJSON, len_paddedBIN. intros Hfit.
  pose proof (Z.mod_pos_bound (- len outJSON) 4 ltac:(lia)) as Hpj.
  pose proof (Z.mod_pos_bound (- len outBuf) 4 ltac:(lia)) as Hpb.
  pose proof (len_nonneg outJSON) as Hj0. pose proof (len_nonneg outBuf) as Hb0.
  simpl. rewrite !paddingNeeded_least.
  rewrite (uint32_small (len outJSON)), (uint32_small (len outBuf)) by lia.
  rewrite (uint32_small (len outJSON + _)), (uint32_small (len outBuf + _)) by lia.
  repeat split; try reflexivity.
  repeat (rewrite <- ?Z.add_assoc; rewrite uint32_add_l).
  rewrite uint32_small; lia.
Qed.

(** The layout of the container of a document with the buffer [buffer0],
    whatever its size. *)
Lemma SerializeBinaryGlTF_layout json_text gltfDoc buffer0 :
  GlTF_Buffers gltfDoc !! 0%nat = Some buffer0 ->
  SerializeBinaryGlTF json_text gltfDoc
  = Some (glbBytes (glbSizes_of (json_Marshal json_text gltfDoc) (GltfBuffer_Bytes buffer0))
                   (json_Marshal json_text gltfDoc) (GltfBuffer_Bytes buffer0)).
Proof.
  intros H. unfold SerializeBinaryGlTF. now rewrite H.
Qed.

(** C1 (amended). For every document with a buffer whose container stays
    below [2 ^ 32] bytes, [SerializeBinaryGlTF] returns, in this order: the
    bytes of "glTF", the little-endian 32-bit value 2, the little-endian
    total length, the JSON chunk (its length, the bytes of "JSON", the JSON
    text padded with spaces to a multiple of 4) and the binary chunk (its
    length, the bytes of "BIN" and a null byte, the buffer padded with null
    bytes to a multiple of 4); each length that is declared is the length
    of the padded payload, and the total length declared is the number of
    bytes returned. *)
Theorem C1_glb_layout_below_4GiB :
  forall (json_text : json -> list Z) (gltfDoc : GlTF) (buffer0 : GltfBuffer),
    GlTF_Buffers gltfDoc !! 0%nat = Some buffer0 ->
    28 + len (paddedJSON (json_Marshal json_text gltfDoc))
       + len (paddedBIN (GltfBuffer_Bytes buffer0)) < 2 ^ 32 ->
    exists out,
      SerializeBinaryGlTF json_text gltfDoc = Some out /\
      out = bytes_of_string "glTF"
              ++ putUint32 2
              ++ putUint32 (len out)
              ++ putUint32 (len (paddedJSON (json_Marshal json_text gltfDoc)))
              ++ bytes_of_string "JSON"
              ++ paddedJSON (json_Marshal json_text gltfDoc)
              ++ putUint32 (len (paddedBIN (GltfBuffer_Bytes buffer0)))
              ++ BIN0
              ++ paddedBIN (GltfBuffer_Bytes buffer0) /\
      len (paddedJSON (json_Marshal json_text gltfDoc)) mod 4 = 0 /\
      len (paddedBIN (GltfBuffer_Bytes buffer0)) mod 4 = 0 /\
      uint32At out 4 = 2 /\
      uint32At out 8 = len out /\
      uint32At out 12 = len (paddedJSON (json_Marshal json_text gltfDoc)) /\
      uint32At out (20 + len (paddedJSON (json_Marshal json_text gltfDoc)))
        = len (paddedBIN (GltfBuffer_Bytes buffer0)).
Proof.
  intros jt doc b0 Hb Hfit.
  set (j := json_Marshal jt doc) in *. set (b := GltfBuffer_Bytes b0) in *.
  destruct (glbSizes_of_exact j b Hfit) as (Hpj & Hpb & Hjs & Hbs & Hg).
  pose proof (Z.mod_pos_bound (- len j) 4 ltac:(lia)) as Hpj0.
  pose proof (Z.mod_pos_bound (- len b) 4 ltac:(lia)) as Hpb0.
  pose proof (len_nonneg (paddedJSON j)) as Hj0.
  pose proof (len_nonneg (paddedBIN b)) as Hb0.
  assert (Hlen : len (glbBytes (glbSizes_of j b) j b)
                 = 28 + len (paddedJSON j) + len (paddedBIN b)).
  { rewrite len_glbBytes by (rewrite ?Hpj, ?Hpb; lia).
    rewrite Hpj, Hpb, len_paddedJSON, len_paddedBIN. reflexivity. }
  assert (Hout : glbBytes (glbSizes_of j b) j b
                 = bytes_of_string "glTF" ++ putUint32 2
                     ++ putUint32 (len (glbBytes (glbSizes_of j b) j b))
                     ++ putUint32 (len (paddedJSON j)) ++ bytes_of_string "JSON"
                     ++ paddedJSON j ++ putUint32 (len (paddedBIN b)) ++ BIN0
                     ++ paddedBIN b).
  { rewrite Hlen. unfold glbBytes. rewrite Hpj, Hpb, Hjs, Hbs, Hg.
    unfold paddedJSON, paddedBIN. now rewrite <- !app_assoc. }
  exists (glbBytes (glbSizes_of j b) j b).
  split; [now apply SerializeBinaryGlTF_layout|].
  split; [exact Hout|].
  split; [rewrite len_paddedJSON; rewrite Z.add_mod_idemp_r by lia;
          now replace (len j + - len j) with 0 by lia|].
  split; [rewrite len_paddedBIN; rewrite Z.add_mod_idemp_r by lia;
          now replace (len b + - len b) with 0 by lia|].
  set (g := 28 + len (paddedJSON j) + len (paddedBIN b)) in *.
  pose proof Hout as Hout'. rewrite Hlen in Hout'.
  rewrite Hlen. rewrite Hout'. clear Hout Hout'.
  split; [|split; [|split]].
  - apply (uint32At_putUint32 (bytes_of_string "glTF") _ 2). lia.
  - rewrite (app_assoc (bytes_of_string "glTF")).
    apply (uint32At_putUint32 (bytes_of_string "glTF" ++ putUint32 2) _ g). lia.
  - rewrite (app_assoc (putUint32 2)), (app_assoc (bytes_of_string "glTF")).
    apply (uint32At_putUint32 (bytes_of_string "glTF" ++ putUint32 2 ++ putUint32 g)
             _ (len (paddedJSON j))). lia.
  - replace (bytes_of_string "glTF" ++ putUint32 2 ++ putUint32 g
               ++ putUint32 (len (paddedJSON j)) ++ bytes_of_string "JSON" ++ paddedJSON j
               ++ putUint32 (len (paddedBIN b)) ++ BIN0 ++ paddedBIN b)
      with ((bytes_of_string "glTF" ++ putUint32 2 ++ putUint32 g
               ++ putUint32 (len (paddedJSON j)) ++ bytes_of_string "JSON" ++ paddedJSON j)
              ++ putUint32 (len (paddedBIN b)) ++ BIN0 ++ paddedBIN b)
      by (now rewrite <- !app_assoc).
    replace (20 + len (paddedJSON j))
      with (len (bytes_of_string "glTF" ++ putUint32 2 ++ putUint32 g
                   ++ putUint32 (len (paddedJSON j)) ++ bytes_of_string "JSON"
                   ++ paddedJSON j)).
    + apply uint32At_putUint32. lia.
    + rewrite !len_app, !len_putUint32, len_bytes_of_string_glTF,
        len_bytes_of_string_JSON. lia.
Qed.

Lemma C1_glb_layout_below_4GiB_witness :
  exists out,
    SerializeBinaryGlTF (fun _ => [123; 125]) smallDoc = Some out /\
    uint32At out 8 = len out /\ uint32At out 12 = 4 /\ uint32At out 24 = 4.
Proof.
  destruct (C1_glb_layout_below_4GiB (fun _ => [123; 125]) smallDoc _ eq_refl)
    as (out & Hs & _ & _ & _ & _ & Ht & Hj & Hb).
  - vm_compute. reflexivity.
  - exists out. repeat split; assumption.
Defined.

(** From [2 ^ 32] bytes of buffer on, the total length that is declared is
    not the number of bytes returned, and the length declared for the
    binary chunk is not that of its payload. *)
Lemma SerializeBinaryGlTF_wraps json_text gltfDoc buffer0 :
  GlTF_Buffers gltfDoc !! 0%nat = Some buffer0 ->
  2 ^ 32 <= len (GltfBuffer_Bytes buffer0) ->
  exists out,
    SerializeBinaryGlTF json_text gltfDoc = Some out /\
    uint32At out 8 <> len out /\
    outBufSize (glbSizes_of (json_Marshal json_text gltfDoc) (GltfBuffer_Bytes buffer0))
      <> len (paddedBIN (GltfBuffer_Bytes buffer0)).
Proof.
  intros Hb Hbig.
  set (j := json_Marshal json_text gltfDoc). set (b := GltfBuffer_Bytes buffer0) in *.
  exists (glbBytes (glbSizes_of j b) j b).
  split; [now apply SerializeBinaryGlTF_layout|].
  destruct (paddingNeeded_uint32 (len j)) as [Hpj _].
  destruct (paddingNeeded_uint32 (len b)) as [Hpb _].
  pose proof (len_nonneg j) as Hj0.
  split.
  - rewrite len_glbBytes by (simpl; lia).
    unfold glbBytes. rewrite (app_assoc (bytes_of_string "glTF")).
    change 8 with (len (bytes_of_string "glTF" ++ putUint32 2)).
    rewrite uint32At_putUint32 by apply uint32_range.
    pose proof (uint32_range
                  (uint32 (uint32 (uint32 (uint32 (uint32 (uint32 (uint32 (uint32 (0 + 4) + 4)
                     + 4) + 4) + 4) + outJSONSize (glbSizes_of j b)) + 4) + 4)
                     + outBufSize (glbSizes_of j b))) as Hr.
    change (glbSize (glbSizes_of j b)) with
      (uint32 (uint32 (uint32 (uint32 (uint32 (uint32 (uint32 (uint32 (uint32 (0 + 4) + 4)
                     + 4) + 4) + 4) + outJSONSize (glbSizes_of j b)) + 4) + 4)
                     + outBufSize (glbSizes_of j b))).
    simpl outJSONPaddingNeeded. simpl outBufNullsNeeded. lia.
  - rewrite len_paddedBIN.
    pose proof (Z.mod_pos_bound (- len b) 4 ltac:(lia)) as Hm.
    pose proof (uint32_range (uint32 (len b) + paddingNeeded (uint32 (len b)))) as Hr.
    simpl outBufSize. lia.
Qed.

Lemma ToGltfDoc_loop_one u32 vc mesh st :
  ToGltfDoc_loop u32 vc [mesh] st = ToGltfDoc_body u32 vc st mesh.
Proof.
  simpl. now destruct (ToGltfDoc_body u32 vc st mesh).
Qed.

(** The index data of a mesh is part of the buffer. *)
Lemma len_outBuf_packMesh u32 vc pk mesh :
  len (outBuf pk) + 12 * len (Faces mesh) <= len (outBuf (packMesh u32 vc pk mesh)).
Proof.
  unfold packMesh.
  destruct (getAccessorIndexFromIndices_appends u32 pk (Faces mesh)) as (? & ? & H1 & _).
  set (pk1 := snd (getAccessorIndexFromIndices u32 pk (Faces mesh))) in *.
  destruct (getAccessorIndexFromVector3_appends pk1 (getVertices mesh)) as (? & ? & H2 & _).
  set (pk2 := snd (getAccessorIndexFromVector3 pk1 (getVertices mesh))) in *.
  destruct (getAccessorIndexFromVector3_appends pk2 (getNormals mesh)) as (? & ? & H3 & _).
  set (pk3 := snd (getAccessorIndexFromVector3 pk2 (getNormals mesh))) in *.
  assert (H123 : len (outBuf pk) + 12 * len (Faces mesh) <= len (outBuf pk3)).
  { rewrite H3, H2, H1, !len_app.
    rewrite (len_flat_map_const bytesOfTriangle 12) by apply len_bytesOfTriangle.
    pose proof (len_nonneg (flat_map bytesOfVector3 (getVertices mesh))).
    pose proof (len_nonneg (flat_map bytesOfVector3 (getNormals mesh))). lia. }
  destruct (negb vc).
  - destruct (getAccessorIndexFromVector2_appends pk3 (getUVCoords mesh)) as (? & ? & H4 & _).
    rewrite H4, len_app.
    pose proof (len_nonneg (flat_map bytesOfVector2 (getUVCoords mesh))). lia.
  - destruct (getAccessorIndexFromVector4_appends pk3 (getVertexColors mesh))
      as (? & ? & H4 & _).
    rewrite H4, len_app.
    pose proof (len_nonneg (flat_map bytesOfVector4 (getVertexColors mesh))). lia.
Qed.

Lemma len_Faces_hugeFaces : len (Faces hugeFaces) = 357913942.
Proof.
  change (Faces hugeFaces)
    with (repeat {| TriangleIndices := (0, 0, 0) |} (Z.to_nat 357913942)).
  unfold len. rewrite repeat_length. apply Z2Nat.id. lia.
Qed.

(** The document of a model of one mesh: its buffer holds the index data
    of the mesh. *)
Lemma ToGltfDoc_one_mesh_buffer u32 b64 vc mesh atlas :
  exists doc buffer0,
    ToGltfDoc u32 b64 vc {| Meshes := [mesh] |} atlas = Some doc /\
    GlTF_Buffers doc !! 0%nat = Some buffer0 /\
    12 * len (Faces mesh) <= len (GltfBuffer_Bytes buffer0).
Proof.
  destruct (ToGltfDoc_run_aligned u32 b64 vc {| Meshes := [mesh] |} atlas)
    as (doc & pk & mats & assocs & Hloop & Hrun & _ & _ & _ & _ & _ & b0 & Hb & Hbytes).
  exists doc, b0. split; [unfold ToGltfDoc; now rewrite Hrun|].
  split; [now rewrite Hb|].
  change (Meshes {| Meshes := [mesh] |}) with [mesh] in Hloop.
  rewrite ToGltfDoc_loop_one in Hloop. unfold Loop0 in Hloop.
  rewrite ToGltfDoc_body_unfold in Hloop.
  destruct (addMaterial (assembledMaterial vc mesh) []) as [[mi mats']|];
    [|discriminate Hloop].
  injection Hloop as Hpk _ _.
  pose proof (len_outBuf_packMesh u32 vc
                {| outBuf := []; gltfBufferViews := []; gltfAccessors := [] |} mesh) as Hlen.
  rewrite Hpk in Hlen. rewrite Hbytes.
  change (len (outBuf {| outBuf := []; gltfBufferViews := []; gltfAccessors := [] |}))
    with 0 in Hlen.
  lia.
Qed.

(** A model of one mesh with [2 ^ 32] bytes of index data or more: the
    total length declared in its container is not the number of bytes of
    the container. *)
Lemma SerializeBinaryGlTF_wraps_one_mesh u32 b64 json_text vc mesh atlas :
  2 ^ 32 <= 12 * len (Faces mesh) ->
  match ToGltfDoc u32 b64 vc {| Meshes := [mesh] |} atlas with
  | Some gltfDoc =>
      match SerializeBinaryGlTF json_text gltfDoc with
      | Some out => uint32At out 8 <> len out
      | None => False
      end
  | None => False
  end.
Proof.
  intros Hbig.
  destruct (ToGltfDoc_one_mesh_buffer u32 b64 vc mesh atlas) as (doc & b0 & -> & Hb & Hlen).
  destruct (SerializeBinaryGlTF_wraps json_text doc b0 Hb ltac:(lia)) as (out & -> & Hne & _).
  exact Hne.
Qed.

(** C1, as stated, fails on the document assembled from a mesh of
    357913942 triangles: its buffer has more than [2 ^ 32] bytes, and the
    total length declared in the container is not the number of bytes of
    the container. *)
Lemma C1_counterexample_4GiB_buffer :
  match ToGltfDoc (fun _ => 0) (fun _ => ""%string) true {| Meshes := [hugeFaces] |} [] with
  | Some gltfDoc =>
      match SerializeBinaryGlTF (fun _ => [123; 125]) gltfDoc with
      | Some out => uint32At out 8 <> len out
      | None => False
      end
  | None => False
  end.
Proof.
  apply SerializeBinaryGlTF_wraps_one_mesh.
  rewrite len_Faces_hugeFaces. lia.
Qed.

(** ** The derived material *)

(** C6. The material derived from a source material has the alpha mode
    "BLEND" exactly when the opacity is below 1 and none otherwise, is
    double-sided, has the roughness factor [1 - specularPower / 128] and
    the metallic factor 0; its JSON says the same. *)
Theorem C6_gltfMaterial_fields :
  forall material : Material,
    GltfMaterial_AlphaMode (gltfMaterial material)
      = (if F32.ltb (Opacity material) (F32.of_Z 1) then any_string "BLEND" else any_nil) /\
    GltfMaterial_DoubleSided (gltfMaterial material) = true /\
    Pbr_RoughnessFactor (pbr (gltfMaterial material))
      = F64.sub (F64.of_Z 1)
                (F64.div (float64_of_float32 (SpecularPower material)) (F64.of_Z 128)) /\
    Pbr_MetallicFactor (pbr (gltfMaterial material)) = S754_zero false /\
    json_field "alphaMode" (json_GltfMaterial (gltfMaterial material))
      = (if F32.ltb (Opacity material) (F32.of_Z 1) then Some (JString "BLEND") else None) /\
    json_field "doubleSided" (json_GltfMaterial (gltfMaterial material)) = Some (JBool true) /\
    (json_field "pbrMetallicRoughness" (json_GltfMaterial (gltfMaterial material))
       ≫= json_field "metallicFactor") = Some (JFloat64 (S754_zero false)).
Proof.
  intros material. unfold gltfMaterial, pbr.
  destruct (F32.ltb (Opacity material) (F32.of_Z 1)); repeat split; reflexivity.
Qed.

(** ** The mesh consolidator *)

Lemma int32_add_int32 (a b : Z) : int32 (a + int32 b) = int32 (a + b).
Proof.
  unfold int32. f_equal.
  replace (a + ((b + 2 ^ 31) mod 2 ^ 32 - 2 ^ 31) + 2 ^ 31)
    with (a + (b + 2 ^ 31) mod 2 ^ 32) by lia.
  rewrite Z.add_mod_idemp_r by lia. f_equal. lia.
Qed.

Lemma int32_small (z : Z) : in_int32 z -> int32 z = z.
Proof.
  unfold in_int32, int32. intros H. rewrite Z.mod_small; lia.
Qed.

Lemma appendFaces_spec (vertexOffset : Z) (finalFaces faces : list Triangle) :
  appendFaces vertexOffset finalFaces faces
  = finalFaces ++ map (shiftTriangle vertexOffset) faces.
Proof.
  unfold appendFaces. apply (fold_left_snoc (shiftTriangle vertexOffset)).
Qed.

Lemma atlas_loop_spec u8 (meshes : list Geometry) :
  forall i img finalVertices finalFaces,
    atlas_loop u8 i meshes (img, finalVertices, finalFaces)
    = (atlasImage u8 i meshes img,
       finalVertices ++ atlasVertices i meshes,
       finalFaces ++ consolidatedFaces (len finalVertices) meshes).
Proof.
  induction meshes as [|mesh rest IH]; intros i img fv ff.
  - simpl. now rewrite !app_nil_r.
  - simpl atlas_loop. unfold atlas_body.
    rewrite (fold_left_snoc (fun vertex => set_UV vertex (atlasUV i))).
    rewrite appendFaces_spec, IH.
    rewrite len_app, len_map. simpl. now rewrite <- !app_assoc.
Qed.

Lemma vertexColor_loop_spec (meshes : list Geometry) :
  forall finalVertices finalFaces,
    fold_left vertexColor_body meshes (finalVertices, finalFaces)
    = (finalVertices ++ remappedVertices meshes,
       finalFaces ++ consolidatedFaces (len finalVertices) meshes).
Proof.
  induction meshes as [|mesh rest IH]; intros fv ff.
  - simpl. now rewrite !app_nil_r.
  - simpl fold_left. unfold vertexColor_body at 1.
    rewrite (fold_left_snoc (fun vertex => set_Color vertex (remapColor (Color vertex)))).
    rewrite appendFaces_spec, IH.
    rewrite len_app, len_map. simpl. now rewrite <- !app_assoc.
Qed.

(** What [optimizeModel] returns in each case. *)
Lemma optimizeModel_spec u8 png (vertexColors : bool) (meshes : Model) :
  optimizeModel u8 png vertexColors meshes
  = ({| Meshes :=
          [ {| Vertices := if vertexColors then remappedVertices (Meshes meshes)
                           else atlasVertices 0 (Meshes meshes);
               Faces := consolidatedFaces 0 (Meshes meshes);
               Material_ := flatMaterial |} ] |},
     if vertexColors then []
     else png (atlasImage u8 0 (Meshes meshes) (NewRGBA 32 32))).
Proof.
  unfold optimizeModel. destruct vertexColors; simpl negb; cbv iota.
  - rewrite vertexColor_loop_spec. reflexivity.
  - rewrite atlas_loop_spec. reflexivity.
Qed.

Lemma len_consolidatedFaces (meshes : list Geometry) :
  forall count, len (consolidatedFaces count meshes) = totalFaces meshes.
Proof.
  induction meshes as [|mesh rest IH]; intros count; simpl.
  - reflexivity.
  - now rewrite len_app, len_map, IH.
Qed.

Lemma len_atlasVertices (meshes : list Geometry) :
  forall i, len (atlasVertices i meshes) = totalVertices meshes.
Proof.
  induction meshes as [|mesh rest IH]; intros i; simpl.
  - reflexivity.
  - now rewrite len_app, len_map, IH.
Qed.

Lemma len_remappedVertices (meshes : list Geometry) :
  len (remappedVertices meshes) = totalVertices meshes.
Proof.
  induction meshes as [|mesh rest IH]; simpl.
  - reflexivity.
  - now rewrite len_app, len_map, IH.
Qed.

Lemma shiftTriangle_exact (count : Z) (t : Triangle) :
  in_int32 (TriangleIndices0 t + count) /\ in_int32 (TriangleIndices1 t + count) /\
  in_int32 (TriangleIndices2 t + count) ->
  shiftTriangle (int32 count) t = addToTriangle count t.
Proof.
  intros (H0 & H1 & H2). unfold shiftTriangle, addToTriangle.
  rewrite !int32_add_int32, !int32_small by assumption. reflexivity.
Qed.

Lemma consolidatedFaces_exact (meshes : list Geometry) :
  forall count, noOverflow count meshes ->
    consolidatedFaces count meshes = exactFaces count meshes.
Proof.
  induction meshes as [|mesh rest IH]; intros count H; simpl.
  - reflexivity.
  - destruct H as (_ & Hf & Hrest). rewrite (IH _ Hrest). f_equal.
    induction Hf as [|t faces Ht Hf IHf]; simpl.
    + reflexivity.
    + now rewrite IHf, shiftTriangle_exact.
Qed.

(** Indices into the vertices of their mesh do not overflow as long as the
    model has fewer than [2 ^ 31] vertices. *)
Lemma noOverflow_of_inRange (meshes : list Geometry) :
  forall count, 0 <= count -> count + totalVertices meshes < 2 ^ 31 ->
    Forall inRange meshes -> noOverflow count meshes.
Proof.
  induction meshes as [|mesh rest IH]; intros count Hc Hsum Hall; simpl.
  - exact I.
  - simpl in Hsum. inversion Hall as [|? ? Hmesh Hrest]; subst.
    pose proof (len_nonneg (Vertices mesh)) as Hv.
    assert (Ht : 0 <= totalVertices rest).
    { clear. induction rest as [|m r IHr]; simpl; [lia|].
      pose proof (len_nonneg (Vertices m)). lia. }
    split; [unfold in_int32; lia|]. split.
    + unfold inRange in Hmesh. eapply Forall_impl; [exact Hmesh|].
      intros t (H0 & H1 & H2). unfold in_int32. simpl. lia.
    + apply IH; [lia | lia | assumption].
Qed.

(** C2 (amended). For every model and either color mode the output of
    [optimizeModel] has exactly one mesh; it has as many triangles as all
    source meshes together and as many vertices; each triangle it appends
    has the indices of the source triangle plus the running vertex count
    of the time its mesh was processed, in [int32] arithmetic, which is
    the sum itself as long as that fits [int32]. *)
Theorem C2_consolidated_counts_and_offsets :
  forall (uint8_unrepresentable : spec_float -> Z) (png_Encode : RGBA -> list Z)
         (vertexColors : bool) (model : Model),
    exists vertices : list Vertex,
      fst (optimizeModel uint8_unrepresentable png_Encode vertexColors model)
        = {| Meshes := [ {| Vertices := vertices;
                            Faces := consolidatedFaces 0 (Meshes model);
                            Material_ := flatMaterial |} ] |} /\
      len vertices = totalVertices (Meshes model) /\
      len (consolidatedFaces 0 (Meshes model)) = totalFaces (Meshes model) /\
      (noOverflow 0 (Meshes model) ->
       consolidatedFaces 0 (Meshes model) = exactFaces 0 (Meshes model)).
Proof.
  intros u8 png vc model. rewrite optimizeModel_spec. simpl fst.
  eexists. split; [reflexivity|]. split; [|split].
  - destruct vc; [apply len_remappedVertices | apply len_atlasVertices].
  - apply len_consolidatedFaces.
  - apply consolidatedFaces_exact.
Qed.

Lemma C2_consolidated_counts_and_offsets_witness :
  noOverflow 0 [exampleMesh; oneTriangle] /\
  consolidatedFaces 0 [exampleMesh; oneTriangle]
  = [ {| TriangleIndices := (0, 1, 2) |}; {| TriangleIndices := (3, 3, 3) |} ].
Proof.
  assert (H : noOverflow 0 [exampleMesh; oneTriangle]).
  { apply noOverflow_of_inRange; [lia | vm_compute; reflexivity |].
    apply Forall_cons_2; [|apply Forall_cons_2; [|apply Forall_nil_2]];
      (apply Forall_cons_2; [|apply Forall_nil_2]);
      cbv; repeat split; (reflexivity || discriminate). }
  split; [exact H|].
  destruct (C2_consolidated_counts_and_offsets (fun _ => 0) (fun _ => []) true
              {| Meshes := [exampleMesh; oneTriangle] |}) as (vs & _ & _ & _ & Hexact).
  simpl Meshes in Hexact. rewrite (Hexact H). reflexivity.
Defined.

Lemma consolidatedFaces_two (m0 m1 : Geometry) :
  Faces m0 = [] ->
  consolidatedFaces 0 [m0; m1]
  = map (shiftTriangle (int32 (len (Vertices m0)))) (Faces m1).
Proof.
  intros H. simpl. rewrite H. simpl. now rewrite app_nil_r.
Qed.

Lemma exactFaces_two (m0 m1 : Geometry) :
  Faces m0 = [] ->
  exactFaces 0 [m0; m1] = map (addToTriangle (len (Vertices m0))) (Faces m1).
Proof.
  intros H. simpl. rewrite H. simpl. now rewrite app_nil_r.
Qed.

Lemma len_Vertices_hugeVertices : len (Vertices hugeVertices) = 2147483648.
Proof.
  change (Vertices hugeVertices) with (repeat zeroVertex (Z.to_nat 2147483648)).
  unfold len. rewrite repeat_length. apply Z2Nat.id. lia.
Qed.

(** C2, as stated, fails on a model of a mesh of [2 ^ 31] vertices
    followed by a mesh with the face (0, 0, 0): the face that is appended
    has the indices [- 2 ^ 31], not 0 plus the running vertex count
    [2 ^ 31]. *)
Lemma C2_counterexample_2G_vertices :
  Faces <$> Meshes (fst (optimizeModel (fun _ => 0) (fun _ => []) true
                           {| Meshes := [hugeVertices; oneTriangle] |}))
    = [ [ {| TriangleIndices := (-2147483648, -2147483648, -2147483648) |} ] ] /\
  exactFaces 0 [hugeVertices; oneTriangle]
    = [ {| TriangleIndices := (2147483648, 2147483648, 2147483648) |} ].
Proof.
  split.
  - rewrite optimizeModel_spec.
    change (Meshes {| Meshes := [hugeVertices; oneTriangle] |})
      with [hugeVertices; oneTriangle].
    rewrite (consolidatedFaces_two hugeVertices oneTriangle eq_refl).
    rewrite len_Vertices_hugeVertices. reflexivity.
  - rewrite (exactFaces_two hugeVertices oneTriangle eq_refl).
    rewrite len_Vertices_hugeVertices. reflexivity.
Qed.

(** ** The texture atlas *)


Lemma atlas32_NewRGBA : atlas32 (NewRGBA 32 32).
Proof. repeat split. Qed.

Lemma atlas32_RGBA_Set img x y c : atlas32 img -> atlas32 (RGBA_Set img x y c).
Proof.
  intros (Hs & Hr & Hl). unfold RGBA_Set.
  destruct (In_Rect img x y); [|now repeat split].
  destruct c as [[[r g] b] a]. repeat split; simpl; try assumption.
  now rewrite !length_insert.
Qed.

Lemma In_Rect_atlas32 img x y :
  atlas32 img -> In_Rect img x y = true <-> (0 <= x < 32 /\ 0 <= y < 32).
Proof.
  intros (_ & Hr & _). unfold In_Rect. rewrite Hr. simpl. lia.
Qed.





Lemma uint8_of_float_is_byte u8 x : is_byte (uint8_of_float u8 x).
Proof.
  unfold is_byte, uint8_of_float.
  pose proof (Z.mod_pos_bound (u8 x) (2 ^ 8) ltac:(lia)) as Hm.
  change (2 ^ 8) with 256 in *.
  destruct (float_trunc x) as [t|]; [|exact Hm].
  destruct ((0 <=? t) && (t <=? 255)) eqn:Ht; [lia | exact Hm].
Qed.


(** The pixel of a mesh of diffuse color (1, 0, 0) and opacity 1: the
    red channel is 0.85 * 255 and the other two 0.04 * 255, truncated. *)
Lemma atlasColor_red u8 :
  atlasColor u8 {| Vertices := []; Faces := [];
                   Material_ :=
                     {| AmbientColor := one3;
                        DiffuseColor := (F32.of_Z 1, S754_zero false, S754_zero false);
                        SpecularColor := one3; SpecularPower := S754_zero false;
                        EmissiveColor := one3; Opacity := F32.of_Z 1 |} |}
  = (216, 10, 10, 255).
Proof. reflexivity. Qed.



(** ** The keys of the JSON of a document *)

Lemma nokey_fields_nil : nokey_fields [].
Proof. intros []. Qed.

Lemma nokey_fields_app (a b : list (string * json)) :
  nokey_fields a -> nokey_fields b -> nokey_fields (a ++ b).
Proof.
  unfold nokey_fields, nokey. simpl. rewrite flat_map_app, in_app_iff. tauto.
Qed.

Lemma nokey_kv (k : string) (v : json) :
  k <> "baseColorFactor"%string -> nokey v -> nokey_fields (kv k v).
Proof.
  unfold nokey_fields, nokey, kv. simpl. rewrite app_nil_r. intros Hk Hv [H|H]; auto.
Qed.

Lemma nokey_kv_omitempty (k : string) (empty : bool) (v : json) :
  k <> "baseColorFactor"%string -> nokey v -> nokey_fields (kv_omitempty k empty v).
Proof.
  intros Hk Hv. unfold kv_omitempty. destruct empty; [apply nokey_fields_nil|].
  now apply (nokey_kv k v).
Qed.

Lemma nokey_JArray (items : list json) : Forall nokey items -> nokey (JArray items).
Proof.
  unfold nokey. simpl. induction 1 as [|j items Hj _ IH]; simpl; [tauto|].
  rewrite in_app_iff. tauto.
Qed.

Lemma nokey_kv_slice (k : string) (items : list json) :
  k <> "baseColorFactor"%string -> Forall nokey items -> nokey_fields (kv_slice k items).
Proof.
  intros Hk Hitems. apply nokey_kv_omitempty; [assumption|]. now apply nokey_JArray.
Qed.

Lemma Forall_nokey_map {A : Type} (f : A -> json) (l : list A) :
  Forall (fun x => nokey (f x)) l -> Forall nokey (map f l).
Proof. induction 1; simpl; constructor; assumption. Qed.

Lemma Forall_nokey_leaves {A : Type} (f : A -> json) (l : list A) :
  (forall x, json_keys (f x) = []) -> Forall nokey (map f l).
Proof.
  intros Hf. apply Forall_nokey_map. apply Forall_forall. intros x _.
  unfold nokey. rewrite Hf. intros [].
Qed.

Lemma In_insert_sorted {A : Type} (e x : string * A) (l : list (string * A)) :
  In x (insert_sorted e l) <-> x = e \/ In x l.
Proof.
  induction l as [|e' l IH]; simpl.
  - intuition.
  - destruct (String.leb (fst e) (fst e')); simpl; [intuition|]. rewrite IH. intuition.
Qed.

(** The keys of the JSON of a map are keys of the map. *)
Lemma json_keys_json_map (m : gmap string Z) (k : string) :
  In k (json_keys (json_map m)) -> is_Some (m !! k).
Proof.
  unfold json_map, sorted_entries. simpl. intros Hk.
  assert (Hin : exists v, In (k, v) (foldr insert_sorted [] (map_to_list m))).
  { revert Hk. generalize (foldr insert_sorted [] (map_to_list m)).
    induction l as [|[k' v'] l IH]; simpl; [tauto|].
    intros [<- | H]; [eauto|]. destruct (IH H) as [v Hv]. eauto. }
  destruct Hin as [v Hv]. exists v.
  apply elem_of_map_to_list, list_elem_of_In.
  revert Hv. generalize (map_to_list m).
  induction l as [|e l IH]; simpl; [tauto|].
  rewrite In_insert_sorted. intros [<- | H]; [now left | right; auto].
Qed.

Lemma nokey_json_map (m : gmap string Z) :
  m !! "baseColorFactor"%string = None -> nokey (json_map m).
Proof.
  intros Hm Hk. apply json_keys_json_map in Hk. rewrite Hm in Hk. now destruct Hk.
Qed.

Ltac nokey_leaf :=
  match goal with
  | |- nokey (JInt _) => intros []
  | |- nokey (JBool _) => intros []
  | |- nokey (JString _) => intros []
  | |- nokey (JFloat32 _) => intros []
  | |- nokey (JFloat64 _) => intros []
  | |- nokey JNull => intros []
  | |- nokey (json_any any_nil) => intros []
  | |- nokey (json_any (any_int _)) => intros []
  | |- nokey (json_any (any_string _)) => intros []
  | |- nokey (json_map _) =>
      apply nokey_json_map; rewrite ?lookup_insert_ne by discriminate; apply lookup_empty
  | |- nokey (json_any (any_map _)) =>
      apply nokey_json_map; rewrite ?lookup_insert_ne by discriminate; apply lookup_empty
  | |- Forall nokey (map JFloat32 _) => apply Forall_nokey_leaves; reflexivity
  | |- Forall nokey (map JFloat64 _) => apply Forall_nokey_leaves; reflexivity
  | |- Forall nokey (map JInt _) => apply Forall_nokey_leaves; reflexivity
  | |- Forall nokey (map JString _) => apply Forall_nokey_leaves; reflexivity
  | |- _ <> _ => discriminate
  end.

Ltac nokey_fields_tac :=
  unfold kv_any, kv_int, kv_bool, kv_string, kv_float64;
  repeat first
    [ assumption
    | nokey_leaf
    | apply nokey_fields_app
    | apply nokey_kv_slice
    | apply nokey_kv_omitempty
    | apply nokey_kv ].

Lemma nokey_json_any_Asset (x : Asset_ any) :
  nokey (json_any (Asset_Extensions x)) -> nokey (json_any (Asset_Extras x)) ->
  nokey (json_any (any_Asset x)).
Proof.
  intros He Hx. change (nokey_fields
    (kv_string "copyright" (Asset_Copyright x)
       ++ kv_omitempty "extensions" (is_nil (Asset_Extensions x)) (json_any (Asset_Extensions x))
       ++ kv_omitempty "extras" (is_nil (Asset_Extras x)) (json_any (Asset_Extras x))
       ++ kv_string "generator" (Asset_Generator x)
       ++ kv_string "minVersion" (Asset_MinVersion x)
       ++ kv_string "version" (Asset_Version x))).
  nokey_fields_tac.
Qed.

Lemma nokey_json_Accessor (a : Accessor) :
  nokey (json_any (Accessor_ComponentType a)) -> nokey (json_any (Accessor_Type a)) ->
  nokey (json_any (Accessor_Extensions a)) -> nokey (json_any (Accessor_Extras a)) ->
  nokey (json_any (Accessor_Name a)) -> nokey (json_any (Accessor_Sparse a)) ->
  nokey (json_Accessor a).
Proof. intros. unfold json_Accessor. fold (nokey_fields). nokey_fields_tac. Qed.

Lemma nokey_json_BufferView (b : BufferView) :
  nokey (json_any (BufferView_Extensions b)) -> nokey (json_any (BufferView_Extras b)) ->
  nokey (json_any (BufferView_Name b)) -> nokey (json_any (BufferView_Target b)) ->
  nokey (json_BufferView b).
Proof. intros. unfold json_BufferView. nokey_fields_tac. Qed.

Lemma nokey_json_GltfBuffer (b : GltfBuffer) :
  nokey (json_any (GltfBuffer_Extensions b)) -> nokey (json_any (GltfBuffer_Extras b)) ->
  nokey (json_any (GltfBuffer_Name b)) ->
  nokey (json_GltfBuffer b).
Proof. intros. unfold json_GltfBuffer. nokey_fields_tac. Qed.

Lemma nokey_json_GltfTexture (t : GltfTexture) :
  nokey (json_any (GltfTexture_Source t)) -> nokey (json_GltfTexture t).
Proof. intros. unfold json_GltfTexture. nokey_fields_tac. Qed.

Lemma nokey_json_GltfImage (i : GltfImage) : nokey (json_GltfImage i).
Proof. unfold json_GltfImage. nokey_fields_tac. Qed.

Lemma nokey_json_MaterialPbrMetallicRoughness (p : MaterialPbrMetallicRoughness) :
  nokey (json_any (Pbr_BaseColorTexture p)) -> nokey (json_any (Pbr_Extensions p)) ->
  nokey (json_any (Pbr_Extras p)) -> nokey (json_any (Pbr_MetallicRoughnessTexture p)) ->
  nokey (json_MaterialPbrMetallicRoughness p).
Proof. intros. unfold json_MaterialPbrMetallicRoughness. nokey_fields_tac. Qed.

Lemma nokey_json_GltfMaterial (m : GltfMaterial) :
  nokey (json_any (GltfMaterial_AlphaMode m)) ->
  nokey (json_any (GltfMaterial_EmissiveTexture m)) ->
  nokey (json_any (GltfMaterial_Extensions m)) -> nokey (json_any (GltfMaterial_Extras m)) ->
  nokey (json_any (GltfMaterial_Name m)) -> nokey (json_any (GltfMaterial_NormalTexture m)) ->
  nokey (json_any (GltfMaterial_OcclusionTexture m)) ->
  nokey (json_MaterialPbrMetallicRoughness (GltfMaterial_PbrMetallicRoughness m)) ->
  nokey (json_GltfMaterial m).
Proof. intros. unfold json_GltfMaterial. nokey_fields_tac. Qed.

Lemma nokey_json_MeshPrimitive (p : MeshPrimitive) :
  MeshPrimitive_Attributes p !! "baseColorFactor"%string = None ->
  nokey (json_MeshPrimitive p).
Proof.
  intros H. unfold json_MeshPrimitive. nokey_fields_tac. now apply nokey_json_map.
Qed.

Lemma nokey_json_Mesh (m : Mesh) :
  nokey (json_any (Mesh_Extensions m)) -> nokey (json_any (Mesh_Extras m)) ->
  Forall (fun p => nokey (json_MeshPrimitive p)) (Mesh_Primitives m) ->
  nokey (json_Mesh m).
Proof.
  intros. unfold json_Mesh. nokey_fields_tac. now apply Forall_nokey_map.
Qed.

Lemma nokey_json_Node (n : Node) :
  nokey (json_any (Node_Camera n)) -> nokey (json_any (Node_Extensions n)) ->
  nokey (json_any (Node_Extras n)) -> nokey (json_any (Node_Mesh n)) ->
  nokey (json_any (Node_Skin n)) ->
  nokey (json_Node n).
Proof. intros. unfold json_Node. nokey_fields_tac. Qed.

Lemma nokey_json_Scene (s : Scene) :
  nokey (json_any (Scene_Extensions s)) -> nokey (json_any (Scene_Extras s)) ->
  nokey (json_any (Scene_Name s)) ->
  nokey (json_Scene s).
Proof. intros. unfold json_Scene. nokey_fields_tac. Qed.

Lemma nokey_json_GlTF (d : GlTF) :
  Forall (fun a => nokey (json_Accessor a)) (GlTF_Accessors d) ->
  nokey (json_any (GlTF_Asset d)) ->
  Forall (fun b => nokey (json_GltfBuffer b)) (GlTF_Buffers d) ->
  Forall (fun b => nokey (json_BufferView b)) (GlTF_BufferViews d) ->
  nokey (json_any (GlTF_Extensions d)) ->
  Forall (fun m => nokey (json_GltfMaterial m)) (GlTF_Materials d) ->
  Forall (fun m => nokey (json_Mesh m)) (GlTF_Meshes d) ->
  Forall (fun n => nokey (json_Node n)) (GlTF_Nodes d) ->
  Forall (fun s => nokey (json_Scene s)) (GlTF_Scenes d) ->
  Forall (fun t => nokey (json_GltfTexture t)) (GlTF_Textures d) ->
  nokey (json_GlTF d).
Proof.
  intros. unfold json_GlTF. nokey_fields_tac; apply Forall_nokey_map; try assumption.
  apply Forall_forall. intros i _. apply nokey_json_GltfImage.
Qed.

(** The material the assembler makes of a mesh: the base color factor is
    (1, 1, 1, 1), the metallic factor 0, and its JSON has no such key. *)
Lemma assembledMaterial_fields vc mesh :
  Pbr_BaseColorFactor (pbr (assembledMaterial vc mesh)) = ones4 /\
  Pbr_MetallicFactor (pbr (assembledMaterial vc mesh)) = S754_zero false /\
  Pbr_RoughnessFactor (pbr (assembledMaterial vc mesh))
    = Pbr_RoughnessFactor (pbr (gltfMaterial (Material_ mesh))) /\
  nokey (json_GltfMaterial (assembledMaterial vc mesh)).
Proof.
  unfold assembledMaterial, gltfMaterial, pbr.
  destruct (F32.ltb (Opacity (Material_ mesh)) (F32.of_Z 1)); destruct vc;
    (repeat split;
     [apply nokey_json_GltfMaterial; simpl; try nokey_leaf;
      apply nokey_json_MaterialPbrMetallicRoughness; simpl; nokey_leaf]).
Qed.

Lemma nokey_meshPrimitive_of vc assoc : nokey (json_MeshPrimitive (meshPrimitive_of vc assoc)).
Proof.
  apply nokey_json_MeshPrimitive. unfold meshPrimitive_of.
  destruct vc; simpl; rewrite !lookup_insert_ne by discriminate; apply lookup_empty.
Qed.

Ltac nokey_append :=
  match goal with
  | |- context [?add ?buf ?data] =>
      match type of (add buf data) with
      | (list Z * _)%type => destruct (add buf data) as [buf' [mn mx]]
      end
  end;
  simpl; split; (apply Forall_app; split; [assumption|]);
  (apply Forall_cons_2; [|apply Forall_nil_2]);
  [apply nokey_json_Accessor | apply nokey_json_BufferView]; simpl; nokey_leaf.

Lemma nokey_getAccessorIndexFromVector2 st vectors :
  nokey_Packer st -> nokey_Packer (snd (getAccessorIndexFromVector2 st vectors)).
Proof.
  intros [Ha Hb]. unfold nokey_Packer, getAccessorIndexFromVector2. nokey_append.
Qed.

Lemma nokey_getAccessorIndexFromVector3 st vectors :
  nokey_Packer st -> nokey_Packer (snd (getAccessorIndexFromVector3 st vectors)).
Proof.
  intros [Ha Hb]. unfold nokey_Packer, getAccessorIndexFromVector3. nokey_append.
Qed.

Lemma nokey_getAccessorIndexFromVector4 st vectors :
  nokey_Packer st -> nokey_Packer (snd (getAccessorIndexFromVector4 st vectors)).
Proof.
  intros [Ha Hb]. unfold nokey_Packer, getAccessorIndexFromVector4. nokey_append.
Qed.

Lemma nokey_getAccessorIndexFromIndices u32 st indices :
  nokey_Packer st -> nokey_Packer (snd (getAccessorIndexFromIndices u32 st indices)).
Proof.
  intros [Ha Hb]. unfold nokey_Packer, getAccessorIndexFromIndices. nokey_append.
Qed.

Lemma nokey_packMesh u32 vc pk mesh : nokey_Packer pk -> nokey_Packer (packMesh u32 vc pk mesh).
Proof.
  intros H. unfold packMesh. destruct (negb vc).
  - now apply nokey_getAccessorIndexFromVector2, nokey_getAccessorIndexFromVector3,
      nokey_getAccessorIndexFromVector3, nokey_getAccessorIndexFromIndices.
  - now apply nokey_getAccessorIndexFromVector4, nokey_getAccessorIndexFromVector3,
      nokey_getAccessorIndexFromVector3, nokey_getAccessorIndexFromIndices.
Qed.

(** [addMaterial] leaves the list as it is or appends the material. *)
Lemma addMaterial_list material l i l' :
  addMaterial material l = Some (i, l') -> l' = l \/ l' = l ++ [material].
Proof.
  unfold addMaterial.
  destruct (addMaterial_scan material 0 l) as [[j|]|]; intros H; inversion H; auto.
Qed.

(** What holds before the loop and is kept by every round that returns
    holds after the loop. *)
Lemma ToGltfDoc_loop_preserves u32 vc (P : Loop -> Prop) :
  (forall st mesh st', P st -> ToGltfDoc_body u32 vc st mesh = Some st' -> P st') ->
  forall meshes st st', P st -> ToGltfDoc_loop u32 vc meshes st = Some st' -> P st'.
Proof.
  intros Hstep meshes. induction meshes as [|mesh meshes IH]; intros st st' Hst Hloop.
  - simpl in Hloop. now inversion Hloop; subst.
  - simpl in Hloop. destruct (ToGltfDoc_body u32 vc st mesh) as [st1|] eqn:Hbody;
      [|discriminate]. eapply IH; [|exact Hloop]. eapply Hstep; eauto.
Qed.

Lemma ToGltfDoc_body_assembled u32 vc st mesh st' :
  loop_assembled vc st -> ToGltfDoc_body u32 vc st mesh = Some st' -> loop_assembled vc st'.
Proof.
  destruct st as [[[pk mats] assocs] out]. intros [Hpk Hmats].
  rewrite ToGltfDoc_body_unfold.
  destruct (addMaterial (assembledMaterial vc mesh) mats) as [[mi mats']|] eqn:Hadd;
    [|discriminate].
  intros H. inversion H; subst. split; [now apply nokey_packMesh|].
  destruct (addMaterial_list _ _ _ _ Hadd) as [-> | ->]; [assumption|].
  apply Forall_app. split; [assumption|].
  apply Forall_cons_2; [eauto | apply Forall_nil_2].
Qed.

Lemma loop_assembled_Loop0 vc : loop_assembled vc Loop0.
Proof. simpl. repeat split; constructor. Qed.

Ltac nokey_doc Hpk Hmats :=
  apply nokey_json_GlTF;
  cbn [GlTF_Accessors GlTF_Asset GlTF_Buffers GlTF_BufferViews GlTF_Extensions
       GlTF_Materials GlTF_Meshes GlTF_Nodes GlTF_Scenes GlTF_Textures
       set_Meshes_Nodes set_Buffers];
  [ apply Hpk
  | apply nokey_json_any_Asset; simpl; nokey_leaf
  | apply Forall_cons_2; [apply nokey_json_GltfBuffer; simpl; nokey_leaf | apply Forall_nil_2]
  | apply Hpk
  | nokey_leaf
  | eapply Forall_impl; [exact Hmats|]; intros m [mesh ->]; apply assembledMaterial_fields
  | apply Forall_cons_2; [|apply Forall_nil_2];
    apply nokey_json_Mesh; simpl; try nokey_leaf;
    rewrite (fold_left_snoc (meshPrimitive_of _)); apply Forall_map, Forall_forall;
    intros assoc _; apply nokey_meshPrimitive_of
  | apply Forall_cons_2; [apply nokey_json_Node; simpl; nokey_leaf | apply Forall_nil_2]
  | apply Forall_cons_2; [apply nokey_json_Scene; simpl; nokey_leaf | apply Forall_nil_2]
  | match goal with
    | |- context [negb ?vc] =>
        destruct vc; simpl;
        [ apply Forall_nil_2
        | apply Forall_cons_2;
          [apply nokey_json_GltfTexture; simpl; nokey_leaf | apply Forall_nil_2] ]
    end ].

(** C9. The JSON of every document that is produced has no key
    "baseColorFactor", in the value the binary container renders as in
    the value the embedded text form renders (the document with its names
    and, for the text form, with the data URI of its buffer), although the
    base color factor of every material of the document is (1, 1, 1, 1). *)
Theorem C9_baseColorFactor_not_in_JSON :
  forall (uint32_unrepresentable : spec_float -> Z) (json_text json_text_indent : json -> list Z)
         (base64_EncodeToString : list Z -> string)
         (vertexColors : bool) (model : Model) (atlas : list Z) (filename : string),
    match ToGltfDoc uint32_unrepresentable base64_EncodeToString vertexColors model atlas with
    | None => False
    | Some gltfDoc =>
        Forall (fun m => Pbr_BaseColorFactor (pbr m) = ones4) (GlTF_Materials gltfDoc) /\
        nokey (json_GlTF gltfDoc) /\
        match namedDoc gltfDoc filename with
        | None => False
        | Some named =>
            nokey (json_GlTF named) /\
            exists buffer0,
              GlTF_Buffers named !! 0%nat = Some buffer0 /\
              SerializeBinaryGlTF json_text named
                = Some (glbBytes (glbSizes_of (json_Marshal json_text named)
                                              (GltfBuffer_Bytes buffer0))
                                 (json_Marshal json_text named) (GltfBuffer_Bytes buffer0)) /\
              match withDataURI base64_EncodeToString named with
              | None => False
              | Some embedded =>
                  nokey (json_GlTF embedded) /\
                  SerializeEmbeddedGlTF json_text_indent base64_EncodeToString named
                    = Some (json_MarshalIndent json_text_indent embedded)
              end
        end
    end.
Proof.
  intros u32 jt jti b64 vc model atlas filename.
  destruct (ToGltfDoc_run_aligned u32 b64 vc model atlas)
    as (doc & pk & mats & assocs & Hloop & _).
  pose proof (ToGltfDoc_loop_preserves u32 vc (loop_assembled vc)
                (ToGltfDoc_body_assembled u32 vc) _ _ _ (loop_assembled_Loop0 vc) Hloop)
    as [Hpk Hmats].
  unfold ToGltfDoc, ToGltfDoc_run. rewrite Hloop.
  cbn [fmap option_fmap option_map fst namedDoc GlTF_Meshes GlTF_Nodes GlTF_Materials].
  split.
  { eapply Forall_impl; [exact Hmats|]. intros m [mesh ->]. apply assembledMaterial_fields. }
  split; [nokey_doc Hpk Hmats|].
  split; [nokey_doc Hpk Hmats|].
  eexists. split; [reflexivity|]. split; [reflexivity|].
  cbn [withDataURI set_Meshes_Nodes GlTF_Buffers].
  split; [nokey_doc Hpk Hmats | reflexivity].
Qed.

(** ** Floating point: comparison *)

Lemma SFcompare_Eq (x y : spec_float) :
  SFcompare x y = Some Eq -> x = y \/ (is_zero x = true /\ is_zero y = true).
Proof.
  destruct x as [sx|sx| |sx mx ex], y as [sy|sy| |sy my ey]; simpl; intros H;
    try discriminate H;
    try (right; split; reflexivity);
    try (destruct sx; discriminate H);
    try (destruct sy; discriminate H);
    try (destruct sx, sy; try discriminate H; now left).
  change (Pos.compare_cont Eq mx my) with (Pos.compare mx my) in H.
  destruct sx, sy; try discriminate H;
    destruct (Z.compare_spec ex ey); try discriminate H; subst;
    destruct (Pos.compare_spec mx my); try discriminate H; subst; now left.
Qed.

Lemma SFcompare_refl (x : spec_float) : is_nan x = false -> SFcompare x x = Some Eq.
Proof.
  destruct x as [s|s| |s m e]; simpl; try discriminate; intros _.
  - reflexivity.
  - now destruct s.
  - destruct s; rewrite Z.compare_refl, Pos.compare_cont_refl; reflexivity.
Qed.

Lemma SFcompare_antisym (x y : spec_float) :
  SFcompare y x = CompOpp <$> SFcompare x y.
Proof.
  destruct x as [sx|sx| |sx mx ex], y as [sy|sy| |sy my ey]; simpl; try reflexivity;
    try (destruct sx; reflexivity); try (destruct sy; reflexivity);
    try (destruct sx, sy; reflexivity).
  change (Pos.compare_cont Eq mx my) with (Pos.compare mx my).
  change (Pos.compare_cont Eq my mx) with (Pos.compare my mx).
  rewrite (Z.compare_antisym ex ey), (Pos.compare_antisym mx my).
  destruct sx, sy; simpl; try reflexivity;
    destruct (ex ?= ey); simpl; try reflexivity;
    destruct (mx ?= my)%positive; reflexivity.
Qed.

Lemma SFeqb_true (x y : spec_float) :
  SFeqb x y = true -> x = y \/ (is_zero x = true /\ is_zero y = true).
Proof.
  unfold SFeqb. destruct (SFcompare x y) as [[| |]|] eqn:H; try discriminate.
  intros _. now apply SFcompare_Eq.
Qed.

Lemma SFeqb_refl (x : spec_float) : is_nan x = false -> SFeqb x x = true.
Proof. intros H. unfold SFeqb. now rewrite SFcompare_refl. Qed.

Lemma SFeqb_zeros (x y : spec_float) :
  is_zero x = true -> is_zero y = true -> SFeqb x y = true.
Proof. destruct x, y; simpl; try discriminate; reflexivity. Qed.

Lemma SFeqb_not_nan (x y : spec_float) :
  SFeqb x y = true -> is_nan x = false /\ is_nan y = false.
Proof. destruct x, y; simpl; try discriminate; auto. Qed.

Lemma SFeqb_sym (x y : spec_float) : SFeqb x y = SFeqb y x.
Proof.
  unfold SFeqb. rewrite (SFcompare_antisym x y).
  destruct (SFcompare x y) as [[| |]|]; reflexivity.
Qed.

Lemma SFeqb_trans (x y z : spec_float) :
  SFeqb x y = true -> SFeqb y z = true -> SFeqb x z = true.
Proof.
  intros Hxy Hyz.
  destruct (SFeqb_true _ _ Hxy) as [-> | [Hx Hy]]; [assumption|].
  destruct (SFeqb_true _ _ Hyz) as [<- | [_ Hz]]; [assumption|].
  now apply SFeqb_zeros.
Qed.

(** ** Floating point: the operations do not invent a NaN *)

Lemma shr_1_nonneg (mrs : shr_record) : 0 <= shr_m mrs -> 0 <= shr_m (shr_1 mrs).
Proof.
  destruct mrs as [m r s]. simpl. destruct m as [|[p|p|]|p]; simpl; lia.
Qed.

Lemma iter_pos_invariant {A : Type} (f : A -> A) (P : A -> Prop) :
  (forall x, P x -> P (f x)) -> forall (p : positive) (x : A), P x -> P (SpecFloat.iter_pos f p x).
Proof.
  intros Hf. induction p as [p IH|p IH|]; intros x Hx; simpl; auto.
Qed.

Lemma shr_nonneg (mrs : shr_record) (e n : Z) :
  0 <= shr_m mrs -> 0 <= shr_m (fst (shr mrs e n)).
Proof.
  intros H. unfold shr. destruct n; simpl; try assumption.
  apply (iter_pos_invariant shr_1 (fun r => 0 <= shr_m r)); [apply shr_1_nonneg | assumption].
Qed.

Lemma shr_m_shr_record_of_loc (m : Z) (l : location) : shr_m (shr_record_of_loc m l) = m.
Proof. destruct l as [|[| |]]; reflexivity. Qed.

Lemma shr_fexp_nonneg (prec emax m e : Z) (l : location) :
  0 <= m -> 0 <= shr_m (fst (shr_fexp prec emax m e l)).
Proof.
  intros H. unfold shr_fexp. apply shr_nonneg. now rewrite shr_m_shr_record_of_loc.
Qed.

Lemma round_nearest_even_nonneg (m : Z) (l : location) :
  0 <= m -> 0 <= round_nearest_even m l.
Proof.
  intros H. unfold round_nearest_even. destruct l as [|[| |]]; try lia.
  destruct (Z.even m); lia.
Qed.

Lemma binary_round_aux_not_nan (prec emax : Z) (sx : bool) (mx ex : Z) (lx : location) :
  0 <= mx -> is_nan (binary_round_aux prec emax sx mx ex lx) = false.
Proof.
  intros H. unfold binary_round_aux.
  pose proof (shr_fexp_nonneg prec emax mx ex lx H) as H1.
  destruct (shr_fexp prec emax mx ex lx) as [mrs' e']. simpl in H1.
  pose proof (shr_fexp_nonneg prec emax
                (round_nearest_even (shr_m mrs') (loc_of_shr_record mrs')) e' loc_Exact
                (round_nearest_even_nonneg _ _ H1)) as H2.
  destruct (shr_fexp prec emax (round_nearest_even (shr_m mrs') (loc_of_shr_record mrs'))
              e' loc_Exact) as [mrs'' e'']. simpl in H2.
  destruct (shr_m mrs'') as [|p|p]; try reflexivity; [|lia].
  now destruct (e'' <=? emax - prec).
Qed.

Lemma binary_round_not_nan (prec emax : Z) (s : bool) (m : positive) (e : Z) :
  is_nan (binary_round prec emax s m e) = false.
Proof.
  unfold binary_round.
  destruct (shl_align m e (fexp prec emax (Z.pos (digits2_pos m) + e))) as [mz ez].
  apply binary_round_aux_not_nan. lia.
Qed.

Lemma binary_normalize_not_nan (prec emax m e : Z) (szero : bool) :
  is_nan (binary_normalize prec emax m e szero) = false.
Proof.
  unfold binary_normalize. destruct m; [reflexivity | |]; apply binary_round_not_nan.
Qed.

Lemma float64_of_float32_nan (x : spec_float) :
  is_nan (float64_of_float32 x) = is_nan x.
Proof.
  destruct x; try reflexivity. apply binary_round_not_nan.
Qed.

Lemma float32_of_float64_nan (x : spec_float) :
  is_nan (float32_of_float64 x) = is_nan x.
Proof.
  destruct x; try reflexivity. apply binary_round_not_nan.
Qed.

Lemma SFdiv_finite_not_nan (prec emax : Z) (x : spec_float) (sy : bool) (my : positive)
    (ey : Z) :
  is_nan x = false -> is_nan (SFdiv prec emax x (S754_finite sy my ey)) = false.
Proof.
  destruct x as [s|s| |s m e]; simpl; try discriminate; try reflexivity. intros _.
  unfold SFdiv_core_binary.
  set (e' := Z.min _ _). set (m' := match (e - ey - e') with Z0 => _ | Zpos _ => _ | Zneg _ => _ end).
  assert (Hm' : 0 <= m').
  { subst m'. destruct (e - ey - e'); try lia. apply Z.shiftl_nonneg. lia. }
  pose proof (Z.div_eucl_eq m' (Z.pos my) ltac:(lia)) as Heq.
  pose proof (Z.mod_pos_bound m' (Z.pos my) ltac:(lia)) as Hmod.
  unfold Z.modulo in Hmod.
  destruct (Z.div_eucl m' (Z.pos my)) as [q r].
  apply binary_round_aux_not_nan. nia.
Qed.

Lemma SFsub_finite_not_nan (prec emax : Z) (sx : bool) (mx : positive) (ex : Z)
    (y : spec_float) :
  is_nan y = false -> is_nan (SFsub prec emax (S754_finite sx mx ex) y) = false.
Proof.
  destruct y as [s|s| |s m e]; simpl; try discriminate; try reflexivity. intros _.
  apply binary_normalize_not_nan.
Qed.

(** The roughness factor is a NaN only for a specular power that is one. *)
Lemma roughnessOf_nan (specularPower : spec_float) :
  is_nan (roughnessOf specularPower) = is_nan specularPower.
Proof.
  unfold roughnessOf.
  destruct (is_nan specularPower) eqn:Hsp.
  - destruct specularPower; try discriminate. reflexivity.
  - change (F64.of_Z 1) with (S754_finite false 4503599627370496 (-52)).
    change (F64.of_Z 128) with (S754_finite false 4503599627370496 (-45)).
    apply SFsub_finite_not_nan. apply SFdiv_finite_not_nan.
    now rewrite float64_of_float32_nan.
Qed.

(** ** Deduplication in the assembler *)

Lemma uniform_fourFactors (m : GltfMaterial) : uniform m -> fourFactors m.
Proof. intros [H _]. unfold fourFactors. rewrite H. simpl. lia. Qed.

(** On the assembler's materials the equality test is the equality of
    the roughness factors. *)
Lemma areMaterialsEqual_uniform (a b : GltfMaterial) :
  uniform a -> uniform b ->
  areMaterialsEqual a b = Some (F64.eqb (roughness a) (roughness b)).
Proof.
  intros [Ha1 Ha2] [Hb1 Hb2]. unfold areMaterialsEqual, roughness, pbr in *.
  rewrite Ha1, Hb1, Ha2, Hb2. reflexivity.
Qed.

Lemma uniform_assembledMaterial vc mesh : uniform (assembledMaterial vc mesh).
Proof. split; apply assembledMaterial_fields. Qed.

Lemma roughness_assembledMaterial vc mesh :
  roughness (assembledMaterial vc mesh) = meshRoughness mesh.
Proof.
  unfold roughness. destruct (assembledMaterial_fields vc mesh) as (_ & _ & -> & _).
  unfold gltfMaterial, pbr.
  now destruct (F32.ltb (Opacity (Material_ mesh)) (F32.of_Z 1)).
Qed.

Lemma eqb_or_nan_refl (r : spec_float) :
  F64.eqb r r = true \/ (is_nan r = true /\ is_nan r = true).
Proof.
  destruct (is_nan r) eqn:H; [now right | left; now apply SFeqb_refl].
Qed.

(** One round of the deduplication. *)
Lemma dedup_state_step vc (done : list Geometry) (mats : list GltfMaterial)
    (assocs : list meshInfoAssociation) (mesh : Geometry) (a : meshInfoAssociation) :
  dedup_state done mats assocs ->
  exists (materialIndex : Z) (mats' : list GltfMaterial),
    addMaterial (assembledMaterial vc mesh) mats = Some (materialIndex, mats') /\
    (MeshMaterialIndex a = materialIndex ->
     dedup_state (done ++ [mesh]) mats' (assocs ++ [a])).
Proof.
  intros (Hlen & Huni & Hdist & Hentry & Hpair).
  set (this := assembledMaterial vc mesh).
  assert (Hthis : uniform this) by apply uniform_assembledMaterial.
  assert (Hr : roughness this = meshRoughness mesh) by apply roughness_assembledMaterial.
  assert (Heq : forall m, uniform m ->
            areMaterialsEqual m this = Some (F64.eqb (roughness m) (meshRoughness mesh))).
  { intros m Hm. rewrite (areMaterialsEqual_uniform m this Hm Hthis). now rewrite Hr. }
  assert (Hlk : forall (n : nat) m, mats !! n = Some m -> uniform m).
  { intros n m Hn. eapply Forall_lookup_1; eauto. }
  (* the entries of the meshes that were done, in a list that may have grown *)
  assert (Hold_entry : forall mats' : list GltfMaterial,
            (forall (n : nat) m, mats !! n = Some m -> mats' !! n = Some m) ->
            forall (k : nat) (mesh0 : Geometry) (a0 : meshInfoAssociation),
              (k < length done)%nat ->
              (done ++ [mesh]) !! k = Some mesh0 -> (assocs ++ [a]) !! k = Some a0 ->
              exists (n : nat) (m : GltfMaterial),
                MeshMaterialIndex a0 = Z.of_nat n /\ mats' !! n = Some m /\
                (F64.eqb (roughness m) (meshRoughness mesh0) = true \/
                 (is_nan (meshRoughness mesh0) = true /\ is_nan (roughness m) = true))).
  { intros mats' Hgrow k mesh0 a0 Hk Hd Ha.
    rewrite lookup_app_l in Hd by lia. rewrite lookup_app_l in Ha by lia.
    destruct (Hentry k mesh0 a0 Hd Ha) as (n & m & H1 & H2 & H3).
    exists n, m. auto. }
  assert (Hold_pair : forall (i j : nat) mi mj ai aj,
            (i < j)%nat -> (j < length done)%nat ->
            (done ++ [mesh]) !! i = Some mi -> (done ++ [mesh]) !! j = Some mj ->
            (assocs ++ [a]) !! i = Some ai -> (assocs ++ [a]) !! j = Some aj ->
            (MeshMaterialIndex ai = MeshMaterialIndex aj
             <-> F64.eqb (meshRoughness mi) (meshRoughness mj) = true)).
  { intros i j mi mj ai aj Hij Hj Hdi Hdj Hai Haj.
    rewrite lookup_app_l in Hdi by lia. rewrite lookup_app_l in Hdj by lia.
    rewrite lookup_app_l in Hai by lia. rewrite lookup_app_l in Haj by lia.
    now apply (Hpair i j). }
  assert (Hlast_d : forall mj, (done ++ [mesh]) !! length done = Some mj -> mj = mesh).
  { intros mj H. rewrite lookup_app_r in H by lia. rewrite Nat.sub_diag in H.
    now inversion H. }
  assert (Hlast_a : forall aj, (assocs ++ [a]) !! length done = Some aj -> aj = a).
  { intros aj H. rewrite lookup_app_r in H by lia. rewrite Hlen, Nat.sub_diag in H.
    now inversion H. }
  assert (Hlen' : length (assocs ++ [a]) = length (done ++ [mesh])).
  { rewrite !length_app. simpl. lia. }
  destruct (addMaterial_spec this mats (uniform_fourFactors _ Hthis)
              (Forall_impl _ _ _ Huni uniform_fourFactors))
    as [(k & m & Hk & Hkeq & Hfirst & Hadd) | [Hnone Hadd]].
  - (* an equal entry exists: the first one, [k] *)
    exists (Z.of_nat k), mats. split; [exact Hadd|]. intros Hidx.
    rewrite (Heq m (Hlk k m Hk)) in Hkeq. injection Hkeq as Hkeq.
    split; [exact Hlen'|]. split; [exact Huni|]. split; [exact Hdist|]. split.
    + intros j mesh0 a0 Hd Ha.
      destruct (Nat.lt_ge_cases j (length done)) as [Hj | Hj].
      * now apply (Hold_entry mats (fun n m H => H) j).
      * assert (j = length done).
        { apply lookup_lt_Some in Hd. rewrite length_app in Hd. simpl in Hd. lia. }
        subst j. rewrite (Hlast_d _ Hd), (Hlast_a _ Ha).
        exists k, m. auto.
    + intros i j mi mj ai aj Hij Hdi Hdj Hai Haj.
      destruct (Nat.lt_ge_cases j (length done)) as [Hj | Hj].
      * now apply (Hold_pair i j).
      * assert (j = length done).
        { apply lookup_lt_Some in Hdj. rewrite length_app in Hdj. simpl in Hdj. lia. }
        subst j. rewrite (Hlast_d _ Hdj), (Hlast_a _ Haj), Hidx.
        destruct (Hold_entry mats (fun n m H => H) i mi ai Hij Hdi Hai)
          as (n & mn & Hn1 & Hn2 & Hn3).
        rewrite Hn1. split.
        -- intros Hnk. assert (n = k) by lia. subst n.
           rewrite Hk in Hn2. injection Hn2 as <-.
           destruct Hn3 as [Hn3 | [_ Hnan]].
           ++ apply (SFeqb_trans _ (roughness m)); [|assumption].
              now rewrite SFeqb_sym.
           ++ apply SFeqb_not_nan in Hkeq. destruct Hkeq as [Hkeq _].
              rewrite Hkeq in Hnan. discriminate.
        -- intros Hrr. f_equal.
           destruct (Nat.eq_dec n k) as [|Hne]; [assumption|exfalso].
           destruct Hn3 as [Hn3 | [Hnan _]].
           ++ assert (F64.eqb (roughness mn) (roughness m) = true).
              { apply (SFeqb_trans _ (meshRoughness mesh)).
                - now apply (SFeqb_trans _ (meshRoughness mi)).
                - now rewrite SFeqb_sym. }
              rewrite (Hdist n k mn m Hne Hn2 Hk) in H. discriminate.
           ++ apply SFeqb_not_nan in Hrr. destruct Hrr as [Hrr _].
              rewrite Hrr in Hnan. discriminate.
  - (* no equal entry: the material is appended *)
    exists (len mats), (mats ++ [this]). split; [exact Hadd|]. intros Hidx.
    assert (Hnone' : forall (n : nat) m, mats !! n = Some m ->
              F64.eqb (roughness m) (meshRoughness mesh) = false).
    { intros n m Hn. pose proof (Hnone n m Hn) as H.
      rewrite (Heq m (Hlk n m Hn)) in H. now injection H. }
    assert (Hgrow : forall (n : nat) m, mats !! n = Some m -> (mats ++ [this]) !! n = Some m).
    { intros n m Hn. rewrite lookup_app_l; [assumption|]. now apply lookup_lt_Some in Hn. }
    assert (Hnew : forall (n : nat) m, (mats ++ [this]) !! n = Some m ->
              (n < length mats)%nat /\ mats !! n = Some m \/ n = length mats /\ m = this).
    { intros n m Hn. destruct (Nat.lt_ge_cases n (length mats)) as [Hlt | Hge].
      - left. split; [assumption|]. now rewrite lookup_app_l in Hn.
      - right. rewrite lookup_app_r in Hn by lia.
        destruct (n - length mats)%nat as [|d] eqn:Hd; simpl in Hn; [|discriminate].
        split; [lia | now inversion Hn]. }
    split; [exact Hlen'|]. split.
    { apply Forall_app. split; [exact Huni|]. apply Forall_cons_2; [exact Hthis|constructor]. }
    split.
    { intros i j mi mj Hij Hi Hj.
      destruct (Hnew i mi Hi) as [[Hi1 Hi2] | [Hi1 Hi2]];
        destruct (Hnew j mj Hj) as [[Hj1 Hj2] | [Hj1 Hj2]]; subst.
      - now apply (Hdist i j).
      - rewrite Hr. now apply (Hnone' i).
      - rewrite SFeqb_sym, Hr. now apply (Hnone' j).
      - lia. }
    split.
    + intros j mesh0 a0 Hd Ha.
      destruct (Nat.lt_ge_cases j (length done)) as [Hj | Hj].
      * now apply (Hold_entry (mats ++ [this]) Hgrow j).
      * assert (j = length done).
        { apply lookup_lt_Some in Hd. rewrite length_app in Hd. simpl in Hd. lia. }
        subst j. rewrite (Hlast_d _ Hd), (Hlast_a _ Ha).
        exists (length mats), this. split; [rewrite Hidx; reflexivity|].
        split; [rewrite lookup_app_r by lia; now rewrite Nat.sub_diag|].
        rewrite Hr. apply eqb_or_nan_refl.
    + intros i j mi mj ai aj Hij Hdi Hdj Hai Haj.
      destruct (Nat.lt_ge_cases j (length done)) as [Hj | Hj].
      * now apply (Hold_pair i j).
      * assert (j = length done).
        { apply lookup_lt_Some in Hdj. rewrite length_app in Hdj. simpl in Hdj. lia. }
        subst j. rewrite (Hlast_d _ Hdj), (Hlast_a _ Haj), Hidx.
        destruct (Hold_entry mats (fun n m H => H) i mi ai Hij Hdi Hai)
          as (n & mn & Hn1 & Hn2 & Hn3).
        rewrite Hn1. pose proof (lookup_lt_Some _ _ _ Hn2) as Hnlt. split.
        -- unfold len. lia.
        -- intros Hrr. exfalso.
           destruct Hn3 as [Hn3 | [Hnan _]].
           ++ assert (H : F64.eqb (roughness mn) (meshRoughness mesh) = true)
                by exact (SFeqb_trans _ _ _ Hn3 Hrr).
              rewrite (Hnone' n mn Hn2) in H. discriminate.
           ++ apply SFeqb_not_nan in Hrr. destruct Hrr as [Hrr _].
              rewrite Hrr in Hnan. discriminate.
Qed.

Lemma dedup_state_nil : dedup_state [] [] [].
Proof.
  repeat split; try constructor;
    intros; match goal with H : [] !! _ = Some _ |- _ => now rewrite lookup_nil in H end.
Qed.

Lemma ToGltfDoc_loop_cons u32 vc mesh rest st :
  ToGltfDoc_loop u32 vc (mesh :: rest) st
  = match ToGltfDoc_body u32 vc st mesh with
    | None => None
    | Some st' => ToGltfDoc_loop u32 vc rest st'
    end.
Proof. reflexivity. Qed.

(** The first loop of the assembler returns and deduplicates. *)
Lemma ToGltfDoc_loop_dedup u32 vc (rest : list Geometry) :
  forall done pk mats assocs out,
    dedup_state done mats assocs ->
    exists pk' mats' assocs' out',
      ToGltfDoc_loop u32 vc rest (pk, mats, assocs, out) = Some (pk', mats', assocs', out') /\
      dedup_state (done ++ rest) mats' assocs'.
Proof.
  induction rest as [|mesh rest IH]; intros done pk mats assocs out Hst.
  - exists pk, mats, assocs, out. split; [reflexivity|]. now rewrite app_nil_r.
  - rewrite ToGltfDoc_loop_cons, ToGltfDoc_body_unfold.
    destruct (dedup_state_step vc done mats assocs mesh
                (associationOf u32 vc pk mesh 0) Hst) as (mi & mats1 & Hadd & _).
    destruct (dedup_state_step vc done mats assocs mesh
                (associationOf u32 vc pk mesh mi) Hst) as (mi' & mats1' & Hadd' & Hnext).
    rewrite Hadd in Hadd'. injection Hadd' as <- <-.
    rewrite Hadd.
    destruct (IH (done ++ [mesh]) (packMesh u32 vc pk mesh) mats1
                (assocs ++ [associationOf u32 vc pk mesh mi])
                (if negb (Z.rem (len (outBuf (packMesh u32 vc pk mesh))) 4 =? 0)
                 then out ++ [" this should't happen. "%string] else out)
                (Hnext eq_refl))
      as (pk' & mats' & assocs' & out' & Hloop & Hst').
    exists pk', mats', assocs', out'. split; [exact Hloop|].
    now rewrite <- app_assoc in Hst'.
Qed.

(** The primitives of the document: one per mesh, and two of them have
    the same material exactly when the roughness factors of their meshes
    are equal. *)
Lemma ToGltfDoc_material_indices u32 b64 vc model atlas :
  exists doc prims,
    ToGltfDoc u32 b64 vc model atlas = Some doc /\
    Mesh_Primitives <$> GlTF_Meshes doc = [prims] /\
    length prims = length (Meshes model) /\
    forall (i j : nat) (mi mj : Geometry) (p_i p_j : MeshPrimitive),
      i <> j -> Meshes model !! i = Some mi -> Meshes model !! j = Some mj ->
      prims !! i = Some p_i -> prims !! j = Some p_j ->
      (MeshPrimitive_Material p_i = MeshPrimitive_Material p_j
       <-> F64.eqb (meshRoughness mi) (meshRoughness mj) = true).
Proof.
  destruct (ToGltfDoc_loop_dedup u32 vc (Meshes model) [] 
              {| outBuf := []; gltfBufferViews := []; gltfAccessors := [] |} [] [] []
              dedup_state_nil)
    as (pk & mats & assocs & out & Hloop & Hlen & _ & _ & _ & Hpair).
  simpl app in *.
  unfold ToGltfDoc, ToGltfDoc_run. unfold Loop0. rewrite Hloop.
  eexists. exists (map (meshPrimitive_of vc) assocs).
  split; [reflexivity|]. split.
  { cbn [GlTF_Meshes fmap list_fmap Mesh_Primitives]. now rewrite fold_left_snoc. }
  split; [now rewrite length_map|].
  assert (Hlt : forall (i j : nat) mi mj p_i p_j,
            (i < j)%nat -> Meshes model !! i = Some mi -> Meshes model !! j = Some mj ->
            map (meshPrimitive_of vc) assocs !! i = Some p_i ->
            map (meshPrimitive_of vc) assocs !! j = Some p_j ->
            (MeshPrimitive_Material p_i = MeshPrimitive_Material p_j
             <-> F64.eqb (meshRoughness mi) (meshRoughness mj) = true)).
  { intros i j mi mj p_i p_j Hij Hi Hj Hpi Hpj.
    change (map (meshPrimitive_of vc) assocs) with (meshPrimitive_of vc <$> assocs) in *.
    rewrite list_lookup_fmap in Hpi, Hpj.
    destruct (assocs !! i) as [ai|] eqn:Hai; [|discriminate].
    destruct (assocs !! j) as [aj|] eqn:Haj; [|discriminate].
    simpl in Hpi, Hpj. injection Hpi as <-. injection Hpj as <-.
    unfold meshPrimitive_of. simpl. now apply (Hpair i j). }
  intros i j mi mj p_i p_j Hij Hi Hj Hpi Hpj.
  destruct (Nat.lt_ge_cases i j) as [Hlt' | Hge].
  - now apply (Hlt i j).
  - assert (Hji : (j < i)%nat) by lia.
    pose proof (Hlt j i mj mi p_j p_i Hji Hj Hi Hpj Hpi) as [H1 H2].
    rewrite SFeqb_sym in H1, H2. split; intros H; [apply H1 | symmetry; apply H2]; auto.
Qed.

(** Equal specular powers have equal roughness factors. *)
Lemma roughnessOf_eqb (sp1 sp2 : spec_float) :
  F32.eqb sp1 sp2 = true -> F64.eqb (roughnessOf sp1) (roughnessOf sp2) = true.
Proof.
  intros H. destruct (SFeqb_not_nan _ _ H) as [Hn1 _].
  destruct (SFeqb_true _ _ H) as [<- | [H1 H2]].
  - apply SFeqb_refl. now rewrite roughnessOf_nan.
  - destruct sp1 as [[|]| | |], sp2 as [[|]| | |]; try discriminate; reflexivity.
Qed.

Lemma areMaterialsEqual_factors (a b : GltfMaterial) :
  fourFactors a -> fourFactors b ->
  areMaterialsEqual a b
  = Some (F64.eqb (factor a 0) (factor b 0) && F64.eqb (factor a 1) (factor b 1)
          && F64.eqb (factor a 2) (factor b 2) && F64.eqb (factor a 3) (factor b 3)
          && F64.eqb (Pbr_MetallicFactor (pbr a)) (Pbr_MetallicFactor (pbr b))
          && F64.eqb (roughness a) (roughness b)).
Proof.
  unfold fourFactors, areMaterialsEqual, factor, roughness, pbr. intros Ha Hb.
  destruct (Pbr_BaseColorFactor (GltfMaterial_PbrMetallicRoughness a))
    as [|a0 [|a1 [|a2 [|a3 la]]]]; simpl in Ha; try lia.
  destruct (Pbr_BaseColorFactor (GltfMaterial_PbrMetallicRoughness b))
    as [|b0 [|b1 [|b2 [|b3 lb]]]]; simpl in Hb; try lia.
  reflexivity.
Qed.

(** C7 (amended). The deduplicator scans the list for the first entry
    whose four base color components, metallic factor and roughness factor
    are all equal to those of the material under the equality of floats
    (nothing else is compared): it returns the index of that entry and the
    list as it was, or else appends the material and returns the new last
    index.  Consequently two meshes of a model with the same diffuse
    color, opacity and specular power get the same material entry, as long
    as the specular power is not a NaN. *)
Theorem C7_addMaterial_first_equal_or_append :
  forall (material : GltfMaterial) (gltfMaterials : list GltfMaterial),
    fourFactors material -> Forall fourFactors gltfMaterials ->
    ((exists (k : nat) (m : GltfMaterial),
         gltfMaterials !! k = Some m /\ areMaterialsEqual m material = Some true /\
         (forall (j : nat) (m' : GltfMaterial),
             (j < k)%nat -> gltfMaterials !! j = Some m' ->
             areMaterialsEqual m' material = Some false) /\
         addMaterial material gltfMaterials = Some (Z.of_nat k, gltfMaterials))
     \/ ((forall (j : nat) (m' : GltfMaterial),
             gltfMaterials !! j = Some m' -> areMaterialsEqual m' material = Some false) /\
         addMaterial material gltfMaterials
           = Some (len gltfMaterials, gltfMaterials ++ [material]))) /\
    (forall (m : GltfMaterial),
        fourFactors m ->
        areMaterialsEqual m material
        = Some (F64.eqb (factor m 0) (factor material 0)
                && F64.eqb (factor m 1) (factor material 1)
                && F64.eqb (factor m 2) (factor material 2)
                && F64.eqb (factor m 3) (factor material 3)
                && F64.eqb (Pbr_MetallicFactor (pbr m)) (Pbr_MetallicFactor (pbr material))
                && F64.eqb (roughness m) (roughness material))) /\
    (forall (uint32_unrepresentable : spec_float -> Z)
            (base64_EncodeToString : list Z -> string)
            (vertexColors : bool) (model : Model) (atlas : list Z)
            (i j : nat) (mi mj : Geometry),
        i <> j -> Meshes model !! i = Some mi -> Meshes model !! j = Some mj ->
        DiffuseColor (Material_ mi) = DiffuseColor (Material_ mj) ->
        Opacity (Material_ mi) = Opacity (Material_ mj) ->
        SpecularPower (Material_ mi) = SpecularPower (Material_ mj) ->
        is_nan (SpecularPower (Material_ mi)) = false ->
        match ToGltfDoc uint32_unrepresentable base64_EncodeToString vertexColors model atlas
        with
        | None => False
        | Some gltfDoc =>
            exists (p_i p_j : MeshPrimitive),
              (Mesh_Primitives <$> GlTF_Meshes gltfDoc) !! 0%nat ≫= (.!! i) = Some p_i /\
              (Mesh_Primitives <$> GlTF_Meshes gltfDoc) !! 0%nat ≫= (.!! j) = Some p_j /\
              MeshPrimitive_Material p_i = MeshPrimitive_Material p_j
        end).
Proof.
  intros material l Hm Hl. split; [now apply addMaterial_spec|]. split.
  - intros m Hm0. now apply areMaterialsEqual_factors.
  - intros u32 b64 vc model atlas i j mi mj Hij Hi Hj _ _ Hsp Hnan.
    destruct (ToGltfDoc_material_indices u32 b64 vc model atlas)
      as (doc & prims & -> & Hprims & Hlen & Hpair).
    rewrite Hprims. simpl.
    destruct (prims !! i) as [p_i|] eqn:Hpi.
    2:{ apply lookup_ge_None in Hpi. apply lookup_lt_Some in Hi. lia. }
    destruct (prims !! j) as [p_j|] eqn:Hpj.
    2:{ apply lookup_ge_None in Hpj. apply lookup_lt_Some in Hj. lia. }
    exists p_i, p_j. split; [reflexivity|]. split; [reflexivity|].
    apply (Hpair i j mi mj p_i p_j Hij Hi Hj Hpi Hpj).
    unfold meshRoughness. rewrite <- Hsp. apply SFeqb_refl. now rewrite roughnessOf_nan.
Qed.

Lemma C7_addMaterial_first_equal_or_append_witness :
  addMaterial (assembledMaterial true exampleMesh) [assembledMaterial true oneTriangle]
  = Some (0, [assembledMaterial true oneTriangle]).
Proof.
  assert (H1 : fourFactors (assembledMaterial true exampleMesh))
    by (unfold fourFactors; simpl; lia).
  assert (H2 : Forall fourFactors [assembledMaterial true oneTriangle])
    by (apply Forall_cons_2; [unfold fourFactors; simpl; lia | apply Forall_nil_2]).
  destruct (C7_addMaterial_first_equal_or_append _ _ H1 H2)
    as [[(k & m & Hk & _ & _ & Hadd) | [Hnone _]] _].
  - rewrite Hadd. destruct k as [|k]; [reflexivity | discriminate Hk].
  - discriminate (Hnone 0%nat _ eq_refl).
Defined.

(** C7, as stated, fails on two meshes with the same material whose
    specular power is a NaN: they get two material entries. *)
Lemma C7_counterexample_nan_power :
  (fun gltfDoc => (length (GlTF_Materials gltfDoc), materialIndices gltfDoc))
    <$> ToGltfDoc (fun _ => 0) (fun _ => ""%string) true
                  {| Meshes := [bareMesh S754_nan; bareMesh S754_nan] |} []
  = Some (2%nat, [0; 1]).
Proof. vm_compute. reflexivity. Qed.

(** C10 (amended). Two meshes passed to [ToGltfDoc] get the same material
    index exactly when the roughness factors [1 - SpecularPower / 128]
    (in [float64]) of their materials are equal as floats; so they do
    when their specular powers are equal, whatever their diffuse colors
    and opacities. *)
Theorem C10_same_material_iff_equal_roughness :
  forall (uint32_unrepresentable : spec_float -> Z)
         (base64_EncodeToString : list Z -> string)
         (vertexColors : bool) (model : Model) (atlas : list Z),
    match ToGltfDoc uint32_unrepresentable base64_EncodeToString vertexColors model atlas
    with
    | None => False
    | Some gltfDoc =>
        exists prims : list MeshPrimitive,
          Mesh_Primitives <$> GlTF_Meshes gltfDoc = [prims] /\
          length prims = length (Meshes model) /\
          forall (i j : nat) (mi mj : Geometry) (p_i p_j : MeshPrimitive),
            i <> j -> Meshes model !! i = Some mi -> Meshes model !! j = Some mj ->
            prims !! i = Some p_i -> prims !! j = Some p_j ->
            (MeshPrimitive_Material p_i = MeshPrimitive_Material p_j
             <-> F64.eqb (roughnessOf (SpecularPower (Material_ mi)))
                         (roughnessOf (SpecularPower (Material_ mj))) = true) /\
            (F32.eqb (SpecularPower (Material_ mi)) (SpecularPower (Material_ mj)) = true ->
             MeshPrimitive_Material p_i = MeshPrimitive_Material p_j)
    end.
Proof.
  intros u32 b64 vc model atlas.
  destruct (ToGltfDoc_material_indices u32 b64 vc model atlas)
    as (doc & prims & -> & Hprims & Hlen & Hpair).
  exists prims. split; [assumption|]. split; [assumption|].
  intros i j mi mj p_i p_j Hij Hi Hj Hpi Hpj.
  pose proof (Hpair i j mi mj p_i p_j Hij Hi Hj Hpi Hpj) as Hiff.
  split; [exact Hiff|]. intros Heq. apply Hiff. now apply roughnessOf_eqb.
Qed.

(** C10, as stated, fails on two meshes of specular powers 0 and
    [2 ^ (-60)]: the specular powers differ, the roughness factors are
    both 1 after rounding, and the meshes get the same material index. *)
Lemma C10_counterexample_rounding :
  F32.eqb (S754_zero false) tinyPower = false /\
  F32.valid tinyPower /\
  materialIndices
    <$> ToGltfDoc (fun _ => 0) (fun _ => ""%string) true
                  {| Meshes := [bareMesh (S754_zero false); bareMesh tinyPower] |} []
  = Some [0; 0].
Proof. repeat split; vm_compute; reflexivity. Qed.

(** ** Floating point: conversion between the formats and order *)

Lemma iter_pos_nat {A : Type} (f : A -> A) (p : positive) (x : A) :
  SpecFloat.iter_pos f p x = Nat.iter (Pos.to_nat p) f x.
Proof.
  revert x. induction p as [p IH|p IH|]; intros x; cbn [SpecFloat.iter_pos].
  - rewrite !IH, Pos2Nat.inj_xI, Nat.iter_succ_r.
    replace (2 * Pos.to_nat p)%nat with (Pos.to_nat p + Pos.to_nat p)%nat by lia.
    now rewrite Nat.iter_add.
  - rewrite !IH, Pos2Nat.inj_xO.
    replace (2 * Pos.to_nat p)%nat with (Pos.to_nat p + Pos.to_nat p)%nat by lia.
    now rewrite Nat.iter_add.
  - reflexivity.
Qed.

Lemma Pos_iter_nat {A : Type} (f : A -> A) (p : positive) (x : A) :
  Pos.iter f x p = Nat.iter (Pos.to_nat p) f x.
Proof. apply Pos2Nat.inj_iter. Qed.

Lemma shr_1_iter_xO (n : nat) (m : positive) :
  Nat.iter n shr_1 {| shr_m := Zpos (Nat.iter n xO m); shr_r := false; shr_s := false |}
  = {| shr_m := Zpos m; shr_r := false; shr_s := false |}.
Proof.
  induction n as [|n IH].
  - reflexivity.
  - rewrite Nat.iter_succ_r. simpl. exact IH.
Qed.

Lemma digits2_pos_iter_xO (n : nat) (m : positive) :
  Zpos (digits2_pos (Nat.iter n xO m)) = Zpos (digits2_pos m) + Z.of_nat n.
Proof.
  induction n as [|n IH].
  - simpl. lia.
  - simpl Nat.iter. simpl digits2_pos. rewrite Pos2Z.inj_succ, IH. lia.
Qed.

Lemma Zpos_iter_xO (n : nat) (m : positive) :
  Zpos (Nat.iter n xO m) = Zpos m * 2 ^ Z.of_nat n.
Proof.
  induction n as [|n IH].
  - simpl. lia.
  - simpl Nat.iter. rewrite Pos2Z.inj_xO, IH, Nat2Z.inj_succ, Z.pow_succ_r by lia. lia.
Qed.

Lemma digits2_pos_size (m : positive) : digits2_pos m = Pos.size m.
Proof. induction m; simpl; congruence. Qed.

Lemma digits2_bounds (m : positive) :
  2 ^ (Zpos (digits2_pos m) - 1) <= Zpos m < 2 ^ Zpos (digits2_pos m).
Proof.
  rewrite digits2_pos_size.
  pose proof (Pos.size_gt m) as Hgt. pose proof (Pos.size_le m) as Hle.
  assert (H2 : Zpos (2 ^ Pos.size m) = 2 ^ Zpos (Pos.size m)) by apply Pos2Z.inj_pow.
  split.
  - assert (2 ^ Zpos (Pos.size m) = 2 * 2 ^ (Zpos (Pos.size m) - 1)).
    { rewrite <- Z.pow_succ_r by lia. f_equal. lia. }
    assert (Zpos (2 ^ Pos.size m) <= Zpos (m~0)) by (apply Pos2Z.pos_le_pos; exact Hle).
    lia.
  - rewrite <- H2. apply Pos2Z.pos_lt_pos. exact Hgt.
Qed.

Lemma binary_round_exact (prec emax : Z) (s : bool) (m : positive) (e : Z) (k : positive) :
  bounded prec emax m e = true ->
  binary_round prec emax s (Pos.iter xO m k) (e - Zpos k) = S754_finite s m e.
Proof.
  intros Hb. apply andb_prop in Hb as [Hc He].
  unfold canonical_mantissa in Hc. apply Z.eqb_eq in Hc. apply Z.leb_le in He.
  assert (Hd : Zpos (digits2_pos (Pos.iter xO m k)) = Zpos (digits2_pos m) + Zpos k).
  { rewrite Pos_iter_nat, digits2_pos_iter_xO, positive_nat_Z. reflexivity. }
  assert (Hf : fexp prec emax (Zpos (digits2_pos (Pos.iter xO m k)) + (e - Zpos k)) = e).
  { rewrite Hd. replace (Zpos (digits2_pos m) + Zpos k + (e - Zpos k))
      with (Zpos (digits2_pos m) + e) by lia. exact Hc. }
  unfold binary_round. rewrite Hf.
  unfold shl_align. replace (e - (e - Zpos k)) with (Zpos k) by lia.
  unfold binary_round_aux, shr_fexp. cbn [Zdigits2]. rewrite Hf.
  replace (e - (e - Zpos k)) with (Zpos k) by lia.
  cbn [shr shr_record_of_loc].
  rewrite iter_pos_nat, Pos_iter_nat, shr_1_iter_xO.
  cbn [shr_m loc_of_shr_record round_nearest_even Zdigits2].
  replace (e - Zpos k + Zpos k) with e by lia.
  rewrite Hc, Z.sub_diag. cbn [shr shr_record_of_loc shr_m].
  apply Z.leb_le in He. now rewrite He.
Qed.

(** Shifting the mantissa to full precision. *)
Lemma binary_round_normalize (prec emax : Z) (s : bool) (m : positive) (e : Z) (k : positive) :
  Zpos (digits2_pos m) + Zpos k = prec ->
  3 - emax - prec <= e - Zpos k ->
  e - Zpos k <= emax - prec ->
  binary_round prec emax s m e = S754_finite s (Pos.iter xO m k) (e - Zpos k).
Proof.
  intros Hk Hmin Hmax.
  assert (Hd : Zpos (digits2_pos (Pos.iter xO m k)) = prec).
  { rewrite Pos_iter_nat, digits2_pos_iter_xO, positive_nat_Z. exact Hk. }
  assert (Hf : fexp prec emax (Zpos (digits2_pos m) + e) = e - Zpos k).
  { unfold fexp, emin. lia. }
  assert (Hf' : fexp prec emax (prec + (e - Zpos k)) = e - Zpos k).
  { unfold fexp, emin. lia. }
  unfold binary_round. rewrite Hf.
  unfold shl_align. replace (e - Zpos k - e) with (Zneg k) by lia.
  unfold binary_round_aux, shr_fexp. cbn [Zdigits2]. rewrite Hd, Hf', Z.sub_diag.
  cbn [shr shr_record_of_loc shr_m loc_of_shr_record round_nearest_even Zdigits2].
  rewrite Hd, Hf', Z.sub_diag. cbn [shr shr_m].
  apply Z.leb_le in Hmax. now rewrite Hmax.
Qed.

Lemma bounded32_facts (m : positive) (e : Z) :
  bounded 24 128 m e = true ->
  Zpos (digits2_pos m) <= 24 /\ -149 <= e <= 104 /\
  (-149 < e -> Zpos (digits2_pos m) = 24).
Proof.
  intros Hb. apply andb_prop in Hb as [Hc He].
  unfold canonical_mantissa, fexp, emin in Hc. apply Z.eqb_eq in Hc. apply Z.leb_le in He.
  lia.
Qed.

Lemma float64_of_float32_finite (s : bool) (m : positive) (e : Z) :
  bounded 24 128 m e = true ->
  float64_of_float32 (S754_finite s m e)
  = S754_finite s (Pos.iter xO m (shift64 m)) (e - Zpos (shift64 m)).
Proof.
  intros Hb. destruct (bounded32_facts m e Hb) as (Hd & He & _).
  assert (Hk : Zpos (shift64 m) = 53 - Zpos (digits2_pos m)).
  { unfold shift64. apply Z2Pos.id. lia. }
  unfold float64_of_float32, F64.round.
  apply binary_round_normalize; unfold F64.prec, F64.emax; lia.
Qed.

(** A [float32] converted to [float64] and back is itself. *)
Lemma float32_of_float64_of_float32 (x : spec_float) :
  F32.valid x -> float32_of_float64 (float64_of_float32 x) = x.
Proof.
  destruct x as [s|s| |s m e]; try reflexivity. intros Hb.
  rewrite float64_of_float32_finite by exact Hb.
  unfold float32_of_float64, F32.round. now apply binary_round_exact.
Qed.

Lemma lexcmp_shift64 (m1 : positive) (e1 : Z) (m2 : positive) (e2 : Z) :
  bounded 24 128 m1 e1 = true -> bounded 24 128 m2 e2 = true ->
  lexcmp (e1 - Zpos (shift64 m1)) (Pos.iter xO m1 (shift64 m1))
         (e2 - Zpos (shift64 m2)) (Pos.iter xO m2 (shift64 m2))
  = lexcmp e1 m1 e2 m2.
Proof.
  intros H1 H2.
  destruct (bounded32_facts m1 e1 H1) as (Hd1 & He1 & Hn1).
  destruct (bounded32_facts m2 e2 H2) as (Hd2 & He2 & Hn2).
  pose proof (digits2_bounds m1) as Hm1. pose proof (digits2_bounds m2) as Hm2.
  assert (Hk1 : Zpos (shift64 m1) = 53 - Zpos (digits2_pos m1))
    by (unfold shift64; apply Z2Pos.id; lia).
  assert (Hk2 : Zpos (shift64 m2) = 53 - Zpos (digits2_pos m2))
    by (unfold shift64; apply Z2Pos.id; lia).
  unfold lexcmp.
  change (Pos.compare_cont Eq m1 m2) with (Pos.compare m1 m2).
  change (Pos.compare_cont Eq (Pos.iter xO m1 (shift64 m1)) (Pos.iter xO m2 (shift64 m2)))
    with (Pos.compare (Pos.iter xO m1 (shift64 m1)) (Pos.iter xO m2 (shift64 m2))).
  rewrite !Pos2Z.inj_compare.
  rewrite !Pos_iter_nat, !Zpos_iter_xO, !positive_nat_Z, Hk1, Hk2.
  set (d1 := Zpos (digits2_pos m1)) in *. set (d2 := Zpos (digits2_pos m2)) in *.
  destruct (Z.compare_spec e1 e2) as [He | He | He].
  - subst e2.
    destruct (Z.compare_spec d1 d2) as [Hd | Hd | Hd].
    + rewrite Hd. rewrite Z.compare_refl.
      symmetry. apply Zmult_compare_compat_r. apply Z.lt_gt, Z.pow_pos_nonneg; lia.
    + replace (e1 - (53 - d1) ?= e1 - (53 - d2)) with Lt
        by (symmetry; apply Z.compare_lt_iff; lia).
      symmetry. apply Z.compare_lt_iff.
      assert (2 ^ d1 <= 2 ^ (d2 - 1)) by (apply Z.pow_le_mono_r; lia). lia.
    + replace (e1 - (53 - d1) ?= e1 - (53 - d2)) with Gt
        by (symmetry; apply Z.compare_gt_iff; lia).
      symmetry. apply Z.compare_gt_iff.
      assert (2 ^ d2 <= 2 ^ (d1 - 1)) by (apply Z.pow_le_mono_r; lia). lia.
  - replace (e1 - (53 - d1) ?= e2 - (53 - d2)) with Lt; [reflexivity|].
    symmetry. apply Z.compare_lt_iff. lia.
  - replace (e1 - (53 - d1) ?= e2 - (53 - d2)) with Gt; [reflexivity|].
    symmetry. apply Z.compare_gt_iff. lia.
Qed.

(** The conversion to [float64] keeps the order. *)
Lemma SFcompare_float64_of_float32 (a b : spec_float) :
  F32.valid a -> F32.valid b ->
  SFcompare (float64_of_float32 a) (float64_of_float32 b) = SFcompare a b.
Proof.
  destruct a as [sa|sa| |sa ma ea], b as [sb|sb| |sb mb eb]; try reflexivity; intros Ha Hb.
  - rewrite float64_of_float32_finite by exact Hb. reflexivity.
  - rewrite float64_of_float32_finite by exact Hb. reflexivity.
  - rewrite float64_of_float32_finite by exact Ha. reflexivity.
  - rewrite float64_of_float32_finite by exact Ha. reflexivity.
  - rewrite float64_of_float32_finite by exact Ha. reflexivity.
  - rewrite !float64_of_float32_finite by assumption.
    pose proof (lexcmp_shift64 ma ea mb eb Ha Hb) as H. unfold lexcmp in H.
    cbn [SFcompare]. destruct sa, sb; try reflexivity.
    + f_equal.
      destruct (ea - Zpos (shift64 ma) ?= eb - Zpos (shift64 mb)), (ea ?= eb);
        first [reflexivity | discriminate H | now rewrite H | now rewrite <- H].
    + f_equal. exact H.
Qed.

Lemma SFleb_refl (x : spec_float) : is_nan x = false -> SFleb x x = true.
Proof. intros H. unfold SFleb. now rewrite SFcompare_refl. Qed.

Lemma SFleb_not_nan (x y : spec_float) :
  SFleb x y = true -> is_nan x = false /\ is_nan y = false.
Proof. destruct x, y; simpl; try discriminate; auto. Qed.

Lemma SFleb_trans (x y z : spec_float) :
  SFleb x y = true -> SFleb y z = true -> SFleb x z = true.
Proof.
  unfold SFleb.
  destruct x as [sx|sx| |sx mx ex], y as [sy|sy| |sy my ey], z as [sz|sz| |sz mz ez];
    simpl; try discriminate; try reflexivity;
    repeat match goal with s : bool |- _ => destruct s end;
    simpl; try discriminate; try reflexivity; try (intros; discriminate).
  all: change (Pos.compare_cont Eq mx my) with (Pos.compare mx my);
    change (Pos.compare_cont Eq my mz) with (Pos.compare my mz);
    change (Pos.compare_cont Eq mx mz) with (Pos.compare mx mz);
    destruct (Z.compare_spec ex ey), (Z.compare_spec ey ez), (Z.compare_spec ex ez);
    try lia; try discriminate; try reflexivity; try (intros; discriminate); subst;
    destruct (Pos.compare_spec mx my), (Pos.compare_spec my mz), (Pos.compare_spec mx mz);
    simpl; try lia; try discriminate; try reflexivity; try (intros; discriminate).
Qed.

(** Without a NaN two floats are comparable. *)
Lemma SFltb_false_SFleb (x y : spec_float) :
  is_nan x = false -> is_nan y = false -> SFltb y x = false -> SFleb x y = true.
Proof.
  intros Hx Hy. unfold SFltb, SFleb. rewrite (SFcompare_antisym x y).
  destruct x, y; try discriminate; simpl;
    try (destruct s; reflexivity || discriminate);
    try (destruct s0; reflexivity || discriminate);
    try (destruct s, s0; reflexivity || discriminate).
  destruct s, s0; simpl; try reflexivity; try discriminate;
    destruct (e ?= e0); simpl; try reflexivity; try discriminate;
    destruct (Pos.compare_cont Eq m m0); simpl; reflexivity || discriminate.
Qed.

Lemma SFltb_SFleb (x y : spec_float) : SFltb x y = true -> SFleb x y = true.
Proof. unfold SFltb, SFleb. now destruct (SFcompare x y) as [[| |]|]. Qed.

Lemma float64_of_float32_structure (x : spec_float) :
  F32.valid x ->
  is_inf false (float64_of_float32 x) = is_inf false x /\
  is_inf true (float64_of_float32 x) = is_inf true x /\
  signbit (float64_of_float32 x) = signbit x.
Proof.
  destruct x as [s|s| |s m e]; intros H; try (repeat split; reflexivity).
  rewrite float64_of_float32_finite by exact H. repeat split; reflexivity.
Qed.

(** [max32] without the conversions. *)
Lemma max32_unfold (a b : spec_float) :
  ordinary32 a -> ordinary32 b ->
  max32 a b
  = if is_inf false a || is_inf false b then S754_infinity false
    else if SFeqb a (S754_zero false) && SFeqb a b then (if signbit a then b else a)
    else if SFltb b a then a else b.
Proof.
  intros [Ha Hna] [Hb Hnb]. unfold max32, math_Max.
  destruct (float64_of_float32_structure a Ha) as (Hia & _ & Hsa).
  destruct (float64_of_float32_structure b Hb) as (Hib & _ & _).
  rewrite Hia, Hib, Hsa, !float64_of_float32_nan, Hna, Hnb.
  unfold F64.eqb, F64.ltb, SFeqb, SFltb.
  change (S754_zero false) with (float64_of_float32 (S754_zero false)) at 1.
  rewrite !SFcompare_float64_of_float32 by (assumption || reflexivity).
  destruct (is_inf false a || is_inf false b); [reflexivity|]. simpl orb. cbv iota.
  destruct (match SFcompare a (S754_zero false) with Some Eq => true | _ => false end
            && match SFcompare a b with Some Eq => true | _ => false end).
  - destruct (signbit a); now apply float32_of_float64_of_float32.
  - destruct (match SFcompare b a with Some Lt => true | _ => false end);
      now apply float32_of_float64_of_float32.
Qed.

Lemma min32_unfold (a b : spec_float) :
  ordinary32 a -> ordinary32 b ->
  min32 a b
  = if is_inf true a || is_inf true b then S754_infinity true
    else if SFeqb a (S754_zero false) && SFeqb a b then (if signbit a then a else b)
    else if SFltb a b then a else b.
Proof.
  intros [Ha Hna] [Hb Hnb]. unfold min32, math_Min.
  destruct (float64_of_float32_structure a Ha) as (_ & Hia & Hsa).
  destruct (float64_of_float32_structure b Hb) as (_ & Hib & _).
  rewrite Hia, Hib, Hsa, !float64_of_float32_nan, Hna, Hnb.
  unfold F64.eqb, F64.ltb, SFeqb, SFltb.
  change (S754_zero false) with (float64_of_float32 (S754_zero false)) at 1.
  rewrite !SFcompare_float64_of_float32 by (assumption || reflexivity).
  destruct (is_inf true a || is_inf true b); [reflexivity|]. simpl orb. cbv iota.
  destruct (match SFcompare a (S754_zero false) with Some Eq => true | _ => false end
            && match SFcompare a b with Some Eq => true | _ => false end).
  - destruct (signbit a); now apply float32_of_float64_of_float32.
  - destruct (match SFcompare a b with Some Lt => true | _ => false end);
      now apply float32_of_float64_of_float32.
Qed.

Lemma SFleb_pinf (x : spec_float) : is_nan x = false -> SFleb x (S754_infinity false) = true.
Proof. destruct x as [s|[|]| |[|] m e]; simpl; try discriminate; reflexivity. Qed.

Lemma SFleb_ninf (x : spec_float) : is_nan x = false -> SFleb (S754_infinity true) x = true.
Proof. destruct x as [s|[|]| |[|] m e]; simpl; try discriminate; reflexivity. Qed.

Lemma SFeqb_SFleb (x y : spec_float) : SFeqb x y = true -> SFleb x y = true.
Proof. unfold SFeqb, SFleb. now destruct (SFcompare x y) as [[| |]|]. Qed.

(** The larger of two floats that are no NaN is one of them, or the
    infinity one of them is, and is not below either. *)
Lemma max32_spec (a b : spec_float) :
  ordinary32 a -> ordinary32 b ->
  ordinary32 (max32 a b) /\ F32.leb a (max32 a b) = true /\ F32.leb b (max32 a b) = true.
Proof.
  intros Ha Hb. rewrite (max32_unfold a b Ha Hb).
  destruct Ha as [Hva Hna], Hb as [Hvb Hnb]. unfold F32.leb.
  destruct (is_inf false a || is_inf false b) eqn:Hinf.
  { split; [split; reflexivity|]. split; now apply SFleb_pinf. }
  destruct (SFeqb a (S754_zero false) && SFeqb a b) eqn:Hz.
  { apply andb_prop in Hz as [_ Hab].
    assert (Hba : SFeqb b a = true) by now rewrite SFeqb_sym.
    destruct (signbit a).
    - split; [now split|]. split; [now apply SFeqb_SFleb | now apply SFleb_refl].
    - split; [now split|]. split; [now apply SFleb_refl | now apply SFeqb_SFleb]. }
  destruct (SFltb b a) eqn:Hlt.
  - split; [now split|]. split; [now apply SFleb_refl | now apply SFltb_SFleb].
  - split; [now split|]. split; [now apply SFltb_false_SFleb | now apply SFleb_refl].
Qed.

Lemma min32_spec (a b : spec_float) :
  ordinary32 a -> ordinary32 b ->
  ordinary32 (min32 a b) /\ F32.leb (min32 a b) a = true /\ F32.leb (min32 a b) b = true.
Proof.
  intros Ha Hb. rewrite (min32_unfold a b Ha Hb).
  destruct Ha as [Hva Hna], Hb as [Hvb Hnb]. unfold F32.leb.
  destruct (is_inf true a || is_inf true b) eqn:Hinf.
  { split; [split; reflexivity|]. split; now apply SFleb_ninf. }
  destruct (SFeqb a (S754_zero false) && SFeqb a b) eqn:Hz.
  { apply andb_prop in Hz as [_ Hab].
    assert (Hba : SFeqb b a = true) by now rewrite SFeqb_sym.
    destruct (signbit a).
    - split; [now split|]. split; [now apply SFleb_refl | now apply SFeqb_SFleb].
    - split; [now split|]. split; [now apply SFeqb_SFleb | now apply SFleb_refl]. }
  destruct (SFltb a b) eqn:Hlt.
  - split; [now split|]. split; [now apply SFleb_refl | now apply SFltb_SFleb].
  - split; [now split|]. split; [|now apply SFleb_refl].
    apply SFltb_false_SFleb; assumption.
Qed.

(** One more element: the bounds hold for it and still hold for the
    elements they held for. *)
Lemma within_step (lo hi x : spec_float) :
  ordinary32 lo -> ordinary32 hi -> ordinary32 x ->
  ordinary32 (min32 lo x) /\ ordinary32 (max32 hi x) /\
  within (min32 lo x) (max32 hi x) x /\
  (forall u, within lo hi u -> within (min32 lo x) (max32 hi x) u).
Proof.
  intros Hlo Hhi Hx.
  destruct (min32_spec lo x Hlo Hx) as (H1 & H2 & H3).
  destruct (max32_spec hi x Hhi Hx) as (H4 & H5 & H6).
  split; [assumption|]. split; [assumption|]. split; [now split|].
  intros u [Hu1 Hu2]. split.
  - exact (SFleb_trans _ _ _ H2 Hu1).
  - exact (SFleb_trans _ _ _ Hu2 H5).
Qed.

(** ** The bounds the packer records *)

Lemma ordinary32_seeds : ordinary32 seed_low /\ ordinary32 seed_high.
Proof. repeat split. Qed.

Lemma addVector2_fold_bounds (data : list Vector2) :
  forall buf lo hi,
    ordinary2 lo -> ordinary2 hi -> Forall ordinary2 data ->
    exists buf' lo' hi',
      fold_left addVector2_body data (buf, (lo, hi)) = (buf', (lo', hi')) /\
      ordinary2 lo' /\ ordinary2 hi' /\
      (forall u, within2 lo hi u -> within2 lo' hi' u) /\
      Forall (within2 lo' hi') data.
Proof.
  induction data as [|v data IH]; intros buf lo hi Hlo Hhi Hdata.
  - exists buf, lo, hi. split; [reflexivity|]. split; [assumption|].
    split; [assumption|]. split; [auto | apply Forall_nil_2].
  - apply Forall_cons_1 in Hdata as [Hv Hdata].
    destruct Hlo as (Hl1 & Hl2), Hhi as (Hh1 & Hh2), Hv as (Hv1 & Hv2).
    destruct (within_step _ _ _ Hl1 Hh1 Hv1) as (A1 & B1 & C1 & D1).
    destruct (within_step _ _ _ Hl2 Hh2 Hv2) as (A2 & B2 & C2 & D2).
    simpl fold_left.
    destruct (IH (buf ++ putFloat32 (U v) ++ putFloat32 (V v))
                {| U := min32 (U lo) (U v); V := min32 (V lo) (V v) |}
                {| U := max32 (U hi) (U v); V := max32 (V hi) (V v) |})
      as (buf' & lo' & hi' & Hfold & Hlo' & Hhi' & Hmono & Hall);
      [split; assumption | split; assumption | assumption |].
    exists buf', lo', hi'. split; [exact Hfold|]. split; [assumption|].
    split; [assumption|]. split.
    + intros u (Hu1 & Hu2). apply Hmono. split; auto.
    + apply Forall_cons_2; [|assumption]. apply Hmono. split; assumption.
Qed.

Lemma addVector3_fold_bounds (data : list Vector3) :
  forall buf lo hi,
    ordinary3 lo -> ordinary3 hi -> Forall ordinary3 data ->
    exists buf' lo' hi',
      fold_left addVector3_body data (buf, (lo, hi)) = (buf', (lo', hi')) /\
      ordinary3 lo' /\ ordinary3 hi' /\
      (forall u, within3 lo hi u -> within3 lo' hi' u) /\
      Forall (within3 lo' hi') data.
Proof.
  induction data as [|v data IH]; intros buf lo hi Hlo Hhi Hdata.
  - exists buf, lo, hi. split; [reflexivity|]. split; [assumption|].
    split; [assumption|]. split; [auto | apply Forall_nil_2].
  - apply Forall_cons_1 in Hdata as [Hv Hdata].
    destruct Hlo as (Hl1 & Hl2 & Hl3), Hhi as (Hh1 & Hh2 & Hh3), Hv as (Hv1 & Hv2 & Hv3).
    destruct (within_step _ _ _ Hl1 Hh1 Hv1) as (A1 & B1 & C1 & D1).
    destruct (within_step _ _ _ Hl2 Hh2 Hv2) as (A2 & B2 & C2 & D2).
    destruct (within_step _ _ _ Hl3 Hh3 Hv3) as (A3 & B3 & C3 & D3).
    simpl fold_left.
    destruct (IH (buf ++ putFloat32 (X v) ++ putFloat32 (Y v) ++ putFloat32 (Z_ v))
                {| X := min32 (X lo) (X v); Y := min32 (Y lo) (Y v);
                   Z_ := min32 (Z_ lo) (Z_ v) |}
                {| X := max32 (X hi) (X v); Y := max32 (Y hi) (Y v);
                   Z_ := max32 (Z_ hi) (Z_ v) |})
      as (buf' & lo' & hi' & Hfold & Hlo' & Hhi' & Hmono & Hall);
      [unfold ordinary3; simpl; tauto | unfold ordinary3; simpl; tauto | assumption |].
    exists buf', lo', hi'. split; [exact Hfold|]. split; [assumption|].
    split; [assumption|]. split.
    + intros u (Hu1 & Hu2 & Hu3). apply Hmono. unfold within3. simpl. auto.
    + apply Forall_cons_2; [|assumption]. apply Hmono. unfold within3. simpl. tauto.
Qed.

Lemma addVector4_fold_bounds (data : list Vector4) :
  forall buf lo hi,
    ordinary4 lo -> ordinary4 hi -> Forall ordinary4 data ->
    exists buf' lo' hi',
      fold_left addVector4_body data (buf, (lo, hi)) = (buf', (lo', hi')) /\
      ordinary4 lo' /\ ordinary4 hi' /\
      (forall u, within4 lo hi u -> within4 lo' hi' u) /\
      Forall (within4 lo' hi') data.
Proof.
  induction data as [|v data IH]; intros buf lo hi Hlo Hhi Hdata.
  - exists buf, lo, hi. split; [reflexivity|]. split; [assumption|].
    split; [assumption|]. split; [auto | apply Forall_nil_2].
  - apply Forall_cons_1 in Hdata as [Hv Hdata].
    destruct Hlo as (Hl1 & Hl2 & Hl3 & Hl4), Hhi as (Hh1 & Hh2 & Hh3 & Hh4),
      Hv as (Hv1 & Hv2 & Hv3 & Hv4).
    destruct (within_step _ _ _ Hl1 Hh1 Hv1) as (A1 & B1 & C1 & D1).
    destruct (within_step _ _ _ Hl2 Hh2 Hv2) as (A2 & B2 & C2 & D2).
    destruct (within_step _ _ _ Hl3 Hh3 Hv3) as (A3 & B3 & C3 & D3).
    destruct (within_step _ _ _ Hl4 Hh4 Hv4) as (A4 & B4 & C4 & D4).
    simpl fold_left.
    destruct (IH (buf ++ putFloat32 (R v) ++ putFloat32 (G v) ++ putFloat32 (B v)
                      ++ putFloat32 (A v))
                {| R := min32 (R lo) (R v); G := min32 (G lo) (G v);
                   B := min32 (B lo) (B v); A := min32 (A lo) (A v) |}
                {| R := max32 (R hi) (R v); G := max32 (G hi) (G v);
                   B := max32 (B hi) (B v); A := max32 (A hi) (A v) |})
      as (buf' & lo' & hi' & Hfold & Hlo' & Hhi' & Hmono & Hall);
      [unfold ordinary4; simpl; tauto | unfold ordinary4; simpl; tauto | assumption |].
    exists buf', lo', hi'. split; [exact Hfold|]. split; [assumption|].
    split; [assumption|]. split.
    + intros u (Hu1 & Hu2 & Hu3 & Hu4). apply Hmono. unfold within4. simpl. auto 6.
    + apply Forall_cons_2; [|assumption]. apply Hmono. unfold within4. simpl. tauto.
Qed.

(** C3 (amended). For every array of vectors of 2, 3 or 4 components none
    of which is a NaN, the minimum and the maximum recorded in the accessor
    the packer adds bound the data: for every component [i] and every
    element [x] that is packed, [min[i] <= x[i] <= max[i]] (also for
    components of magnitude 100 and more). *)
Theorem C3_accessor_min_max_bound_the_data :
  forall (st : Packer) (v2 : list Vector2) (v3 : list Vector3) (v4 : list Vector4),
    Forall ordinary2 v2 -> Forall ordinary3 v3 -> Forall ordinary4 v4 ->
    (exists acc lo hi,
        gltfAccessors (snd (getAccessorIndexFromVector2 st v2))
          !! Z.to_nat (fst (getAccessorIndexFromVector2 st v2)) = Some acc /\
        Accessor_Min acc = [U lo; V lo] /\ Accessor_Max acc = [U hi; V hi] /\
        Forall (within2 lo hi) v2) /\
    (exists acc lo hi,
        gltfAccessors (snd (getAccessorIndexFromVector3 st v3))
          !! Z.to_nat (fst (getAccessorIndexFromVector3 st v3)) = Some acc /\
        Accessor_Min acc = [X lo; Y lo; Z_ lo] /\ Accessor_Max acc = [X hi; Y hi; Z_ hi] /\
        Forall (within3 lo hi) v3) /\
    (exists acc lo hi,
        gltfAccessors (snd (getAccessorIndexFromVector4 st v4))
          !! Z.to_nat (fst (getAccessorIndexFromVector4 st v4)) = Some acc /\
        Accessor_Min acc = [R lo; G lo; B lo; A lo] /\
        Accessor_Max acc = [R hi; G hi; B hi; A hi] /\
        Forall (within4 lo hi) v4).
Proof.
  intros st v2 v3 v4 H2 H3 H4.
  destruct ordinary32_seeds as [Hlow Hhigh].
  split; [|split].
  - unfold getAccessorIndexFromVector2, addVector2ArrayToBuffer.
    destruct (addVector2_fold_bounds v2 (outBuf st)
                {| U := seed_low; V := seed_low |} {| U := seed_high; V := seed_high |})
      as (buf' & lo & hi & -> & _ & _ & _ & Hall);
      [split; assumption | split; assumption | assumption |].
    eexists. exists lo, hi. simpl.
    split; [apply lookup_snoc_last|]. repeat split. exact Hall.
  - unfold getAccessorIndexFromVector3, addVector3ArrayToBuffer.
    destruct (addVector3_fold_bounds v3 (outBuf st)
                {| X := seed_low; Y := seed_low; Z_ := seed_low |}
                {| X := seed_high; Y := seed_high; Z_ := seed_high |})
      as (buf' & lo & hi & -> & _ & _ & _ & Hall);
      [unfold ordinary3, ordinary4; simpl; tauto | unfold ordinary3, ordinary4; simpl; tauto
      | assumption |].
    eexists. exists lo, hi. simpl.
    split; [apply lookup_snoc_last|]. repeat split. exact Hall.
  - unfold getAccessorIndexFromVector4, addVector4ArrayToBuffer.
    destruct (addVector4_fold_bounds v4 (outBuf st)
                {| R := seed_low; G := seed_low; B := seed_low; A := seed_low |}
                {| R := seed_high; G := seed_high; B := seed_high; A := seed_high |})
      as (buf' & lo & hi & -> & _ & _ & _ & Hall);
      [unfold ordinary3, ordinary4; simpl; tauto | unfold ordinary3, ordinary4; simpl; tauto
      | assumption |].
    eexists. exists lo, hi. simpl.
    split; [apply lookup_snoc_last|]. repeat split. exact Hall.
Qed.

(** Three positions of first component 200, 300 and 250: the bounds hold,
    and the minimum that is recorded is the seed 100, which is no
    component of the data. *)
Lemma accessor_min_is_the_seed_above_100 :
  Accessor_Min <$> gltfAccessors (snd (getAccessorIndexFromVector3 emptyPacker
      [alongX (F32.of_Z 200); alongX (F32.of_Z 300); alongX (F32.of_Z 250)])) !! 0%nat
  = Some [F32.of_Z 100; S754_zero false; S754_zero false] /\
  Accessor_Max <$> gltfAccessors (snd (getAccessorIndexFromVector3 emptyPacker
      [alongX (F32.of_Z 200); alongX (F32.of_Z 300); alongX (F32.of_Z 250)])) !! 0%nat
  = Some [F32.of_Z 300; S754_zero false; S754_zero false].
Proof. split; vm_compute; reflexivity. Qed.

Lemma C3_accessor_min_max_bound_the_data_witness :
  exists acc lo hi,
    gltfAccessors (snd (getAccessorIndexFromVector3 emptyPacker
                          [alongX (F32.of_Z 200); alongX (F32.of_Z (-300))])) !! 0%nat
      = Some acc /\
    Accessor_Min acc = [X lo; Y lo; Z_ lo] /\ Accessor_Max acc = [X hi; Y hi; Z_ hi] /\
    Forall (within3 lo hi) [alongX (F32.of_Z 200); alongX (F32.of_Z (-300))].
Proof.
  assert (H3 : Forall ordinary3 [alongX (F32.of_Z 200); alongX (F32.of_Z (-300))]).
  { apply Forall_cons_2; [|apply Forall_cons_2; [|apply Forall_nil_2]];
      repeat split; reflexivity. }
  exact (proj1 (proj2 (C3_accessor_min_max_bound_the_data emptyPacker [] _ []
                         (Forall_nil_2 _) H3 (Forall_nil_2 _)))).
Defined.

(** C3, as stated, fails on an array with a NaN: the minimum and the
    maximum that are recorded are NaN, which bounds nothing. *)
Lemma C3_counterexample_nan_component :
  Accessor_Min <$> gltfAccessors (snd (getAccessorIndexFromVector3 emptyPacker
                                         [alongX S754_nan])) !! 0%nat
  = Some [S754_nan; S754_zero false; S754_zero false] /\
  Accessor_Max <$> gltfAccessors (snd (getAccessorIndexFromVector3 emptyPacker
                                         [alongX S754_nan])) !! 0%nat
  = Some [S754_nan; S754_zero false; S754_zero false] /\
  F32.leb S754_nan (X (alongX S754_nan)) = false /\
  F32.leb (X (alongX S754_nan)) S754_nan = false.
Proof. repeat split; vm_compute; reflexivity. Qed.

(** ** The assembled document: buffer, buffer views, accessors, primitives *)

Lemma getVertices_map mesh : getVertices mesh = map Position (Vertices mesh).
Proof. unfold getVertices. now rewrite fold_left_snoc. Qed.
Lemma getNormals_map mesh : getNormals mesh = map Normal (Vertices mesh).
Proof. unfold getNormals. now rewrite fold_left_snoc. Qed.
Lemma getUVCoords_map mesh : getUVCoords mesh = map UV (Vertices mesh).
Proof. unfold getUVCoords. now rewrite fold_left_snoc. Qed.
Lemma getVertexColors_map mesh : getVertexColors mesh = map Color (Vertices mesh).
Proof. unfold getVertexColors. now rewrite fold_left_snoc. Qed.

Lemma len_meshBytes vc mesh : len (meshBytes vc mesh) = meshSize vc mesh.
Proof.
  unfold meshBytes, meshSize. rewrite !len_app.
  rewrite (len_flat_map_const bytesOfTriangle 12) by apply len_bytesOfTriangle.
  rewrite !(len_flat_map_const bytesOfVector3 12) by apply len_bytesOfVector3.
  rewrite !len_map.
  destruct vc; simpl negb; cbv iota.
  - rewrite (len_flat_map_const bytesOfVector4 16) by apply len_bytesOfVector4.
    rewrite len_map. lia.
  - rewrite (len_flat_map_const bytesOfVector2 8) by apply len_bytesOfVector2.
    rewrite len_map. lia.
Qed.

(** What one append of each kind does to the three parts of the packer. *)
Lemma getAccessorIndexFromIndices_closed u32 st indices :
  exists acc,
    getAccessorIndexFromIndices u32 st indices
    = (len (gltfAccessors st),
       {| outBuf := outBuf st ++ flat_map bytesOfTriangle indices;
          gltfBufferViews :=
            gltfBufferViews st ++ [viewAt (len (outBuf st)) (12 * len indices) 0 34963];
          gltfAccessors := gltfAccessors st ++ [acc] |}) /\
    accessor_is acc (len (gltfBufferViews st)) 5125 (len indices * 3) "SCALAR".
Proof.
  unfold getAccessorIndexFromIndices.
  pose proof (addTriangleArrayToBuffer_written u32 (outBuf st) indices) as Hw.
  destruct (addTriangleArrayToBuffer u32 (outBuf st) indices) as [buf' [mn mx]].
  simpl in Hw. subst buf'.
  eexists. split.
  - f_equal.
    + rewrite len_app, len_cons, len_nil. lia.
    + f_equal. f_equal. f_equal. unfold viewAt. f_equal.
      rewrite len_app, (len_flat_map_const bytesOfTriangle 12) by apply len_bytesOfTriangle.
      lia.
  - repeat split; simpl. rewrite len_app, len_cons, len_nil. lia.
Qed.

Lemma getAccessorIndexFromVector3_closed st vectors :
  exists acc,
    getAccessorIndexFromVector3 st vectors
    = (len (gltfAccessors st),
       {| outBuf := outBuf st ++ flat_map bytesOfVector3 vectors;
          gltfBufferViews :=
            gltfBufferViews st ++ [viewAt (len (outBuf st)) (12 * len vectors) 12 34962];
          gltfAccessors := gltfAccessors st ++ [acc] |}) /\
    accessor_is acc (len (gltfBufferViews st)) 5126 (len vectors) "VEC3".
Proof.
  unfold getAccessorIndexFromVector3.
  pose proof (addVector3ArrayToBuffer_written (outBuf st) vectors) as Hw.
  destruct (addVector3ArrayToBuffer (outBuf st) vectors) as [buf' [mn mx]].
  simpl in Hw. subst buf'.
  eexists. split.
  - f_equal.
    + rewrite len_app, len_cons, len_nil. lia.
    + f_equal. f_equal. f_equal. unfold viewAt. f_equal.
      rewrite len_app, (len_flat_map_const bytesOfVector3 12) by apply len_bytesOfVector3.
      lia.
  - repeat split; simpl. rewrite len_app, len_cons, len_nil. lia.
Qed.

Lemma getAccessorIndexFromVector2_closed st vectors :
  exists acc,
    getAccessorIndexFromVector2 st vectors
    = (len (gltfAccessors st),
       {| outBuf := outBuf st ++ flat_map bytesOfVector2 vectors;
          gltfBufferViews :=
            gltfBufferViews st ++ [viewAt (len (outBuf st)) (8 * len vectors) 8 34962];
          gltfAccessors := gltfAccessors st ++ [acc] |}) /\
    accessor_is acc (len (gltfBufferViews st)) 5126 (len vectors) "VEC2".
Proof.
  unfold getAccessorIndexFromVector2.
  pose proof (addVector2ArrayToBuffer_written (outBuf st) vectors) as Hw.
  destruct (addVector2ArrayToBuffer (outBuf st) vectors) as [buf' [mn mx]].
  simpl in Hw. subst buf'.
  eexists. split.
  - f_equal.
    + rewrite len_app, len_cons, len_nil. lia.
    + f_equal. f_equal. f_equal. unfold viewAt. f_equal.
      rewrite len_app, (len_flat_map_const bytesOfVector2 8) by apply len_bytesOfVector2.
      lia.
  - repeat split; simpl. rewrite len_app, len_cons, len_nil. lia.
Qed.

Lemma getAccessorIndexFromVector4_closed st vectors :
  exists acc,
    getAccessorIndexFromVector4 st vectors
    = (len (gltfAccessors st),
       {| outBuf := outBuf st ++ flat_map bytesOfVector4 vectors;
          gltfBufferViews :=
            gltfBufferViews st ++ [viewAt (len (outBuf st)) (16 * len vectors) 16 34962];
          gltfAccessors := gltfAccessors st ++ [acc] |}) /\
    accessor_is acc (len (gltfBufferViews st)) 5126 (len vectors) "VEC4".
Proof.
  unfold getAccessorIndexFromVector4.
  pose proof (addVector4ArrayToBuffer_written (outBuf st) vectors) as Hw.
  destruct (addVector4ArrayToBuffer (outBuf st) vectors) as [buf' [mn mx]].
  simpl in Hw. subst buf'.
  eexists. split.
  - f_equal.
    + rewrite len_app, len_cons, len_nil. lia.
    + f_equal. f_equal. f_equal. unfold viewAt. f_equal.
      rewrite len_app, (len_flat_map_const bytesOfVector4 16) by apply len_bytesOfVector4.
      lia.
  - repeat split; simpl. rewrite len_app, len_cons, len_nil. lia.
Qed.

(** The four appends of one mesh. *)
Lemma packMesh_closed u32 vc pk mesh :
  exists a0 a1 a2 a3,
    packMesh u32 vc pk mesh
    = {| outBuf := outBuf pk ++ meshBytes vc mesh;
         gltfBufferViews := gltfBufferViews pk ++ meshViews vc (len (outBuf pk)) mesh;
         gltfAccessors := gltfAccessors pk ++ [a0; a1; a2; a3] |} /\
    meshAccessors_are vc (len (gltfBufferViews pk)) mesh a0 a1 a2 a3 /\
    forall materialIndex,
      associationOf u32 vc pk mesh materialIndex
      = associationAt vc (len (gltfAccessors pk)) materialIndex.
Proof.
  unfold packMesh, associationOf.
  rewrite getVertices_map, getNormals_map, getUVCoords_map, getVertexColors_map.
  destruct (getAccessorIndexFromIndices_closed u32 pk (Faces mesh)) as (a0 & E0 & H0).
  rewrite E0. cbn [fst snd].
  set (pk1 := {| outBuf := _ |}) in *.
  destruct (getAccessorIndexFromVector3_closed pk1 (map Position (Vertices mesh)))
    as (a1 & E1 & H1).
  rewrite E1. cbn [fst snd].
  set (pk2 := {| outBuf := outBuf pk1 ++ _ |}) in *.
  destruct (getAccessorIndexFromVector3_closed pk2 (map Normal (Vertices mesh)))
    as (a2 & E2 & H2).
  rewrite E2. cbn [fst snd].
  set (pk3 := {| outBuf := outBuf pk2 ++ _ |}) in *.
  destruct (getAccessorIndexFromVector2_closed pk3 (map UV (Vertices mesh)))
    as (a3 & E3 & H3).
  destruct (getAccessorIndexFromVector4_closed pk3 (map Color (Vertices mesh)))
    as (a4 & E4 & H4).
  rewrite E3, E4. cbn [fst snd].
  subst pk1 pk2 pk3. cbn [outBuf gltfBufferViews gltfAccessors] in *.
  rewrite !len_app, !len_cons, !len_nil, !len_map in *.
  rewrite !(len_flat_map_const bytesOfVector3 12) in * by apply len_bytesOfVector3.
  rewrite !(len_flat_map_const bytesOfTriangle 12) in * by apply len_bytesOfTriangle.
  rewrite !len_map in *.
  exists a0, a1, a2, (if negb vc then a3 else a4).
  unfold meshBytes, meshViews, meshAccessors_are, associationAt, accessor_is in *.
  destruct vc; cbn [negb]; cbv iota.
  - split; [|split].
    + f_equal; rewrite <- ?app_assoc; try reflexivity.
      match goal with
      | |- context [?x + 12 * ?v + 12 * ?v] =>
          replace (x + 12 * v + 12 * v) with (x + 24 * v) by lia
      end.
      reflexivity.
    + repeat split; try tauto; unfold len in *; simpl in *; lia.
    + intros mi. f_equal; unfold len; simpl; lia.
  - split; [|split].
    + f_equal; rewrite <- ?app_assoc; try reflexivity.
      match goal with
      | |- context [?x + 12 * ?v + 12 * ?v] =>
          replace (x + 12 * v + 12 * v) with (x + 24 * v) by lia
      end.
      reflexivity.
    + repeat split; try tauto; unfold len in *; simpl in *; lia.
    + intros mi. f_equal; unfold len; simpl; lia.
Qed.

Lemma viewsOf_app vc (a b : list Geometry) :
  forall off,
    viewsOf vc off (a ++ b)
    = viewsOf vc off a ++ viewsOf vc (off + len (flat_map (meshBytes vc) a)) b.
Proof.
  induction a as [|mesh a IH]; intros off.
  - simpl. f_equal. unfold len. simpl. lia.
  - cbn [viewsOf flat_map app]. rewrite IH, <- app_assoc. f_equal. f_equal. f_equal.
    rewrite len_app, len_meshBytes. lia.
Qed.

Lemma length_viewsOf vc (meshes : list Geometry) :
  forall off, length (viewsOf vc off meshes) = (4 * length meshes)%nat.
Proof.
  induction meshes as [|mesh meshes IH]; intros off; [reflexivity|].
  cbn [viewsOf]. rewrite length_app, IH. simpl. lia.
Qed.

Lemma assembled_step u32 vc done pk mats assocs out mesh pk' mats' assocs' out' :
  assembled vc done pk assocs ->
  ToGltfDoc_body u32 vc (pk, mats, assocs, out) mesh = Some (pk', mats', assocs', out') ->
  assembled vc (done ++ [mesh]) pk' assocs'.
Proof.
  intros (Hbuf & Hviews & Haccs & Hassocs & Hper) Hbody.
  rewrite ToGltfDoc_body_unfold in Hbody.
  destruct (addMaterial (assembledMaterial vc mesh) mats) as [[mi mats1]|]; [|discriminate].
  injection Hbody as <- <- <- <-.
  destruct (packMesh_closed u32 vc pk mesh) as (a0 & a1 & a2 & a3 & Epk & Haccs' & Hassoc').
  rewrite Epk, Hassoc'. unfold assembled. cbn [outBuf gltfBufferViews gltfAccessors].
  assert (Hl : len (gltfAccessors pk) = 4 * Z.of_nat (length done)) by (unfold len; lia).
  assert (Hv : len (gltfBufferViews pk) = 4 * Z.of_nat (length done)).
  { unfold len. rewrite Hviews, length_viewsOf. lia. }
  split; [|split; [|split; [|split]]].
  - rewrite flat_map_app. simpl. now rewrite app_nil_r, Hbuf.
  - rewrite viewsOf_app. cbn [viewsOf]. rewrite app_nil_r, Hviews, Hbuf. f_equal.
  - rewrite !length_app. simpl. lia.
  - rewrite !length_app. simpl. lia.
  - intros k m Hk.
    destruct (decide (k < length done)%nat) as [Hlt | Hge].
    + rewrite lookup_app_l in Hk by assumption.
      destruct (Hper k m Hk) as (b0 & b1 & b2 & b3 & mi' & L0 & L1 & L2 & L3 & Hb & La).
      exists b0, b1, b2, b3, mi'.
      rewrite !lookup_app_l by lia. auto 10.
    + assert (k = length done).
      { apply lookup_lt_Some in Hk. rewrite length_app in Hk. simpl in Hk. lia. }
      subst k. rewrite lookup_app_r in Hk by lia.
      replace (length done - length done)%nat with 0%nat in Hk by lia.
      injection Hk as <-.
      exists a0, a1, a2, a3, mi.
      rewrite !lookup_app_r by lia.
      replace (4 * length done - length (gltfAccessors pk))%nat with 0%nat by lia.
      replace (4 * length done + 1 - length (gltfAccessors pk))%nat with 1%nat by lia.
      replace (4 * length done + 2 - length (gltfAccessors pk))%nat with 2%nat by lia.
      replace (4 * length done + 3 - length (gltfAccessors pk))%nat with 3%nat by lia.
      replace (length done - length assocs)%nat with 0%nat by lia.
      split; [reflexivity|]. split; [reflexivity|]. split; [reflexivity|].
      split; [reflexivity|]. split.
      * rewrite <- Hv. exact Haccs'.
      * rewrite <- Hl. reflexivity.
Qed.

Lemma assembled_loop u32 vc (rest : list Geometry) :
  forall done pk mats assocs out pk' mats' assocs' out',
    assembled vc done pk assocs ->
    ToGltfDoc_loop u32 vc rest (pk, mats, assocs, out) = Some (pk', mats', assocs', out') ->
    assembled vc (done ++ rest) pk' assocs'.
Proof.
  induction rest as [|mesh rest IH]; intros done pk mats assocs out pk' mats' assocs' out' H Hl.
  - injection Hl as <- <- <- <-. now rewrite app_nil_r.
  - rewrite ToGltfDoc_loop_cons in Hl.
    destruct (ToGltfDoc_body u32 vc (pk, mats, assocs, out) mesh)
      as [[[[pk1 mats1] assocs1] out1]|] eqn:Hb; [|discriminate].
    pose proof (assembled_step _ _ _ _ _ _ _ _ _ _ _ _ H Hb) as H1.
    pose proof (IH _ _ _ _ _ _ _ _ _ H1 Hl) as H2.
    now rewrite <- app_assoc in H2.
Qed.

Lemma assembled_nil vc : assembled vc [] emptyPacker [].
Proof.
  repeat split; intros k m Hk; now rewrite lookup_nil in Hk.
Qed.

Lemma meshSize_nonneg vc mesh : 0 <= meshSize vc mesh.
Proof.
  unfold meshSize. pose proof (len_nonneg (Faces mesh)). pose proof (len_nonneg (Vertices mesh)).
  destruct vc; simpl; lia.
Qed.

Lemma viewsOf_within vc (meshes : list Geometry) :
  forall off total,
    0 <= off -> off + len (flat_map (meshBytes vc) meshes) <= total ->
    Forall (within_buffer total) (viewsOf vc off meshes).
Proof.
  induction meshes as [|mesh meshes IH]; intros off total Hoff Htot; [constructor|].
  cbn [viewsOf flat_map] in *. rewrite len_app, len_meshBytes in Htot.
  pose proof (len_nonneg (flat_map (meshBytes vc) meshes)) as Hrest.
  pose proof (meshSize_nonneg vc mesh) as Hsz.
  apply Forall_app. split.
  - pose proof (len_nonneg (Faces mesh)). pose proof (len_nonneg (Vertices mesh)).
    unfold meshViews, meshSize, within_buffer in *.
    destruct vc; cbn [negb] in *; cbv iota in *;
      repeat constructor; simpl; lia.
  - apply IH; lia.
Qed.

(** X4. For every model, [ToGltfDoc] returns a document with exactly one
    buffer, without a URI; its bytes are the bytes of the meshes in the
    order of the model (for each mesh: index triples, positions, normals,
    then texture coordinates or vertex colors), and its declared byte
    length is the number of these bytes. *)
Theorem ToGltfDoc_buffer_holds_the_meshes_in_order :
  forall (uint32_unrepresentable : spec_float -> Z)
         (base64_EncodeToString : list Z -> string)
         (vertexColors : bool) (model : Model) (atlas : list Z),
    exists (gltfDoc : GlTF) (buffer0 : GltfBuffer),
      ToGltfDoc uint32_unrepresentable base64_EncodeToString vertexColors model atlas
        = Some gltfDoc /\
      GlTF_Buffers gltfDoc = [buffer0] /\
      GltfBuffer_Bytes buffer0 = flat_map (meshBytes vertexColors) (Meshes model) /\
      GltfBuffer_ByteLength buffer0 = len (GltfBuffer_Bytes buffer0) /\
      GltfBuffer_URI buffer0 = ""%string.
Proof.
  intros u32 b64 vc model atlas.
  destruct (ToGltfDoc_run_aligned u32 b64 vc model atlas)
    as (doc & pk & mats & assocs & Hloop & _).
  pose proof (assembled_loop u32 vc (Meshes model) [] _ _ _ _ _ _ _ _
                (assembled_nil vc) Hloop) as (Hbuf & _).
  unfold ToGltfDoc, ToGltfDoc_run. rewrite Hloop.
  eexists. eexists. split; [reflexivity|].
  cbn [GlTF_Buffers GltfBuffer_Bytes GltfBuffer_ByteLength GltfBuffer_URI].
  split; [reflexivity|]. repeat split. exact Hbuf.
Qed.

(** X5. For every model, the buffer views of the document of [ToGltfDoc]
    are four per mesh, in the order of the model; each starts where the
    one before it ends, the first at 0 (for a mesh: 12 bytes a face, then
    12 bytes a vertex twice, then 8 or 16 bytes a vertex); every one lies
    within the declared byte length of the buffer. *)
Theorem ToGltfDoc_buffer_views_tile_the_buffer :
  forall (uint32_unrepresentable : spec_float -> Z)
         (base64_EncodeToString : list Z -> string)
         (vertexColors : bool) (model : Model) (atlas : list Z),
    exists (gltfDoc : GlTF) (buffer0 : GltfBuffer),
      ToGltfDoc uint32_unrepresentable base64_EncodeToString vertexColors model atlas
        = Some gltfDoc /\
      GlTF_Buffers gltfDoc = [buffer0] /\
      GlTF_BufferViews gltfDoc = viewsOf vertexColors 0 (Meshes model) /\
      length (GlTF_BufferViews gltfDoc) = (4 * length (Meshes model))%nat /\
      Forall (within_buffer (GltfBuffer_ByteLength buffer0)) (GlTF_BufferViews gltfDoc).
Proof.
  intros u32 b64 vc model atlas.
  destruct (ToGltfDoc_run_aligned u32 b64 vc model atlas)
    as (doc & pk & mats & assocs & Hloop & _).
  pose proof (assembled_loop u32 vc (Meshes model) [] _ _ _ _ _ _ _ _
                (assembled_nil vc) Hloop) as (Hbuf & Hviews & _).
  simpl app in *.
  unfold ToGltfDoc, ToGltfDoc_run. rewrite Hloop.
  eexists. eexists. split; [reflexivity|].
  cbn [GlTF_Buffers GlTF_BufferViews GltfBuffer_ByteLength].
  split; [reflexivity|]. split; [exact Hviews|].
  rewrite Hviews, Hbuf. split; [apply length_viewsOf|].
  apply viewsOf_within; simpl; lia.
Qed.

(** X6. For every model, the single mesh of the document of [ToGltfDoc]
    has one primitive per mesh of the model, in order, and four accessors
    per mesh.  The primitive [k] has the accessor [4 * k] as its indices
    and exactly the attributes POSITION, NORMAL and TEXCOORD_0 (COLOR_0
    with vertex colors), the accessors [4 * k + 1], [4 * k + 2] and
    [4 * k + 3]; the accessor [4 * k + i] refers to the buffer view
    [4 * k + i] at offset 0, the indices accessor counts three scalars a
    face, and the three attribute accessors count one element a vertex. *)
Theorem ToGltfDoc_primitives_refer_to_their_accessors :
  forall (uint32_unrepresentable : spec_float -> Z)
         (base64_EncodeToString : list Z -> string)
         (vertexColors : bool) (model : Model) (atlas : list Z),
    exists (gltfDoc : GlTF) (prims : list MeshPrimitive),
      ToGltfDoc uint32_unrepresentable base64_EncodeToString vertexColors model atlas
        = Some gltfDoc /\
      Mesh_Primitives <$> GlTF_Meshes gltfDoc = [prims] /\
      length prims = length (Meshes model) /\
      length (GlTF_Accessors gltfDoc) = (4 * length (Meshes model))%nat /\
      forall (k : nat) (mesh : Geometry),
        Meshes model !! k = Some mesh ->
        exists (p : MeshPrimitive) (a0 a1 a2 a3 : Accessor),
          prims !! k = Some p /\
          MeshPrimitive_Indices p = 4 * Z.of_nat k /\
          MeshPrimitive_Attributes p
            = <[(if negb vertexColors then "TEXCOORD_0" else "COLOR_0")%string
                := 4 * Z.of_nat k + 3]>
                (<["NORMAL"%string := 4 * Z.of_nat k + 2]>
                   (<["POSITION"%string := 4 * Z.of_nat k + 1]> ∅)) /\
          MeshPrimitive_Mode p = 0 /\
          GlTF_Accessors gltfDoc !! (4 * k)%nat = Some a0 /\
          GlTF_Accessors gltfDoc !! (4 * k + 1)%nat = Some a1 /\
          GlTF_Accessors gltfDoc !! (4 * k + 2)%nat = Some a2 /\
          GlTF_Accessors gltfDoc !! (4 * k + 3)%nat = Some a3 /\
          meshAccessors_are vertexColors (4 * Z.of_nat k) mesh a0 a1 a2 a3.
Proof.
  intros u32 b64 vc model atlas.
  destruct (ToGltfDoc_run_aligned u32 b64 vc model atlas)
    as (doc & pk & mats & assocs & Hloop & _).
  pose proof (assembled_loop u32 vc (Meshes model) [] _ _ _ _ _ _ _ _
                (assembled_nil vc) Hloop) as (_ & _ & Haccs & Hassocs & Hper).
  simpl app in *.
  unfold ToGltfDoc, ToGltfDoc_run. rewrite Hloop.
  eexists. exists (map (meshPrimitive_of vc) assocs).
  split; [reflexivity|]. split.
  { cbn [GlTF_Meshes fmap list_fmap Mesh_Primitives]. now rewrite fold_left_snoc. }
  split; [now rewrite length_map|].
  cbn [GlTF_Accessors]. split; [exact Haccs|].
  intros k mesh Hk.
  destruct (Hper k mesh Hk) as (a0 & a1 & a2 & a3 & mi & L0 & L1 & L2 & L3 & Ha & La).
  exists (meshPrimitive_of vc (associationAt vc (4 * Z.of_nat k) mi)), a0, a1, a2, a3.
  split.
  { change (map (meshPrimitive_of vc) assocs) with (meshPrimitive_of vc <$> assocs).
    now rewrite list_lookup_fmap, La. }
  split; [reflexivity|]. split.
  { unfold meshPrimitive_of, associationAt. destruct vc; reflexivity. }
  split; [reflexivity|]. auto.
Qed.

(** ** The material table of the assembled document *)

Lemma addMaterial_scan_range material (l : list GltfMaterial) :
  forall i j, addMaterial_scan material i l = Some (Some j) -> i <= j < i + len l.
Proof.
  induction l as [|m l IH]; intros i j H; simpl in H; [discriminate|].
  rewrite len_cons. pose proof (len_nonneg l).
  destruct (areMaterialsEqual m material) as [[|]|]; try discriminate.
  - injection H as <-. lia.
  - apply IH in H. lia.
Qed.

Lemma addMaterial_cases material l i l' :
  addMaterial material l = Some (i, l') ->
  (l' = l /\ 0 <= i < len l) \/ (l' = l ++ [material] /\ i = len l).
Proof.
  unfold addMaterial. intros H.
  destruct (addMaterial_scan material 0 l) as [[j|]|] eqn:E; try discriminate.
  - injection H as <- <-. left. split; [reflexivity|]. apply addMaterial_scan_range in E. lia.
  - injection H as <- <-. right. split; [reflexivity|].
    rewrite len_app. unfold len. simpl. lia.
Qed.

Lemma materials_used_step u32 vc st mesh st' :
  (let '(pk, mats, assocs, out) := st in materials_used mats assocs) ->
  ToGltfDoc_body u32 vc st mesh = Some st' ->
  (let '(pk, mats, assocs, out) := st' in materials_used mats assocs).
Proof.
  destruct st as [[[pk mats] assocs] out]. intros (Hlen & Hrange & Hused) Hbody.
  rewrite ToGltfDoc_body_unfold in Hbody.
  destruct (addMaterial (assembledMaterial vc mesh) mats) as [[mi mats1]|] eqn:Hadd;
    [|discriminate].
  injection Hbody as <-. 
  destruct (addMaterial_cases _ _ _ _ Hadd) as [[-> Hmi] | [-> ->]].
  - split; [|split].
    + rewrite length_app. simpl. lia.
    + apply Forall_app. split; [assumption|]. constructor; [exact Hmi | constructor].
    + intros i Hi. destruct (Hused i Hi) as (a & Ha & Hai).
      exists a. split; [|assumption]. apply in_or_app. now left.
  - split; [|split].
    + rewrite !length_app. simpl. lia.
    + apply Forall_app. split.
      * eapply Forall_impl; [exact Hrange|]. intros a Ha. simpl in Ha. rewrite len_app.
        unfold len in *. simpl. lia.
      * constructor; [|constructor]. simpl. rewrite len_app. unfold len. simpl. lia.
    + intros i Hi. rewrite length_app in Hi. simpl in Hi.
      destruct (decide (i < length mats)%nat) as [Hlt|Hge].
      * destruct (Hused i Hlt) as (a & Ha & Hai).
        exists a. split; [|assumption]. apply in_or_app. now left.
      * exists (associationOf u32 vc pk mesh (len mats)). split.
        -- apply in_or_app. right. now left.
        -- simpl. unfold len. lia.
Qed.

(** X7. For every model, the material list of the document of [ToGltfDoc]
    has at most one entry per mesh; the material index of every primitive
    is an index into the list; every entry is the material of some
    primitive; and no two entries are equal for [areMaterialsEqual]. *)
Theorem ToGltfDoc_material_table_is_duplicate_free_and_used :
  forall (uint32_unrepresentable : spec_float -> Z)
         (base64_EncodeToString : list Z -> string)
         (vertexColors : bool) (model : Model) (atlas : list Z),
    exists (gltfDoc : GlTF) (prims : list MeshPrimitive),
      ToGltfDoc uint32_unrepresentable base64_EncodeToString vertexColors model atlas
        = Some gltfDoc /\
      Mesh_Primitives <$> GlTF_Meshes gltfDoc = [prims] /\
      (length (GlTF_Materials gltfDoc) <= length (Meshes model))%nat /\
      Forall (fun p => 0 <= MeshPrimitive_Material p < len (GlTF_Materials gltfDoc)) prims /\
      (forall i : nat,
          (i < length (GlTF_Materials gltfDoc))%nat ->
          exists p, In p prims /\ MeshPrimitive_Material p = Z.of_nat i) /\
      (forall (i j : nat) (mi mj : GltfMaterial),
          i <> j ->
          GlTF_Materials gltfDoc !! i = Some mi -> GlTF_Materials gltfDoc !! j = Some mj ->
          areMaterialsEqual mi mj = Some false).
Proof.
  intros u32 b64 vc model atlas.
  destruct (ToGltfDoc_loop_dedup u32 vc (Meshes model) []
              {| outBuf := []; gltfBufferViews := []; gltfAccessors := [] |} [] [] []
              dedup_state_nil)
    as (pk & mats & assocs & out & Hloop & Hlen & Huni & Hdistinct & _).
  simpl app in *.
  assert (H0 : materials_used [] []).
  { split; [reflexivity|]. split; [constructor|]. intros i Hi. simpl in Hi. lia. }
  pose proof (ToGltfDoc_loop_preserves u32 vc
                (fun st => let '(pk, mats, assocs, out) := st in materials_used mats assocs)
                (materials_used_step u32 vc) (Meshes model) Loop0 _ H0 Hloop)
    as (Hle & Hrange & Hused).
  unfold ToGltfDoc, ToGltfDoc_run. unfold Loop0. rewrite Hloop.
  eexists. exists (map (meshPrimitive_of vc) assocs).
  split; [reflexivity|]. split.
  { cbn [GlTF_Meshes fmap list_fmap Mesh_Primitives]. now rewrite fold_left_snoc. }
  cbn [fst GlTF_Materials].
  split; [lia|]. split; [|split].
  - apply Forall_map. eapply Forall_impl; [exact Hrange|]. intros a Ha. exact Ha.
  - intros i Hi. destruct (Hused i Hi) as (a & Ha & Hai).
    exists (meshPrimitive_of vc a). split; [now apply in_map | exact Hai].
  - intros i j mi mj Hij Hi Hj.
    rewrite areMaterialsEqual_uniform.
    + f_equal. now apply (Hdistinct i j).
    + exact (Forall_lookup_1 _ _ _ _ Huni Hi).
    + exact (Forall_lookup_1 _ _ _ _ Huni Hj).
Qed.

(** ** The two serializers and [writeGltf] *)

Lemma uint32_add_r (a b : Z) : uint32 (a + uint32 b) = uint32 (a + b).
Proof. unfold uint32. apply Z.add_mod_idemp_r. lia. Qed.

Lemma glbSizes_of_modular (outJSON outBuf : list Z) :
  let sz := glbSizes_of outJSON outBuf in
  outJSONPaddingNeeded sz = (- len outJSON) mod 4 /\
  outBufNullsNeeded sz = (- len outBuf) mod 4 /\
  outJSONSize sz = uint32 (len (paddedJSON outJSON)) /\
  outBufSize sz = uint32 (len (paddedBIN outBuf)) /\
  glbSize sz = uint32 (28 + len (paddedJSON outJSON) + len (paddedBIN outBuf)).
Proof.
  rewrite len_paddedJSON, len_paddedBIN.
  simpl. rewrite !paddingNeeded_least.
  repeat split; try reflexivity;
    unfold uint32; change (2 ^ 32) with 4294967296;
    generalize ((- len outJSON) mod 4) ((- len outBuf) mod 4); intros pj pb;
    Z.div_mod_to_equations; lia.
Qed.

(** X1. [SerializeBinaryGlTF] panics on a document without a buffer.  On
    every other document, whatever its size, it returns the bytes of
    "glTF", the version 2, the total length, the length of the JSON chunk,
    the bytes of "JSON", the JSON text padded with spaces, the length of
    the binary chunk, the bytes of "BIN" and a null byte, and the bytes of
    the first buffer padded with null bytes; both padded payloads have a
    length that is a multiple of 4, and each of the three lengths written
    is the true length modulo [2 ^ 32]. *)
Theorem SerializeBinaryGlTF_declares_its_lengths_modulo_2_32 :
  forall (json_text : json -> list Z) (gltfDoc : GlTF),
    match GlTF_Buffers gltfDoc with
    | [] => SerializeBinaryGlTF json_text gltfDoc = None
    | buffer0 :: _ =>
        let chunk0 := paddedJSON (json_Marshal json_text gltfDoc) in
        let chunk1 := paddedBIN (GltfBuffer_Bytes buffer0) in
        exists out,
          SerializeBinaryGlTF json_text gltfDoc = Some out /\
          out = bytes_of_string "glTF"
                  ++ putUint32 2
                  ++ putUint32 (uint32 (len out))
                  ++ putUint32 (uint32 (len chunk0))
                  ++ bytes_of_string "JSON"
                  ++ chunk0
                  ++ putUint32 (uint32 (len chunk1))
                  ++ BIN0
                  ++ chunk1 /\
          len out = 28 + len chunk0 + len chunk1 /\
          len chunk0 mod 4 = 0 /\ len chunk1 mod 4 = 0
    end.
Proof.
  intros jt doc. unfold SerializeBinaryGlTF.
  destruct (GlTF_Buffers doc) as [|b0 bs]; [reflexivity|].
  cbn [lookup list_lookup]. cbv zeta.
  set (j := json_Marshal jt doc). set (b := GltfBuffer_Bytes b0).
  destruct (glbSizes_of_modular j b) as (Hpj & Hpb & Hjs & Hbs & Hg).
  pose proof (Z.mod_pos_bound (- len j) 4 ltac:(lia)) as Hpj0.
  pose proof (Z.mod_pos_bound (- len b) 4 ltac:(lia)) as Hpb0.
  assert (Hlen : len (glbBytes (glbSizes_of j b) j b)
                 = 28 + len (paddedJSON j) + len (paddedBIN b)).
  { rewrite len_glbBytes by (rewrite ?Hpj, ?Hpb; lia).
    rewrite Hpj, Hpb, len_paddedJSON, len_paddedBIN. reflexivity. }
  exists (glbBytes (glbSizes_of j b) j b).
  split; [reflexivity|]. split; [|split; [exact Hlen|]].
  - rewrite Hlen. unfold glbBytes. rewrite Hpj, Hpb, Hjs, Hbs, Hg.
    unfold paddedJSON, paddedBIN. now rewrite <- !app_assoc.
  - split.
    + rewrite len_paddedJSON, Z.add_mod_idemp_r by lia.
      now replace (len j + - len j) with 0 by lia.
    + rewrite len_paddedBIN, Z.add_mod_idemp_r by lia.
      now replace (len b + - len b) with 0 by lia.
Qed.

Lemma find_key_app (k : string) (a b : list (string * json)) :
  List.find (fun e => String.eqb (fst e) k) (a ++ b)
  = match List.find (fun e => String.eqb (fst e) k) a with
    | Some e => Some e
    | None => List.find (fun e => String.eqb (fst e) k) b
    end.
Proof.
  induction a as [|e a IH]; [reflexivity|]. simpl.
  destruct (String.eqb (fst e) k); [reflexivity | exact IH].
Qed.

Lemma find_kv_slice_other (k k' : string) (items : list json) :
  k <> k' -> List.find (fun e => String.eqb (fst e) k) (kv_slice k' items) = None.
Proof.
  intros Hk. unfold kv_slice, kv_omitempty. destruct items; [reflexivity|].
  simpl. destruct (String.eqb_spec k' k) as [->|_]; [now destruct Hk | reflexivity].
Qed.

(** X2. [SerializeEmbeddedGlTF] panics on a document without a buffer.  On
    every other document it returns the indented JSON text of the document
    in which the first buffer has the URI
    "data:application/gltf-buffer;base64," followed by the base64 text of
    its bytes (nothing, as the error is only printed, when a float of the
    document is a NaN or an infinity); the JSON of that buffer has this
    URI under "uri" and the declared byte length under "byteLength", and
    every other key of the document has the value it had. *)
Theorem SerializeEmbeddedGlTF_embeds_the_first_buffer :
  forall (json_text_indent : json -> list Z) (base64_EncodeToString : list Z -> string)
         (gltfDoc : GlTF),
    match GlTF_Buffers gltfDoc with
    | [] => SerializeEmbeddedGlTF json_text_indent base64_EncodeToString gltfDoc = None
    | buffer0 :: buffers =>
        let uri := dataURI base64_EncodeToString (GltfBuffer_Bytes buffer0) in
        let embedded := set_Buffers gltfDoc (set_URI buffer0 uri :: buffers) in
        SerializeEmbeddedGlTF json_text_indent base64_EncodeToString gltfDoc
          = Some (if json_supported (json_GlTF embedded)
                  then json_text_indent (json_GlTF embedded) else []) /\
        json_field "buffers" (json_GlTF embedded)
          = Some (JArray (json_GltfBuffer (set_URI buffer0 uri)
                            :: map json_GltfBuffer buffers)) /\
        json_field "uri" (json_GltfBuffer (set_URI buffer0 uri)) = Some (JString uri) /\
        json_field "byteLength" (json_GltfBuffer (set_URI buffer0 uri))
          = Some (JInt (GltfBuffer_ByteLength buffer0)) /\
        (forall k : string,
            k <> "buffers"%string ->
            json_field k (json_GlTF embedded) = json_field k (json_GlTF gltfDoc))
    end.
Proof.
  intros jti b64 doc. unfold SerializeEmbeddedGlTF, withDataURI.
  destruct (GlTF_Buffers doc) as [|b0 bs] eqn:Hb; [reflexivity|].
  cbv zeta. split; [reflexivity|]. split; [|split; [|split]].
  - unfold json_GlTF, set_Buffers. cbn [GlTF_Accessors GlTF_Asset GlTF_Buffers].
    destruct (GlTF_Accessors doc); destruct (GlTF_Asset doc); reflexivity.
  - unfold json_GltfBuffer, set_URI, dataURI.
    cbn [GltfBuffer_ByteLength GltfBuffer_Extensions GltfBuffer_Extras GltfBuffer_Name
           GltfBuffer_URI].
    destruct (GltfBuffer_Extensions b0); destruct (GltfBuffer_Extras b0);
      destruct (GltfBuffer_Name b0); reflexivity.
  - reflexivity.
  - intros k Hk. unfold json_GlTF, set_Buffers.
    cbn [GlTF_Accessors GlTF_Asset GlTF_Buffers GlTF_BufferViews GlTF_Extensions
           GlTF_ExtensionsRequired GlTF_ExtensionsUsed GlTF_Images GlTF_Materials GlTF_Meshes
           GlTF_Nodes GlTF_Scene GlTF_Scenes GlTF_Textures].
    rewrite Hb. unfold json_field. f_equal.
    rewrite !(find_key_app k (kv_slice "accessors" _)).
    rewrite !(find_key_app k (kv_any "asset" _)).
    rewrite !(find_key_app k (kv_slice "buffers" _)).
    now rewrite !(find_kv_slice_other k "buffers") by assumption.
Qed.

Lemma ToGltfDoc_shape u32 b64 vc model atlas :
  exists (doc : GlTF) (mesh : Mesh) (node : Node) (buffer0 : GltfBuffer),
    ToGltfDoc u32 b64 vc model atlas = Some doc /\
    GlTF_Meshes doc = [mesh] /\ GlTF_Nodes doc = [node] /\ GlTF_Buffers doc = [buffer0] /\
    Mesh_Name mesh = ""%string /\ Node_Name node = ""%string /\
    Node_Mesh node = any_int 0.
Proof.
  destruct (ToGltfDoc_run_aligned u32 b64 vc model atlas)
    as (doc & pk & mats & assocs & Hloop & _).
  unfold ToGltfDoc, ToGltfDoc_run. rewrite Hloop.
  eexists. eexists. eexists. eexists.
  split; [reflexivity|]. cbn [fst GlTF_Meshes GlTF_Nodes GlTF_Buffers].
  repeat (split; [reflexivity|]). reflexivity.
Qed.

Lemma SerializeEmbeddedGlTF_value jti b64 (d : GlTF) b0 bs :
  GlTF_Buffers d = b0 :: bs ->
  SerializeEmbeddedGlTF jti b64 d
  = Some (json_MarshalIndent jti
            (set_Buffers d (set_URI b0 (dataURI b64 (GltfBuffer_Bytes b0)) :: bs))).
Proof. intros H. unfold SerializeEmbeddedGlTF, withDataURI. now rewrite H. Qed.

(** X3. For every model, [writeGltf] does not panic and writes one file:
    [filename] followed by ".gltf" with what [SerializeEmbeddedGlTF]
    returns when [embeddedGltf] is set, [filename] followed by ".glb" with
    what [SerializeBinaryGlTF] returns otherwise, for the document of
    [ToGltfDoc] in which the single mesh and the single node (which refers
    to the mesh 0) have [filename] as their name. *)
Theorem writeGltf_always_writes_one_named_file :
  forall (uint32_unrepresentable : spec_float -> Z)
         (json_text json_text_indent : json -> list Z)
         (base64_EncodeToString : list Z -> string)
         (vertexColors : bool) (model : Model) (atlas : list Z) (filename : string)
         (embeddedGltf : bool),
    exists (gltfDoc named : GlTF) (gltfFileContents : list Z),
      ToGltfDoc uint32_unrepresentable base64_EncodeToString vertexColors model atlas
        = Some gltfDoc /\
      namedDoc gltfDoc filename = Some named /\
      Mesh_Name <$> GlTF_Meshes named = [filename] /\
      Node_Name <$> GlTF_Nodes named = [filename] /\
      Mesh_Primitives <$> GlTF_Meshes named = Mesh_Primitives <$> GlTF_Meshes gltfDoc /\
      Node_Mesh <$> GlTF_Nodes named = [any_int 0] /\
      GlTF_Buffers named = GlTF_Buffers gltfDoc /\
      (if embeddedGltf
       then SerializeEmbeddedGlTF json_text_indent base64_EncodeToString named
       else SerializeBinaryGlTF json_text named) = Some gltfFileContents /\
      writeGltf uint32_unrepresentable json_text json_text_indent base64_EncodeToString
                vertexColors model atlas filename embeddedGltf
        = Some (String.append filename (if embeddedGltf then ".gltf" else ".glb"),
                gltfFileContents).
Proof.
  intros u32 jt jti b64 vc model atlas filename embedded.
  destruct (ToGltfDoc_shape u32 b64 vc model atlas)
    as (doc & mesh & node & b0 & Hdoc & Hm & Hn & Hb & Hmn & Hnn & Hnm).
  set (named := set_Meshes_Nodes doc [set_Mesh_Name mesh filename]
                                 [set_Node_Name node filename]).
  assert (Hnamed : namedDoc doc filename = Some named).
  { unfold namedDoc. now rewrite Hm, Hn. }
  assert (Hb' : GlTF_Buffers named = [b0]) by exact Hb.
  assert (Hb0 : GlTF_Buffers named !! 0%nat = Some b0) by now rewrite Hb'.
  exists doc, named.
  exists (if embedded
          then json_MarshalIndent jti
                 (set_Buffers named [set_URI b0 (dataURI b64 (GltfBuffer_Bytes b0))])
          else glbBytes (glbSizes_of (json_Marshal jt named) (GltfBuffer_Bytes b0))
                        (json_Marshal jt named) (GltfBuffer_Bytes b0)).
  split; [exact Hdoc|]. split; [exact Hnamed|].
  split; [reflexivity|]. split; [reflexivity|].
  split; [subst named; cbn [set_Meshes_Nodes GlTF_Meshes]; now rewrite Hm|].
  split; [subst named; cbn [set_Meshes_Nodes GlTF_Nodes fmap list_fmap set_Node_Name Node_Mesh];
          now rewrite Hnm|].
  split; [exact (eq_trans Hb' (eq_sym Hb))|].
  unfold writeGltf. rewrite Hdoc. cbn [mbind option_bind]. rewrite Hnamed.
  cbn [mbind option_bind].
  destruct embedded.
  - rewrite (SerializeEmbeddedGlTF_value jti b64 named b0 [] Hb'). split; reflexivity.
  - rewrite (SerializeBinaryGlTF_layout jt named b0 Hb0). split; reflexivity.
Qed.

(** ** The bounds and the bytes of the packed indices *)

(** The [float64] of an integer below [2 ^ 32] is exact. *)
Lemma F64_of_Z_pos (p : positive) :
  Zpos p < 2 ^ 32 ->
  F64.of_Z (Zpos p)
  = S754_finite false (Pos.iter xO p (shift64 p)) (- Zpos (shift64 p)).
Proof.
  intros Hp. pose proof (digits2_bounds p) as Hd.
  assert (Hd32 : Zpos (digits2_pos p) <= 32).
  { destruct (Z_le_gt_dec (Zpos (digits2_pos p)) 32) as [H|H]; [exact H|].
    assert (2 ^ 32 <= 2 ^ (Zpos (digits2_pos p) - 1)) by (apply Z.pow_le_mono_r; lia). lia. }
  assert (Hk : Zpos (shift64 p) = 53 - Zpos (digits2_pos p))
    by (unfold shift64; apply Z2Pos.id; lia).
  unfold F64.of_Z, binary_normalize.
  rewrite (binary_round_normalize F64.prec F64.emax false p 0 (shift64 p));
    unfold F64.prec, F64.emax; try lia.
  reflexivity.
Qed.

Lemma float_trunc_F64_of_Z (z : Z) : 0 <= z < 2 ^ 32 -> float_trunc (F64.of_Z z) = Some z.
Proof.
  intros Hz. destruct z as [|p|p]; [reflexivity| |lia].
  rewrite F64_of_Z_pos by lia. simpl float_trunc. f_equal.
  rewrite Pos_iter_nat, Zpos_iter_xO, positive_nat_Z.
  rewrite Z.shiftl_div_pow2 by lia. rewrite Z.opp_involutive.
  apply Z.div_mul. pose proof (Z.pow_pos_nonneg 2 (Zpos (shift64 p))). lia.
Qed.

Lemma uint32_of_float_F64_of_Z u32 (z : Z) :
  0 <= z < 2 ^ 32 -> uint32_of_float u32 (F64.of_Z z) = z.
Proof.
  intros Hz. unfold uint32_of_float. rewrite float_trunc_F64_of_Z by assumption.
  destruct (Z.leb_spec 0 z); [|lia]. destruct (Z.ltb_spec z (2 ^ 32)); [reflexivity | lia].
Qed.

(** The order of these floats is the order of the integers. *)
Lemma SFcompare_F64_of_Z (a b : Z) :
  0 <= a < 2 ^ 32 -> 0 <= b < 2 ^ 32 ->
  SFcompare (F64.of_Z a) (F64.of_Z b) = Some (a ?= b).
Proof.
  intros Ha Hb.
  destruct a as [|p|p]; [| |lia]; destruct b as [|q|q]; try lia;
    rewrite ?F64_of_Z_pos by lia; try reflexivity.
  pose proof (digits2_bounds p) as Hp. pose proof (digits2_bounds q) as Hq.
  assert (Hdp : Zpos (digits2_pos p) <= 32).
  { destruct (Z_le_gt_dec (Zpos (digits2_pos p)) 32) as [H|H]; [exact H|].
    assert (2 ^ 32 <= 2 ^ (Zpos (digits2_pos p) - 1)) by (apply Z.pow_le_mono_r; lia). lia. }
  assert (Hdq : Zpos (digits2_pos q) <= 32).
  { destruct (Z_le_gt_dec (Zpos (digits2_pos q)) 32) as [H|H]; [exact H|].
    assert (2 ^ 32 <= 2 ^ (Zpos (digits2_pos q) - 1)) by (apply Z.pow_le_mono_r; lia). lia. }
  assert (Hkp : Zpos (shift64 p) = 53 - Zpos (digits2_pos p))
    by (unfold shift64; apply Z2Pos.id; lia).
  assert (Hkq : Zpos (shift64 q) = 53 - Zpos (digits2_pos q))
    by (unfold shift64; apply Z2Pos.id; lia).
  cbn [SFcompare]. f_equal.
  change (Pos.compare_cont Eq (Pos.iter xO p (shift64 p)) (Pos.iter xO q (shift64 q)))
    with (Pos.compare (Pos.iter xO p (shift64 p)) (Pos.iter xO q (shift64 q))).
  rewrite Pos2Z.inj_compare.
  rewrite !Pos_iter_nat, !Zpos_iter_xO, !positive_nat_Z, Hkp, Hkq.
  set (dp := Zpos (digits2_pos p)) in *. set (dq := Zpos (digits2_pos q)) in *.
  destruct (Z.compare_spec dp dq) as [Hd | Hd | Hd].
  - rewrite Hd, Z.compare_refl.
    symmetry. apply Zmult_compare_compat_r. apply Z.lt_gt, Z.pow_pos_nonneg; lia.
  - replace (- (53 - dp) ?= - (53 - dq)) with Lt by (symmetry; apply Z.compare_lt_iff; lia).
    symmetry. apply Z.compare_lt_iff.
    assert (2 ^ dp <= 2 ^ (dq - 1)) by (apply Z.pow_le_mono_r; lia). lia.
  - replace (- (53 - dp) ?= - (53 - dq)) with Gt by (symmetry; apply Z.compare_gt_iff; lia).
    symmetry. apply Z.compare_gt_iff.
    assert (2 ^ dq <= 2 ^ (dp - 1)) by (apply Z.pow_le_mono_r; lia). lia.
Qed.

Lemma F64_of_Z_not_special (z : Z) (s : bool) :
  0 <= z < 2 ^ 32 -> is_inf s (F64.of_Z z) = false /\ is_nan (F64.of_Z z) = false.
Proof.
  intros Hz. destruct z as [|p|p]; [now split| |lia].
  rewrite F64_of_Z_pos by lia. now split.
Qed.

Lemma math_Max_F64_of_Z (a b : Z) :
  0 <= a < 2 ^ 32 -> 0 <= b < 2 ^ 32 ->
  math_Max (F64.of_Z a) (F64.of_Z b) = F64.of_Z (Z.max a b).
Proof.
  intros Ha Hb. unfold math_Max.
  destruct (F64_of_Z_not_special a false Ha) as [-> ->].
  destruct (F64_of_Z_not_special b false Hb) as [-> ->].
  cbn [orb]. unfold F64.eqb, F64.ltb, SFeqb, SFltb.
  change (S754_zero false) with (F64.of_Z 0).
  rewrite !SFcompare_F64_of_Z by lia.
  destruct (Z.compare_spec a 0), (Z.compare_spec a b), (Z.compare_spec b a);
    try lia; subst; cbn -[F64.of_Z Z.max]; f_equal; lia.
Qed.

Lemma math_Min_F64_of_Z (a b : Z) :
  0 <= a < 2 ^ 32 -> 0 <= b < 2 ^ 32 ->
  math_Min (F64.of_Z a) (F64.of_Z b) = F64.of_Z (Z.min a b).
Proof.
  intros Ha Hb. unfold math_Min.
  destruct (F64_of_Z_not_special a true Ha) as [-> ->].
  destruct (F64_of_Z_not_special b true Hb) as [-> ->].
  cbn [orb]. unfold F64.eqb, F64.ltb, SFeqb, SFltb.
  change (S754_zero false) with (F64.of_Z 0).
  rewrite !SFcompare_F64_of_Z by lia.
  destruct (Z.compare_spec a 0), (Z.compare_spec a b), (Z.compare_spec b a);
    try lia; subst; cbn -[F64.of_Z Z.min]; f_equal; lia.
Qed.

Lemma maxIndex_exact u32 (max i : Z) :
  0 <= max < 2 ^ 32 -> 0 <= i < 2 ^ 32 -> maxIndex u32 max i = Z.max max i.
Proof.
  intros Hm Hi. unfold maxIndex. rewrite math_Max_F64_of_Z by assumption.
  apply uint32_of_float_F64_of_Z. lia.
Qed.

Lemma minIndex_exact u32 (min i : Z) :
  0 <= min < 2 ^ 32 -> 0 <= i < 2 ^ 32 -> minIndex u32 min i = Z.min min i.
Proof.
  intros Hm Hi. unfold minIndex. rewrite math_Min_F64_of_Z by assumption.
  apply uint32_of_float_F64_of_Z. lia.
Qed.


Lemma fold_left_min_le (l : list Z) :
  forall a, fold_left Z.min l a <= a /\ Forall (fun i => fold_left Z.min l a <= i) l.
Proof.
  induction l as [|x l IH]; intros a; simpl; [split; [lia | constructor]|].
  destruct (IH (Z.min a x)) as [H1 H2]. split; [lia|].
  constructor; [lia | exact H2].
Qed.

Lemma fold_left_max_ge (l : list Z) :
  forall a, a <= fold_left Z.max l a /\ Forall (fun i => i <= fold_left Z.max l a) l.
Proof.
  induction l as [|x l IH]; intros a; simpl; [split; [lia | constructor]|].
  destruct (IH (Z.max a x)) as [H1 H2]. split; [lia|].
  constructor; [lia | exact H2].
Qed.

Lemma addTriangle_fold_bounds u32 (indices : list Triangle) :
  forall buf mn mx,
    0 <= mn < 2 ^ 32 -> 0 <= mx < 2 ^ 32 ->
    Forall index_ok (indexList indices) ->
    snd (fold_left (addTriangle_body u32) indices (buf, (mn, mx)))
    = (fold_left Z.min (indexList indices) mn, fold_left Z.max (indexList indices) mx).
Proof.
  induction indices as [|t indices IH]; intros buf mn mx Hmn Hmx Hok; [reflexivity|].
  cbn [indexList flat_map app] in Hok.
  apply Forall_cons_1 in Hok as [H0 Hok]. apply Forall_cons_1 in Hok as [H1 Hok].
  apply Forall_cons_1 in Hok as [H2 Hok]. unfold index_ok in H0, H1, H2.
  cbn [fold_left indexList flat_map app]. unfold addTriangle_body at 2.
  rewrite (maxIndex_exact u32 mx (TriangleIndices0 t)) by lia.
  rewrite (maxIndex_exact u32 _ (TriangleIndices1 t)) by lia.
  rewrite (maxIndex_exact u32 _ (TriangleIndices2 t)) by lia.
  rewrite (minIndex_exact u32 mn (TriangleIndices0 t)) by lia.
  rewrite (minIndex_exact u32 _ (TriangleIndices1 t)) by lia.
  rewrite (minIndex_exact u32 _ (TriangleIndices2 t)) by lia.
  apply IH; [lia | lia | exact Hok].
Qed.

(** X8. When no index of the triangles is negative, [addTriangleArrayToBuffer]
    returns as minimum the least of 100 and the indices, and as maximum
    the greatest of 0 and the indices: every index lies between the two,
    the minimum is 100 when every index is above 100 (and for no triangle
    at all), and the conversions through [float64] lose nothing. *)
Theorem addTriangleArrayToBuffer_returns_the_least_and_the_greatest_index :
  forall (uint32_unrepresentable : spec_float -> Z) (outBuf : list Z)
         (indices : list Triangle),
    Forall index_ok (indexList indices) ->
    let '(min, max) :=
      snd (addTriangleArrayToBuffer uint32_unrepresentable outBuf indices) in
    min = fold_left Z.min (indexList indices) 100 /\
    max = fold_left Z.max (indexList indices) 0 /\
    Forall (fun i => min <= i <= max) (indexList indices).
Proof.
  intros u32 buf indices Hok. unfold addTriangleArrayToBuffer.
  rewrite addTriangle_fold_bounds by (assumption || lia).
  split; [reflexivity|]. split; [reflexivity|].
  destruct (fold_left_min_le (indexList indices) 100) as [_ Hmin].
  destruct (fold_left_max_ge (indexList indices) 0) as [_ Hmax].
  rewrite Forall_forall in *. intros i Hi. split; [now apply Hmin | now apply Hmax].
Qed.

Lemma addTriangleArrayToBuffer_returns_the_least_and_the_greatest_index_witness :
  Forall index_ok (indexList [ {| TriangleIndices := (0, 1, 2) |} ]) /\
  snd (addTriangleArrayToBuffer (fun _ => 0) [] [ {| TriangleIndices := (0, 1, 2) |} ])
  = (0, 2).
Proof.
  assert (H : Forall index_ok (indexList [ {| TriangleIndices := (0, 1, 2) |} ])).
  { unfold indexList, index_ok. cbv [flat_map app TriangleIndices0 TriangleIndices1
      TriangleIndices2 TriangleIndices fst snd].
    repeat (apply Forall_cons_2; [lia|]). apply Forall_nil_2. }
  split; [exact H|].
  pose proof (addTriangleArrayToBuffer_returns_the_least_and_the_greatest_index
                (fun _ => 0) [] [ {| TriangleIndices := (0, 1, 2) |} ] H) as Hthm.
  destruct (snd (addTriangleArrayToBuffer (fun _ => 0) [] [ {| TriangleIndices := (0, 1, 2) |} ]))
    as [mn mx].
  destruct Hthm as (-> & -> & _). reflexivity.
Defined.

Lemma int32_uint32 (v : Z) : in_int32 v -> int32 (uint32 v) = v.
Proof.
  unfold in_int32, int32, uint32. change (2 ^ 31) with 2147483648.
  change (2 ^ 32) with 4294967296. intros H. Z.div_mod_to_equations. lia.
Qed.

Lemma uint32At_bytesOfTriangle (pre rest : list Z) (t : Triangle) :
  uint32At (pre ++ bytesOfTriangle t ++ rest) (len pre) = uint32 (TriangleIndices0 t) /\
  uint32At (pre ++ bytesOfTriangle t ++ rest) (len pre + 4) = uint32 (TriangleIndices1 t) /\
  uint32At (pre ++ bytesOfTriangle t ++ rest) (len pre + 8) = uint32 (TriangleIndices2 t).
Proof.
  unfold bytesOfTriangle, putInt32. rewrite <- !app_assoc. split; [|split].
  - apply uint32At_putUint32, uint32_range.
  - rewrite (app_assoc pre).
    replace (len pre + 4) with (len (pre ++ putUint32 (uint32 (TriangleIndices0 t))))
      by (rewrite len_app, len_putUint32; lia).
    apply uint32At_putUint32, uint32_range.
  - rewrite (app_assoc (putUint32 (uint32 (TriangleIndices0 t)))), (app_assoc pre).
    replace (len pre + 8)
      with (len (pre ++ putUint32 (uint32 (TriangleIndices0 t))
                     ++ putUint32 (uint32 (TriangleIndices1 t))))
      by (rewrite !len_app, !len_putUint32; lia).
    apply uint32At_putUint32, uint32_range.
Qed.

(** X9. The indices [addTriangleArrayToBuffer] has packed can be read
    back: the three [int32] of the triangle [k] are the little-endian
    32-bit values at the bytes [12 * k], [12 * k + 4] and [12 * k + 8]
    after the former end of the buffer. *)
Theorem addTriangleArrayToBuffer_indices_can_be_read_back :
  forall (uint32_unrepresentable : spec_float -> Z) (outBuf : list Z)
         (indices : list Triangle) (k : nat) (t : Triangle),
    indices !! k = Some t ->
    in_int32 (TriangleIndices0 t) -> in_int32 (TriangleIndices1 t) ->
    in_int32 (TriangleIndices2 t) ->
    let out := fst (addTriangleArrayToBuffer uint32_unrepresentable outBuf indices) in
    let off := len outBuf + 12 * Z.of_nat k in
    int32 (uint32At out off) = TriangleIndices0 t /\
    int32 (uint32At out (off + 4)) = TriangleIndices1 t /\
    int32 (uint32At out (off + 8)) = TriangleIndices2 t.
Proof.
  intros u32 buf indices k t Hk H0 H1 H2. cbv zeta.
  rewrite addTriangleArrayToBuffer_written.
  rewrite <- (take_drop_middle indices k t Hk), flat_map_app. cbn [flat_map].
  rewrite (app_assoc buf).
  assert (Hlen : len (buf ++ flat_map bytesOfTriangle (take k indices))
                 = len buf + 12 * Z.of_nat k).
  { rewrite len_app, (len_flat_map_const bytesOfTriangle 12) by apply len_bytesOfTriangle.
    unfold len at 2. rewrite length_take. apply lookup_lt_Some in Hk. lia. }
  rewrite <- Hlen.
  destruct (uint32At_bytesOfTriangle (buf ++ flat_map bytesOfTriangle (take k indices))
              (flat_map bytesOfTriangle (drop (S k) indices)) t) as (E0 & E1 & E2).
  rewrite E0, E1, E2. now rewrite !int32_uint32.
Qed.

Lemma addTriangleArrayToBuffer_indices_can_be_read_back_witness :
  int32 (uint32At (fst (addTriangleArrayToBuffer (fun _ => 0) [7; 7]
                          [ {| TriangleIndices := (0, 1, 2) |};
                            {| TriangleIndices := (-1, 256, 65536) |} ])) 14) = -1.
Proof.
  apply (addTriangleArrayToBuffer_indices_can_be_read_back (fun _ => 0) [7; 7]
           [ {| TriangleIndices := (0, 1, 2) |}; {| TriangleIndices := (-1, 256, 65536) |} ]
           1%nat {| TriangleIndices := (-1, 256, 65536) |} eq_refl);
    unfold in_int32, TriangleIndices0, TriangleIndices1, TriangleIndices2; cbn [TriangleIndices fst snd];
    lia.
Defined.

(** ** The consolidated mesh: what is kept *)




Lemma totalVertices_nonneg (meshes : list Geometry) : 0 <= totalVertices meshes.
Proof.
  induction meshes as [|mesh meshes IH]; simpl; [lia|].
  pose proof (len_nonneg (Vertices mesh)). lia.
Qed.

Lemma exactFaces_inRange (meshes : list Geometry) :
  forall count,
    0 <= count -> Forall inRange meshes ->
    Forall (fun t => 0 <= TriangleIndices0 t < count + totalVertices meshes /\
                     0 <= TriangleIndices1 t < count + totalVertices meshes /\
                     0 <= TriangleIndices2 t < count + totalVertices meshes)
           (exactFaces count meshes).
Proof.
  induction meshes as [|mesh meshes IH]; intros count Hc Hin; [constructor|].
  apply Forall_cons_1 in Hin as [Hmesh Hin].
  pose proof (len_nonneg (Vertices mesh)) as Hv.
  pose proof (totalVertices_nonneg meshes) as Ht.
  cbn [exactFaces totalVertices fold_right]. fold (totalVertices meshes).
  apply Forall_app. split.
  - unfold inRange in Hmesh. apply Forall_map. eapply Forall_impl; [exact Hmesh|].
    intros t (H0 & H1 & H2). unfold addToTriangle, TriangleIndices0, TriangleIndices1,
      TriangleIndices2 in *. cbn [TriangleIndices fst snd]. lia.
  - eapply Forall_impl; [apply IH; [lia | exact Hin]|].
    intros t (H0 & H1 & H2). cbv beta. lia.
Qed.

(** X11. When every index of every mesh of the model is an index into the
    vertices of its mesh, and the model has fewer than [2 ^ 31] vertices,
    every index of the mesh [optimizeModel] returns is an index into the
    vertices of that mesh. *)
Theorem optimizeModel_keeps_indices_in_range :
  forall (uint8_unrepresentable : spec_float -> Z) (png_Encode : RGBA -> list Z)
         (vertexColors : bool) (model : Model),
    Forall inRange (Meshes model) ->
    totalVertices (Meshes model) < 2 ^ 31 ->
    exists mesh : Geometry,
      Meshes (fst (optimizeModel uint8_unrepresentable png_Encode vertexColors model))
        = [mesh] /\
      len (Vertices mesh) = totalVertices (Meshes model) /\
      inRange mesh.
Proof.
  intros u8 png vc model Hin Htot. rewrite optimizeModel_spec. cbn [fst Meshes].
  eexists. split; [reflexivity|]. cbn [Vertices Faces].
  assert (Hlen : len (if vc then remappedVertices (Meshes model)
                      else atlasVertices 0 (Meshes model))
                 = totalVertices (Meshes model)).
  { destruct vc; [apply len_remappedVertices | apply len_atlasVertices]. }
  split; [exact Hlen|].
  unfold inRange. cbn [Vertices Faces]. rewrite Hlen.
  rewrite consolidatedFaces_exact by (apply noOverflow_of_inRange; [lia | lia | exact Hin]).
  exact (exactFaces_inRange (Meshes model) 0 ltac:(lia) Hin).
Qed.

Lemma optimizeModel_keeps_indices_in_range_witness :
  exists mesh : Geometry,
    Meshes (fst (optimizeModel (fun _ => 0) (fun _ => []) true
                   {| Meshes := [exampleMesh; oneTriangle] |})) = [mesh] /\
    len (Vertices mesh) = 4 /\ inRange mesh.
Proof.
  apply (optimizeModel_keeps_indices_in_range (fun _ => 0) (fun _ => []) true
           {| Meshes := [exampleMesh; oneTriangle] |}).
  - cbn [Meshes]. apply Forall_cons_2; [|apply Forall_cons_2; [|apply Forall_nil_2]];
      unfold inRange; (apply Forall_cons_2; [|apply Forall_nil_2]);
      cbv; repeat split; (reflexivity || discriminate).
  - reflexivity.
Defined.

(** ** The atlas and the material of the consolidated mesh *)

Lemma RGBA_Set_outside img x y c :
  atlas32 img -> ~ (0 <= x < 32 /\ 0 <= y < 32) -> RGBA_Set img x y c = img.
Proof.
  intros Himg Hout. unfold RGBA_Set.
  destruct (In_Rect img x y) eqn:E; [|reflexivity].
  apply (In_Rect_atlas32 img x y Himg) in E. contradiction.
Qed.

Lemma atlasImage_after_1024 u8 (meshes : list Geometry) :
  forall i img, 1024 <= i -> atlas32 img -> atlasImage u8 i meshes img = img.
Proof.
  induction meshes as [|mesh meshes IH]; intros i img Hi Himg; [reflexivity|].
  cbn [atlasImage]. rewrite RGBA_Set_outside; [apply IH; [lia | exact Himg] | exact Himg |].
  intros [_ Hy].
  assert (32 <= Z.quot i 32) by (apply Z.quot_le_lower_bound; lia). lia.
Qed.

Lemma atlasImage_app u8 (a b : list Geometry) :
  forall i img,
    atlasImage u8 i (a ++ b) img = atlasImage u8 (i + len a) b (atlasImage u8 i a img).
Proof.
  induction a as [|mesh a IH]; intros i img.
  - cbn [app atlasImage]. f_equal. unfold len. simpl. lia.
  - cbn [app atlasImage]. rewrite IH. f_equal. rewrite len_cons. lia.
Qed.

Lemma atlas32_atlasImage u8 (meshes : list Geometry) :
  forall i img, atlas32 img -> atlas32 (atlasImage u8 i meshes img).
Proof.
  induction meshes as [|mesh meshes IH]; intros i img Himg; [exact Himg|].
  cbn [atlasImage]. apply IH. now apply atlas32_RGBA_Set.
Qed.

(** X12. The texture atlas has room for 1024 meshes: the pixels
    [optimizeModel] sets for the meshes from the 1025th on fall outside
    the image and are dropped, so the atlas it returns is that of the
    first 1024 meshes of the model. *)
Theorem optimizeModel_atlas_is_that_of_the_first_1024_meshes :
  forall (uint8_unrepresentable : spec_float -> Z) (png_Encode : RGBA -> list Z)
         (model : Model),
    snd (optimizeModel uint8_unrepresentable png_Encode false model)
    = snd (optimizeModel uint8_unrepresentable png_Encode false
             {| Meshes := take 1024 (Meshes model) |}).
Proof.
  intros u8 png model. rewrite !optimizeModel_spec. cbn [snd Meshes]. f_equal.
  rewrite <- (take_drop 1024 (Meshes model)) at 1.
  rewrite atlasImage_app.
  destruct (Nat.le_gt_cases (length (Meshes model)) 1024) as [Hle | Hgt].
  - rewrite (drop_ge (Meshes model) 1024) by exact Hle. reflexivity.
  - apply atlasImage_after_1024.
    + unfold len. rewrite length_take. lia.
    + apply atlas32_atlasImage, atlas32_NewRGBA.
Qed.

Lemma json_flatMaterial vc vs fs :
  json_GltfMaterial
    (assembledMaterial vc {| Vertices := vs; Faces := fs; Material_ := flatMaterial |})
  = flatMaterialJSON vc.
Proof. destruct vc; vm_compute; reflexivity. Qed.

(** X13. Whatever the materials of the model, the document [ToGltfDoc]
    makes of what [optimizeModel] returns has a single material, which its
    single primitive uses: double sided, without an alpha mode, with the
    metallic factor 0 and the roughness factor 0, which is left out of the
    JSON, as an empty value, and with the texture 0 as base color texture
    in the texture atlas case. *)
Theorem optimizeModel_then_ToGltfDoc_has_one_flat_material :
  forall (uint8_unrepresentable uint32_unrepresentable : spec_float -> Z)
         (png_Encode : RGBA -> list Z) (base64_EncodeToString : list Z -> string)
         (vertexColors : bool) (model : Model),
    exists (gltfDoc : GlTF) (material : GltfMaterial),
      ToGltfDoc uint32_unrepresentable base64_EncodeToString vertexColors
                (fst (optimizeModel uint8_unrepresentable png_Encode vertexColors model))
                (snd (optimizeModel uint8_unrepresentable png_Encode vertexColors model))
        = Some gltfDoc /\
      GlTF_Materials gltfDoc = [material] /\
      materialIndices gltfDoc = [0] /\
      GltfMaterial_AlphaMode material = any_nil /\
      Pbr_RoughnessFactor (pbr material) = S754_zero false /\
      json_GltfMaterial material = flatMaterialJSON vertexColors.
Proof.
  intros u8 u32 png b64 vc model. rewrite optimizeModel_spec. cbn [fst snd].
  set (vs := if vc then remappedVertices (Meshes model) else atlasVertices 0 (Meshes model)).
  set (fs := consolidatedFaces 0 (Meshes model)).
  set (mesh := {| Vertices := vs; Faces := fs; Material_ := flatMaterial |}).
  unfold ToGltfDoc, ToGltfDoc_run. cbn [Meshes].
  rewrite ToGltfDoc_loop_one. unfold Loop0. rewrite ToGltfDoc_body_unfold.
  change (addMaterial (assembledMaterial vc mesh) [])
    with (Some (0, [assembledMaterial vc mesh])).
  cbv iota beta. cbn [fmap option_fmap option_map fst].
  eexists. exists (assembledMaterial vc mesh).
  split; [reflexivity|]. cbn [GlTF_Materials]. split; [reflexivity|].
  split; [reflexivity|].
  split; [destruct vc; reflexivity|].
  split; [destruct vc; vm_compute; reflexivity|].
  apply json_flatMaterial.
Qed.

(** ** The equality of materials and the deduplicator, once more *)

(** X14. [areMaterialsEqual] panics exactly when one of the two base color
    factors has fewer than four components, and it is symmetric: the
    order of its arguments changes neither the panic nor the result. *)
Theorem areMaterialsEqual_panics_below_four_factors_and_is_symmetric :
  forall a b : GltfMaterial,
    (areMaterialsEqual a b = None <-> ~ fourFactors a \/ ~ fourFactors b) /\
    areMaterialsEqual a b = areMaterialsEqual b a.
Proof.
  intros a b. unfold areMaterialsEqual, fourFactors, pbr.
  destruct (Pbr_BaseColorFactor (GltfMaterial_PbrMetallicRoughness a))
    as [|a0 [|a1 [|a2 [|a3 ra]]]];
    destruct (Pbr_BaseColorFactor (GltfMaterial_PbrMetallicRoughness b))
      as [|b0 [|b1 [|b2 [|b3 rb]]]];
    cbn [lookup list_lookup length];
    (split; [split; [intros H; try discriminate H; (left; lia) || (right; lia)
                    | intros [H | H]; try reflexivity; exfalso; apply H; lia]
            | try reflexivity]).
  unfold F64.eqb. now rewrite !(SFeqb_sym a0), !(SFeqb_sym a1), !(SFeqb_sym a2),
    !(SFeqb_sym a3), (SFeqb_sym (Pbr_MetallicFactor _)), (SFeqb_sym (Pbr_RoughnessFactor _)).
Qed.

Lemma addMaterial_scan_app material (l1 l2 : list GltfMaterial) :
  forall i,
    addMaterial_scan material i (l1 ++ l2)
    = match addMaterial_scan material i l1 with
      | Some None => addMaterial_scan material (i + len l1) l2
      | r => r
      end.
Proof.
  induction l1 as [|m l1 IH]; intros i.
  - cbn [app addMaterial_scan]. f_equal. unfold len. simpl. lia.
  - cbn [app addMaterial_scan].
    destruct (areMaterialsEqual m material) as [[|]|]; try reflexivity.
    rewrite IH, len_cons. replace (i + 1 + len l1) with (i + (1 + len l1)) by lia.
    reflexivity.
Qed.

(** X15. Adding the same material again changes nothing: for a material
    that is equal to itself (four factors, none of its numbers a NaN),
    a second [addMaterial] on the list the first one returned returns the
    same index and the same list. *)
Theorem addMaterial_again_returns_the_same_index :
  forall (material : GltfMaterial) (gltfMaterials newMaterials : list GltfMaterial)
         (materialIndex : Z),
    areMaterialsEqual material material = Some true ->
    addMaterial material gltfMaterials = Some (materialIndex, newMaterials) ->
    addMaterial material newMaterials = Some (materialIndex, newMaterials).
Proof.
  intros material l l' i Hrefl Hadd. unfold addMaterial in *.
  destruct (addMaterial_scan material 0 l) as [[j|]|] eqn:Hscan; try discriminate.
  - injection Hadd as <- <-. now rewrite Hscan.
  - injection Hadd as <- <-.
    rewrite addMaterial_scan_app, Hscan. cbn [addMaterial_scan]. rewrite Hrefl.
    f_equal. f_equal. rewrite len_app. unfold len. simpl. lia.
Qed.

Lemma addMaterial_again_returns_the_same_index_witness :
  addMaterial (assembledMaterial true exampleMesh) [assembledMaterial true exampleMesh]
  = Some (0, [assembledMaterial true exampleMesh]).
Proof.
  apply (addMaterial_again_returns_the_same_index
           (assembledMaterial true exampleMesh) [] [assembledMaterial true exampleMesh] 0);
    reflexivity.
Defined.

(** ** [mapRange] at the ends of its input range *)

Lemma SFsub_diag (prec emax : Z) (a : spec_float) :
  SFsub prec emax a a = S754_zero false \/ SFsub prec emax a a = S754_nan.
Proof.
  destruct a as [[|]|[|]| |s m e]; cbn [SFsub]; auto.
  left. rewrite Z.sub_diag. reflexivity.
Qed.

Lemma SFsub_diag_finite (prec emax : Z) (a : spec_float) :
  float_supported a = true -> SFsub prec emax a a = S754_zero false.
Proof.
  destruct a as [[|]|[|]| |s m e]; cbn [SFsub float_supported]; try discriminate; auto.
  intros _. rewrite Z.sub_diag. reflexivity.
Qed.

Lemma SFdiv_by_zero (prec emax : Z) (x d : spec_float) :
  d = S754_zero false \/ d = S754_nan -> float_supported (SFdiv prec emax x d) = false.
Proof. intros [-> | ->]; destruct x as [[|]|[|]| |s m e]; reflexivity. Qed.

Lemma SFadd_not_finite (prec emax : Z) (q y : spec_float) :
  float_supported q = false -> float_supported (SFadd prec emax q y) = false.
Proof.
  destruct q as [?|[|]| |? ? ?]; try discriminate; intros _;
    destruct y as [?|[|]| |? ? ?]; reflexivity.
Qed.

(** X16. With an empty input range ([inMin] and [inMax] the same number)
    [mapRange] divides by zero: whatever the other arguments, its result
    is a NaN or an infinity, never a finite number. *)
Theorem mapRange_of_an_empty_input_range_is_not_finite :
  forall x inMin outMin outMax : spec_float,
    float_supported (mapRange x inMin inMin outMin outMax) = false.
Proof.
  intros x a lo hi. unfold mapRange, F64.add, F64.div, F64.sub.
  apply SFadd_not_finite, SFdiv_by_zero, SFsub_diag.
Qed.

(** X17. [mapRange] sends the lower end of the input range to the lower
    end of the output range exactly: when [inMin] is a finite number,
    [outMax - outMin] does not overflow, [inMax - inMin] is neither zero
    nor a NaN, and [outMin] is not a NaN, the result for [x = inMin] is
    equal ([==]) to [outMin]. *)
Theorem mapRange_sends_inMin_to_outMin :
  forall inMin inMax outMin outMax : spec_float,
    float_supported inMin = true ->
    float_supported (F64.sub outMax outMin) = true ->
    is_zero (F64.sub inMax inMin) = false ->
    is_nan (F64.sub inMax inMin) = false ->
    is_nan outMin = false ->
    F64.eqb (mapRange inMin inMin inMax outMin outMax) outMin = true.
Proof.
  intros a b lo hi Ha Hspan Hz Hn Hlo. unfold mapRange.
  unfold F64.sub at 1. rewrite (SFsub_diag_finite F64.prec F64.emax a Ha).
  destruct (F64.sub hi lo) as [s1| | |s1 m1 e1]; try discriminate Hspan;
    destruct (F64.sub b a) as [s2|s2| |s2 m2 e2]; try discriminate Hz; try discriminate Hn;
    cbn [F64.mul SFmul F64.div SFdiv xorb];
    destruct lo as [[|]|[|]| |s m e]; try discriminate Hlo;
    destruct s1, s2; cbn [F64.add SFadd xorb]; try reflexivity;
    apply SFeqb_refl; reflexivity.
Qed.

Lemma mapRange_sends_inMin_to_outMin_witness :
  F64.eqb (remap (S754_zero false)) (F64.of_ratio 4 100) = true.
Proof.
  apply (mapRange_sends_inMin_to_outMin (S754_zero false) (F64.of_Z 1)
           (F64.of_ratio 4 100) (F64.of_ratio 85 100)); vm_compute; reflexivity.
Defined.

(** ** The seeds of the bounds *)




Lemma addVector3_fold_components (data : list Vector3) :
  forall buf lo hi,
    snd (fold_left addVector3_body data (buf, (lo, hi)))
    = ({| X := fold_left min32 (map X data) (X lo); Y := fold_left min32 (map Y data) (Y lo);
          Z_ := fold_left min32 (map Z_ data) (Z_ lo) |},
       {| X := fold_left max32 (map X data) (X hi); Y := fold_left max32 (map Y data) (Y hi);
          Z_ := fold_left max32 (map Z_ data) (Z_ hi) |}).
Proof.
  induction data as [|v data IH]; intros buf lo hi; [now destruct lo, hi|].
  cbn [fold_left map]. unfold addVector3_body at 2. now rewrite IH.
Qed.






(** ** Floats that JSON does not have *)

Lemma max32_stuck (a b : spec_float) :
  stuck_high a = true \/ stuck_high b = true -> stuck_high (max32 a b) = true.
Proof.
  unfold max32, math_Max, float64_of_float32, float32_of_float64, stuck_high.
  intros [H | H]; [destruct a as [?|[|]| |? ? ?] | destruct b as [?|[|]| |? ? ?]];
    try discriminate H; cbn [F64.round is_inf is_nan orb Bool.eqb];
    repeat match goal with
           | |- context [is_inf ?s (F64.round ?z)] => destruct (is_inf s (F64.round z))
           end;
    cbn [orb]; rewrite ?orb_true_r; reflexivity.
Qed.

Lemma min32_stuck (a b : spec_float) :
  stuck_low a = true \/ stuck_low b = true -> stuck_low (min32 a b) = true.
Proof.
  unfold min32, math_Min, float64_of_float32, float32_of_float64, stuck_low.
  intros [H | H]; [destruct a as [?|[|]| |? ? ?] | destruct b as [?|[|]| |? ? ?]];
    try discriminate H; cbn [F64.round is_inf is_nan orb Bool.eqb];
    repeat match goal with
           | |- context [is_inf ?s (F64.round ?z)] => destruct (is_inf s (F64.round z))
           end;
    cbn [orb]; rewrite ?orb_true_r; reflexivity.
Qed.

Lemma fold_max32_stuck (l : list spec_float) :
  forall a,
    stuck_high a = true \/ Exists (fun x => stuck_high x = true) l ->
    stuck_high (fold_left max32 l a) = true.
Proof.
  induction l as [|x l IH]; intros a [Ha | Hl]; cbn [fold_left].
  - exact Ha.
  - inversion Hl.
  - apply IH. left. apply max32_stuck. now left.
  - apply IH. inversion Hl as [? ? Hx | ? ? Hl']; subst.
    + left. apply max32_stuck. now right.
    + now right.
Qed.

Lemma fold_min32_stuck (l : list spec_float) :
  forall a,
    stuck_low a = true \/ Exists (fun x => stuck_low x = true) l ->
    stuck_low (fold_left min32 l a) = true.
Proof.
  induction l as [|x l IH]; intros a [Ha | Hl]; cbn [fold_left].
  - exact Ha.
  - inversion Hl.
  - apply IH. left. apply min32_stuck. now left.
  - apply IH. inversion Hl as [? ? Hx | ? ? Hl']; subst.
    + left. apply min32_stuck. now right.
    + now right.
Qed.

Lemma unsupported_stuck (x : spec_float) :
  float_supported x = false -> stuck_high x = true \/ stuck_low x = true.
Proof. destruct x as [?|[|]| |? ? ?]; try discriminate; intros _; auto. Qed.

Lemma stuck_unsupported (x : spec_float) :
  stuck_high x = true \/ stuck_low x = true -> float_supported x = false.
Proof. destruct x as [?|[|]| |? ? ?]; intros [H | H]; try discriminate H; reflexivity. Qed.

(** A component that is not finite makes the minimum or the maximum of
    its component not finite. *)
Lemma fold_bounds_unsupported (l : list spec_float) (x : spec_float) :
  In x l -> float_supported x = false ->
  float_supported (fold_left max32 l seed_high) = false \/
  float_supported (fold_left min32 l seed_low) = false.
Proof.
  intros Hin Hx. destruct (unsupported_stuck x Hx) as [H | H].
  - left. apply stuck_unsupported. left. apply fold_max32_stuck. right.
    apply List.Exists_exists. exists x. split; [exact Hin | exact H].
  - right. apply stuck_unsupported. right. apply fold_min32_stuck. right.
    apply List.Exists_exists. exists x. split; [exact Hin | exact H].
Qed.

Lemma json_supported_JObject_app (a b : list (string * json)) :
  json_supported (JObject (a ++ b))
  = json_supported (JObject a) && json_supported (JObject b).
Proof. cbn [json_supported]. apply forallb_app. Qed.

Lemma json_supported_kv_slice (k : string) (items : list json) :
  json_supported (JObject (kv_slice k items)) = forallb json_supported items.
Proof.
  unfold kv_slice, kv_omitempty. destruct items as [|i items]; [reflexivity|].
  cbn [json_supported forallb snd]. now rewrite andb_true_r.
Qed.

Lemma forallb_Exists_false {T : Type} (f : T -> bool) (l : list T) :
  Exists (fun x => f x = false) l -> forallb f l = false.
Proof.
  induction 1 as [x l Hx | x l _ IH]; cbn [forallb].
  - now rewrite Hx.
  - rewrite IH. apply andb_false_r.
Qed.

Lemma forallb_map_JFloat32 (l : list spec_float) :
  forallb json_supported (map JFloat32 l) = forallb float_supported l.
Proof. induction l as [|x l IH]; [reflexivity|]. cbn [map forallb json_supported]. now rewrite IH. Qed.

(** [json.Marshal] fails on an accessor with such a bound, and on a
    document with such an accessor. *)
Lemma json_Accessor_unsupported (acc : Accessor) :
  unsupported_bounds acc -> json_supported (json_Accessor acc) = false.
Proof.
  unfold unsupported_bounds. intros H. apply Exists_app in H.
  unfold json_Accessor.
  repeat rewrite json_supported_JObject_app.
  rewrite !json_supported_kv_slice, !forallb_map_JFloat32.
  destruct H as [H | H]; rewrite (forallb_Exists_false _ _ H);
    rewrite ?andb_false_r, ?andb_false_l; reflexivity.
Qed.

Lemma json_GlTF_unsupported (d : GlTF) :
  Exists unsupported_bounds (GlTF_Accessors d) -> json_supported (json_GlTF d) = false.
Proof.
  intros H. unfold json_GlTF. rewrite json_supported_JObject_app, json_supported_kv_slice.
  rewrite forallb_Exists_false; [reflexivity|].
  apply Exists_exists in H as (acc & Hin & Hacc).
  apply Exists_exists. exists (json_Accessor acc). split.
  - exact (list_elem_of_fmap_2 json_Accessor _ acc Hin).
  - now apply json_Accessor_unsupported.
Qed.

Lemma getAccessorIndexFromVector3_bounds st (vectors : list Vector3) :
  exists acc,
    gltfAccessors (snd (getAccessorIndexFromVector3 st vectors)) = gltfAccessors st ++ [acc] /\
    Accessor_Max acc = [ fold_left max32 (map X vectors) seed_high;
                         fold_left max32 (map Y vectors) seed_high;
                         fold_left max32 (map Z_ vectors) seed_high ] /\
    Accessor_Min acc = [ fold_left min32 (map X vectors) seed_low;
                         fold_left min32 (map Y vectors) seed_low;
                         fold_left min32 (map Z_ vectors) seed_low ].
Proof.
  unfold getAccessorIndexFromVector3.
  pose proof (addVector3_fold_components vectors (outBuf st)
                {| X := seed_low; Y := seed_low; Z_ := seed_low |}
                {| X := seed_high; Y := seed_high; Z_ := seed_high |}) as H.
  fold (addVector3ArrayToBuffer (outBuf st) vectors) in H.
  destruct (addVector3ArrayToBuffer (outBuf st) vectors) as [buf' [mn mx]].
  cbn [snd] in H. injection H as -> ->.
  eexists. split; [reflexivity|]. split; reflexivity.
Qed.

Lemma position_bounds_unsupported (mesh : Geometry) (acc : Accessor) :
  position_not_finite mesh ->
  Accessor_Max acc = [ fold_left max32 (map X (getVertices mesh)) seed_high;
                       fold_left max32 (map Y (getVertices mesh)) seed_high;
                       fold_left max32 (map Z_ (getVertices mesh)) seed_high ] ->
  Accessor_Min acc = [ fold_left min32 (map X (getVertices mesh)) seed_low;
                       fold_left min32 (map Y (getVertices mesh)) seed_low;
                       fold_left min32 (map Z_ (getVertices mesh)) seed_low ] ->
  unsupported_bounds acc.
Proof.
  intros (v & Hv & Hbad) Hmax Hmin. unfold unsupported_bounds. rewrite Hmax, Hmin.
  rewrite getVertices_map, !map_map.
  assert (Hin : forall f : Vertex -> spec_float, In (f v) (map f (Vertices mesh)))
    by (intros f; now apply in_map).
  apply List.Exists_exists.
  destruct Hbad as [H | [H | H]].
  - destruct (fold_bounds_unsupported _ _ (Hin (fun x => X (Position x))) H) as [E | E];
      eexists; (split; [|exact E]); simpl; tauto.
  - destruct (fold_bounds_unsupported _ _ (Hin (fun x => Y (Position x))) H) as [E | E];
      eexists; (split; [|exact E]); simpl; tauto.
  - destruct (fold_bounds_unsupported _ _ (Hin (fun x => Z_ (Position x))) H) as [E | E];
      eexists; (split; [|exact E]); simpl; tauto.
Qed.

Lemma packMesh_keeps_accessors u32 vc pk mesh :
  exists more, gltfAccessors (packMesh u32 vc pk mesh) = gltfAccessors pk ++ more.
Proof.
  destruct (packMesh_closed u32 vc pk mesh) as (a0 & a1 & a2 & a3 & -> & _).
  eexists. reflexivity.
Qed.

Lemma packMesh_unsupported u32 vc pk mesh :
  position_not_finite mesh -> Exists unsupported_bounds (gltfAccessors (packMesh u32 vc pk mesh)).
Proof.
  intros Hbad. unfold packMesh.
  set (pk1 := snd (getAccessorIndexFromIndices u32 pk (Faces mesh))).
  destruct (getAccessorIndexFromVector3_bounds pk1 (getVertices mesh))
    as (acc & Haccs & Hmax & Hmin).
  set (pk2 := snd (getAccessorIndexFromVector3 pk1 (getVertices mesh))) in *.
  destruct (getAccessorIndexFromVector3_closed pk2 (getNormals mesh)) as (b2 & E2 & _).
  rewrite E2. cbn [snd].
  set (pk3 := {| outBuf := _ |}).
  assert (H3 : Exists unsupported_bounds (gltfAccessors pk3)).
  { subst pk3. cbn [gltfAccessors]. rewrite Haccs.
    apply Exists_app. left. apply Exists_app. right.
    apply Exists_cons_hd. now apply (position_bounds_unsupported mesh). }
  destruct (getAccessorIndexFromVector2_closed pk3 (getUVCoords mesh)) as (b3 & E3 & _).
  destruct (getAccessorIndexFromVector4_closed pk3 (getVertexColors mesh)) as (b4 & E4 & _).
  rewrite E3, E4. destruct vc; cbn [negb snd gltfAccessors]; apply Exists_app; now left.
Qed.

Lemma ToGltfDoc_body_unsupported u32 vc st mesh st' :
  (let '(pk, _, _, _) := st in Exists unsupported_bounds (gltfAccessors pk)) ->
  ToGltfDoc_body u32 vc st mesh = Some st' ->
  (let '(pk, _, _, _) := st' in Exists unsupported_bounds (gltfAccessors pk)).
Proof.
  destruct st as [[[pk mats] assocs] out]. intros H Hbody.
  rewrite ToGltfDoc_body_unfold in Hbody.
  destruct (addMaterial (assembledMaterial vc mesh) mats) as [[mi mats1]|]; [|discriminate].
  injection Hbody as <-.
  destruct (packMesh_keeps_accessors u32 vc pk mesh) as (more & ->).
  apply Exists_app. now left.
Qed.

Lemma ToGltfDoc_loop_unsupported u32 vc (meshes : list Geometry) (mesh : Geometry) :
  In mesh meshes -> position_not_finite mesh ->
  forall pk mats assocs out pk' mats' assocs' out',
    ToGltfDoc_loop u32 vc meshes (pk, mats, assocs, out) = Some (pk', mats', assocs', out') ->
    Exists unsupported_bounds (gltfAccessors pk').
Proof.
  intros Hin Hbad.
  induction meshes as [|m meshes IH]; [destruct Hin|].
  intros pk mats assocs out pk' mats' assocs' out' Hloop.
  rewrite ToGltfDoc_loop_cons in Hloop.
  destruct (ToGltfDoc_body u32 vc (pk, mats, assocs, out) m)
    as [[[[pk1 mats1] assocs1] out1]|] eqn:Hbody; [|discriminate].
  destruct Hin as [-> | Hin].
  - assert (H1 : Exists unsupported_bounds (gltfAccessors pk1)).
    { rewrite ToGltfDoc_body_unfold in Hbody.
      destruct (addMaterial (assembledMaterial vc mesh) mats) as [[mi mats2]|];
        [|discriminate].
      injection Hbody as <- _ _ _. now apply packMesh_unsupported. }
    exact (ToGltfDoc_loop_preserves u32 vc
             (fun st => let '(pk, _, _, _) := st in
                        Exists unsupported_bounds (gltfAccessors pk))
             (ToGltfDoc_body_unsupported u32 vc) meshes
             (pk1, mats1, assocs1, out1) (pk', mats', assocs', out') H1 Hloop).
  - exact (IH Hin _ _ _ _ _ _ _ _ Hloop).
Qed.

Lemma len_flat_map_meshBytes_mod4 vc (meshes : list Geometry) :
  len (flat_map (meshBytes vc) meshes) mod 4 = 0.
Proof.
  induction meshes as [|mesh meshes IH]; [reflexivity|].
  cbn [flat_map]. rewrite len_app, len_meshBytes. unfold meshSize.
  destruct vc; cbn [negb]; cbv iota; Z.div_mod_to_equations; lia.
Qed.

Lemma glbBytes_without_JSON (outBuf : list Z) :
  len outBuf mod 4 = 0 ->
  glbBytes (glbSizes_of [] outBuf) [] outBuf
  = bytes_of_string "glTF" ++ putUint32 2 ++ putUint32 (uint32 (28 + len outBuf))
      ++ putUint32 0 ++ bytes_of_string "JSON"
      ++ putUint32 (uint32 (len outBuf)) ++ BIN0 ++ outBuf.
Proof.
  intros Hal.
  destruct (glbSizes_of_modular [] outBuf) as (Hpj & Hpb & Hjs & Hbs & Hg).
  assert (Hpad : (- len outBuf) mod 4 = 0).
  { Z.div_mod_to_equations. lia. }
  assert (HB : paddedBIN outBuf = outBuf).
  { unfold paddedBIN. rewrite Hpad. apply app_nil_r. }
  unfold glbBytes. rewrite Hpj, Hpb, Hjs, Hbs, Hg, Hpad, HB.
  change (paddedJSON []) with (@nil Z). change (len (@nil Z)) with 0.
  change ((- 0) mod 4) with 0. change (spaces 0) with (@nil Z). change (nulls 0) with (@nil Z).
  change (uint32 0) with 0. rewrite app_nil_r. cbn [app].
  replace (28 + 0 + len outBuf) with (28 + len outBuf) by lia. reflexivity.
Qed.

(** X19. A position with a component that is a NaN or an infinity makes a
    bound of its accessor a NaN or an infinity, which [json.Marshal]
    refuses; both serializers drop the error and go on with no JSON text.
    So for every model with such a vertex [writeGltf] writes an empty
    ".gltf" file, or a ".glb" file whose JSON chunk has the length 0 and is
    followed by the binary chunk with the bytes of the meshes. *)
Theorem writeGltf_writes_no_JSON_for_a_position_that_is_not_finite :
  forall (uint32_unrepresentable : spec_float -> Z)
         (json_text json_text_indent : json -> list Z)
         (base64_EncodeToString : list Z -> string)
         (vertexColors : bool) (model : Model) (atlas : list Z) (filename : string)
         (mesh : Geometry),
    In mesh (Meshes model) -> position_not_finite mesh ->
    let payload := flat_map (meshBytes vertexColors) (Meshes model) in
    writeGltf uint32_unrepresentable json_text json_text_indent base64_EncodeToString
              vertexColors model atlas filename true
      = Some (String.append filename ".gltf", []) /\
    writeGltf uint32_unrepresentable json_text json_text_indent base64_EncodeToString
              vertexColors model atlas filename false
      = Some (String.append filename ".glb",
              bytes_of_string "glTF" ++ putUint32 2 ++ putUint32 (uint32 (28 + len payload))
                ++ putUint32 0 ++ bytes_of_string "JSON"
                ++ putUint32 (uint32 (len payload)) ++ BIN0 ++ payload).
Proof.
  intros u32 jt jti b64 vc model atlas filename mesh Hin Hbad payload.
  destruct (ToGltfDoc_run_aligned u32 b64 vc model atlas)
    as (doc & pk & mats & assocs & Hloop & Hrun & _ & _ & _ & Haccs & _ & b0 & Hb & Hbytes).
  pose proof (assembled_loop u32 vc (Meshes model) [] _ _ _ _ _ _ _ _
                (assembled_nil vc) Hloop) as (Hbuf & _).
  simpl app in Hbuf.
  pose proof (ToGltfDoc_loop_unsupported u32 vc (Meshes model) mesh Hin Hbad
                _ _ _ _ _ _ _ _ Hloop) as Hunsup.
  destruct (ToGltfDoc_shape u32 b64 vc model atlas)
    as (doc' & m & n & b0' & Hdoc & Hm & Hn & _).
  assert (doc' = doc).
  { unfold ToGltfDoc in Hdoc. rewrite Hrun in Hdoc. now injection Hdoc. }
  subst doc'.
  set (named := set_Meshes_Nodes doc [set_Mesh_Name m filename] [set_Node_Name n filename]).
  assert (Hnamed : namedDoc doc filename = Some named).
  { unfold namedDoc. now rewrite Hm, Hn. }
  assert (Hb' : GlTF_Buffers named = [b0]) by exact Hb.
  assert (Hb0 : GlTF_Buffers named !! 0%nat = Some b0) by now rewrite Hb'.
  assert (Hj : forall bs, json_supported (json_GlTF (set_Buffers named bs)) = false).
  { intros bs. apply json_GlTF_unsupported.
    change (GlTF_Accessors (set_Buffers named bs)) with (GlTF_Accessors doc).
    now rewrite Haccs. }
  assert (Hj' : json_supported (json_GlTF named) = false).
  { apply json_GlTF_unsupported.
    change (GlTF_Accessors named) with (GlTF_Accessors doc). now rewrite Haccs. }
  unfold writeGltf. rewrite Hdoc. cbn [mbind option_bind]. rewrite Hnamed.
  cbn [mbind option_bind]. split.
  - rewrite (SerializeEmbeddedGlTF_value jti b64 named b0 [] Hb'). cbn [option_bind].
    unfold json_MarshalIndent. now rewrite Hj.
  - rewrite (SerializeBinaryGlTF_layout jt named b0 Hb0). cbn [option_bind].
    unfold json_Marshal. rewrite Hj', Hbytes, Hbuf.
    rewrite glbBytes_without_JSON by apply len_flat_map_meshBytes_mod4.
    reflexivity.
Qed.

Lemma writeGltf_writes_no_JSON_for_a_position_that_is_not_finite_witness :
  writeGltf (fun _ => 0) (fun _ => [123; 125]) (fun _ => [123; 125]) (fun _ => ""%string)
            true {| Meshes := [nanMesh] |} [] "a" true
  = Some ("a.gltf"%string, []).
Proof.
  apply (writeGltf_writes_no_JSON_for_a_position_that_is_not_finite
           (fun _ => 0) (fun _ => [123; 125]) (fun _ => [123; 125]) (fun _ => ""%string)
           true {| Meshes := [nanMesh] |} [] "a" nanMesh).
  - left. reflexivity.
  - eexists. split; [left; reflexivity | left; reflexivity].
Defined.

(** ** The primitives, the textures and the file of the binary container *)

(** X20. The JSON of every primitive the assembler makes has exactly the
    keys "attributes", "indices" and "material" ("mode" is left out, as
    an empty value, while an index 0 is written); its attributes are
    COLOR_0, NORMAL and POSITION with vertex colors and NORMAL, POSITION
    and TEXCOORD_0 otherwise, in the order of their keys. *)
Theorem meshPrimitive_JSON :
  forall (vertexColors : bool) (assoc : meshInfoAssociation),
    json_MeshPrimitive (meshPrimitive_of vertexColors assoc)
    = primitiveJSON vertexColors assoc.
Proof.
  intros vc [i v n m uv c]. destruct vc; vm_compute; reflexivity.
Qed.

Lemma materials_of_step u32 vc done pk mats assocs out mesh pk' mats' assocs' out' :
  materials_of vc done mats ->
  ToGltfDoc_body u32 vc (pk, mats, assocs, out) mesh = Some (pk', mats', assocs', out') ->
  materials_of vc (done ++ [mesh]) mats'.
Proof.
  intros Hmats Hbody. rewrite ToGltfDoc_body_unfold in Hbody.
  destruct (addMaterial (assembledMaterial vc mesh) mats) as [[mi mats1]|] eqn:Hadd;
    [|discriminate].
  injection Hbody as _ <- _ _.
  assert (Hmono : materials_of vc (done ++ [mesh]) mats).
  { eapply Forall_impl; [exact Hmats|]. intros m (g & Hg & ->).
    exists g. split; [apply in_or_app; now left | reflexivity]. }
  destruct (addMaterial_list _ _ _ _ Hadd) as [-> | ->]; [exact Hmono|].
  apply Forall_app. split; [exact Hmono|].
  apply Forall_cons_2; [|apply Forall_nil_2].
  exists mesh. split; [apply in_or_app; right; now left | reflexivity].
Qed.

Lemma materials_of_loop u32 vc (rest : list Geometry) :
  forall done pk mats assocs out pk' mats' assocs' out',
    materials_of vc done mats ->
    ToGltfDoc_loop u32 vc rest (pk, mats, assocs, out) = Some (pk', mats', assocs', out') ->
    materials_of vc (done ++ rest) mats'.
Proof.
  induction rest as [|mesh rest IH]; intros done pk mats assocs out pk' mats' assocs' out' H Hl.
  - injection Hl as _ <- _ _. now rewrite app_nil_r.
  - rewrite ToGltfDoc_loop_cons in Hl.
    destruct (ToGltfDoc_body u32 vc (pk, mats, assocs, out) mesh)
      as [[[[pk1 mats1] assocs1] out1]|] eqn:Hb; [|discriminate].
    pose proof (materials_of_step _ _ _ _ _ _ _ _ _ _ _ _ H Hb) as H1.
    pose proof (IH _ _ _ _ _ _ _ _ _ H1 Hl) as H2.
    now rewrite <- app_assoc in H2.
Qed.

(** X21. Every material of the document of [ToGltfDoc] is the material
    [gltfMaterial] derives from a mesh of the model, with the base color
    factor (1, 1, 1, 1).  With vertex colors the document has no image and
    no texture, no material has a base color texture, and the atlas is
    not looked at; otherwise it has the one image whose URI is
    "data:image/png;base64," followed by the base64 text of the atlas, the
    one texture of source 0, and every material has the base color
    texture of index 0. *)
Theorem ToGltfDoc_textures_or_vertex_colors :
  forall (uint32_unrepresentable : spec_float -> Z)
         (base64_EncodeToString : list Z -> string)
         (vertexColors : bool) (model : Model) (atlas : list Z),
    exists gltfDoc : GlTF,
      ToGltfDoc uint32_unrepresentable base64_EncodeToString vertexColors model atlas
        = Some gltfDoc /\
      materials_of vertexColors (Meshes model) (GlTF_Materials gltfDoc) /\
      Forall (fun m => Pbr_BaseColorTexture (pbr m)
                       = if vertexColors then any_nil
                         else any_map (<["index"%string := 0]> ∅))
             (GlTF_Materials gltfDoc) /\
      GlTF_Images gltfDoc
        = (if vertexColors then []
           else [ {| GltfImage_URI :=
                       String.append "data:image/png;base64,"
                                     (base64_EncodeToString atlas) |} ]) /\
      GlTF_Textures gltfDoc
        = (if vertexColors then [] else [ {| GltfTexture_Source := any_int 0 |} ]) /\
      (vertexColors = true ->
       forall atlas' : list Z,
         ToGltfDoc uint32_unrepresentable base64_EncodeToString vertexColors model atlas'
           = Some gltfDoc).
Proof.
  intros u32 b64 vc model atlas.
  destruct (ToGltfDoc_run_aligned u32 b64 vc model atlas)
    as (doc & pk & mats & assocs & Hloop & _).
  pose proof (materials_of_loop u32 vc (Meshes model) [] _ _ _ _ _ _ _ _
                (Forall_nil_2 _) Hloop) as Hmats.
  simpl app in Hmats.
  unfold ToGltfDoc, ToGltfDoc_run. rewrite Hloop.
  eexists. split; [reflexivity|].
  cbn [fst GlTF_Materials GlTF_Images GlTF_Textures].
  split; [exact Hmats|]. split; [|split; [|split]].
  - eapply Forall_impl; [exact Hmats|]. intros m (g & _ & ->).
    unfold assembledMaterial, gltfMaterial.
    destruct (F32.ltb (Opacity (Material_ g)) (F32.of_Z 1)); destruct vc; reflexivity.
  - destruct vc; reflexivity.
  - destruct vc; reflexivity.
  - intros -> atlas'. reflexivity.
Qed.

(** X22. The ".glb" file [writeGltf] writes for a model: after the bytes
    of "glTF", the version 2 and the total length, the JSON chunk (its
    length, the bytes of "JSON", the JSON text of the named document
    padded with spaces) and the binary chunk (its length, the bytes of
    "BIN" and a null byte, and the bytes of the meshes of the model in
    order).  The binary chunk is never padded, so its length is the byte
    length the JSON declares for the buffer (modulo [2 ^ 32], as each
    length written). *)
Theorem writeGltf_glb_file_of_a_model :
  forall (uint32_unrepresentable : spec_float -> Z)
         (json_text json_text_indent : json -> list Z)
         (base64_EncodeToString : list Z -> string)
         (vertexColors : bool) (model : Model) (atlas : list Z) (filename : string),
    let payload := flat_map (meshBytes vertexColors) (Meshes model) in
    exists (named : GlTF) (buffer0 : GltfBuffer),
      (ToGltfDoc uint32_unrepresentable base64_EncodeToString vertexColors model atlas
         ≫= fun gltfDoc => namedDoc gltfDoc filename) = Some named /\
      GlTF_Buffers named = [buffer0] /\
      json_field "byteLength" (json_GltfBuffer buffer0) = Some (JInt (len payload)) /\
      json_field "uri" (json_GltfBuffer buffer0) = None /\
      len payload mod 4 = 0 /\
      let chunk0 := paddedJSON (json_Marshal json_text named) in
      writeGltf uint32_unrepresentable json_text json_text_indent base64_EncodeToString
                vertexColors model atlas filename false
        = Some (String.append filename ".glb",
                bytes_of_string "glTF" ++ putUint32 2
                  ++ putUint32 (uint32 (28 + len chunk0 + len payload))
                  ++ putUint32 (uint32 (len chunk0)) ++ bytes_of_string "JSON" ++ chunk0
                  ++ putUint32 (uint32 (len payload)) ++ BIN0 ++ payload).
Proof.
  intros u32 jt jti b64 vc model atlas filename payload.
  destruct (ToGltfDoc_run_aligned u32 b64 vc model atlas)
    as (doc & pk & mats & assocs & Hloop & Hrun & _).
  pose proof (assembled_loop u32 vc (Meshes model) [] _ _ _ _ _ _ _ _
                (assembled_nil vc) Hloop) as (Hbuf & _).
  simpl app in Hbuf. fold payload in Hbuf.
  destruct (ToGltfDoc_shape u32 b64 vc model atlas)
    as (doc' & m & n & b0 & Hdoc & Hm & Hn & Hb & _).
  assert (doc' = doc).
  { unfold ToGltfDoc in Hdoc. rewrite Hrun in Hdoc. now injection Hdoc. }
  subst doc'.
  assert (Hb0eq : b0 = {| GltfBuffer_ByteLength := len payload; GltfBuffer_Bytes := payload;
                          GltfBuffer_Extensions := any_nil; GltfBuffer_Extras := any_nil;
                          GltfBuffer_Name := any_nil; GltfBuffer_URI := "" |}).
  { unfold ToGltfDoc_run in Hrun. rewrite Hloop in Hrun. injection Hrun as Hrun.
    rewrite <- Hrun in Hb. cbn [GlTF_Buffers] in Hb. rewrite Hbuf in Hb.
    now injection Hb. }
  set (named := set_Meshes_Nodes doc [set_Mesh_Name m filename] [set_Node_Name n filename]).
  assert (Hnamed : namedDoc doc filename = Some named).
  { unfold namedDoc. now rewrite Hm, Hn. }
  assert (Hb' : GlTF_Buffers named = [b0]) by exact Hb.
  assert (Hb0 : GlTF_Buffers named !! 0%nat = Some b0) by now rewrite Hb'.
  pose proof (len_flat_map_meshBytes_mod4 vc (Meshes model)) as Hal. fold payload in Hal.
  exists named, b0.
  rewrite Hdoc. cbn [mbind option_bind]. split; [exact Hnamed|]. split; [exact Hb'|].
  split; [now rewrite Hb0eq|]. split; [now rewrite Hb0eq|]. split; [exact Hal|].
  cbv zeta. unfold writeGltf. rewrite Hdoc. cbn [mbind option_bind]. rewrite Hnamed.
  cbn [mbind option_bind].
  rewrite (SerializeBinaryGlTF_layout jt named b0 Hb0). cbn [option_bind].
  set (j := json_Marshal jt named).
  replace (GltfBuffer_Bytes b0) with payload by now rewrite Hb0eq.
  destruct (glbSizes_of_modular j payload) as (Hpj & Hpb & Hjs & Hbs & Hg).
  assert (Hpad : (- len payload) mod 4 = 0) by (Z.div_mod_to_equations; lia).
  assert (HB : paddedBIN payload = payload).
  { unfold paddedBIN. rewrite Hpad. apply app_nil_r. }
  unfold glbBytes. rewrite Hpj, Hpb, Hjs, Hbs, Hg, Hpad, HB.
  change (nulls 0) with (@nil Z). rewrite app_nil_r.
  unfold paddedJSON. rewrite <- !app_assoc. reflexivity.
Qed.

(** X23. The two stages together: the document [ToGltfDoc] makes of what
    [optimizeModel] returns has one primitive (indices 0, material 0, and
    the attributes POSITION 1, NORMAL 2, and TEXCOORD_0 or COLOR_0 3) and
    four accessors, each on the buffer view of its index; the indices
    accessor counts three scalars for each face of the model, the other
    three one element for each vertex of the model, and the buffer has 12
    bytes for each face and 32 (40 with vertex colors) for each vertex. *)
Theorem optimizeModel_then_ToGltfDoc_counts_the_model :
  forall (uint8_unrepresentable uint32_unrepresentable : spec_float -> Z)
         (png_Encode : RGBA -> list Z) (base64_EncodeToString : list Z -> string)
         (vertexColors : bool) (model : Model),
    exists (gltfDoc : GlTF) (p : MeshPrimitive) (a0 a1 a2 a3 : Accessor)
           (buffer0 : GltfBuffer),
      ToGltfDoc uint32_unrepresentable base64_EncodeToString vertexColors
                (fst (optimizeModel uint8_unrepresentable png_Encode vertexColors model))
                (snd (optimizeModel uint8_unrepresentable png_Encode vertexColors model))
        = Some gltfDoc /\
      Mesh_Primitives <$> GlTF_Meshes gltfDoc = [[p]] /\
      MeshPrimitive_Indices p = 0 /\ MeshPrimitive_Material p = 0 /\
      MeshPrimitive_Attributes p
        = <[(if negb vertexColors then "TEXCOORD_0" else "COLOR_0")%string := 3]>
            (<["NORMAL"%string := 2]> (<["POSITION"%string := 1]> ∅)) /\
      GlTF_Accessors gltfDoc = [a0; a1; a2; a3] /\
      accessor_is a0 0 5125 (totalFaces (Meshes model) * 3) "SCALAR" /\
      accessor_is a1 1 5126 (totalVertices (Meshes model)) "VEC3" /\
      accessor_is a2 2 5126 (totalVertices (Meshes model)) "VEC3" /\
      accessor_is a3 3 5126 (totalVertices (Meshes model))
                  (if negb vertexColors then "VEC2" else "VEC4") /\
      GlTF_Buffers gltfDoc = [buffer0] /\
      GltfBuffer_ByteLength buffer0
        = 12 * totalFaces (Meshes model)
          + (if negb vertexColors then 32 else 40) * totalVertices (Meshes model).
Proof.
  intros u8 u32 png b64 vc model. rewrite optimizeModel_spec. cbn [fst snd].
  set (vs := if vc then remappedVertices (Meshes model) else atlasVertices 0 (Meshes model)).
  set (fs := consolidatedFaces 0 (Meshes model)).
  set (mesh := {| Vertices := vs; Faces := fs; Material_ := flatMaterial |}).
  assert (Hvs : len (Vertices mesh) = totalVertices (Meshes model)).
  { subst mesh vs. cbn [Vertices].
    destruct vc; [apply len_remappedVertices | apply len_atlasVertices]. }
  assert (Hfs : len (Faces mesh) = totalFaces (Meshes model)).
  { subst mesh fs. cbn [Faces]. apply len_consolidatedFaces. }
  unfold ToGltfDoc, ToGltfDoc_run. cbn [Meshes].
  rewrite ToGltfDoc_loop_one. unfold Loop0. rewrite ToGltfDoc_body_unfold.
  change (addMaterial (assembledMaterial vc mesh) [])
    with (Some (0, [assembledMaterial vc mesh])).
  cbv iota beta.
  destruct (packMesh_closed u32 vc
              {| outBuf := []; gltfBufferViews := []; gltfAccessors := [] |} mesh)
    as (a0 & a1 & a2 & a3 & Epk & (H0 & H1 & H2 & H3) & Hassoc).
  rewrite Epk, Hassoc. cbn [outBuf gltfBufferViews gltfAccessors app] in *.
  change (len (@nil BufferView)) with 0 in *. change (len (@nil Accessor)) with 0.
  rewrite Hvs, Hfs in *.
  cbn [fmap option_fmap option_map fst].
  eexists. exists (meshPrimitive_of vc (associationAt vc 0 0)), a0, a1, a2, a3. eexists.
  split; [reflexivity|].
  cbn [GlTF_Meshes GlTF_Accessors GlTF_Buffers fmap list_fmap Mesh_Primitives fold_left app].
  split; [reflexivity|]. split; [reflexivity|]. split; [reflexivity|].
  split; [destruct vc; reflexivity|].
  split; [reflexivity|]. split; [exact H0|]. split; [exact H1|]. split; [exact H2|].
  split; [exact H3|]. split; [reflexivity|].
  cbn [GltfBuffer_ByteLength]. rewrite len_meshBytes. unfold meshSize. now rewrite Hvs, Hfs.
Qed.
